(** * Retry scheduling of the campaign module: a shallow embedding

    The development follows the TypeScript modules that carry the retry
    logic:

    - [types/campaign]           the policy table [DEFAULT_RETRY_POLICIES];
    - [services/retryService]    class [RetryService] (decisions, validation);
    - [services/campaignService] class [CampaignService] (the retry state store
      and the campaign list);
    - the module of class [RetryEngine] (the scheduler, its validator, its
      status and the simulated execution).

    Conventions of the embedding.

    - A JavaScript [Date] is its time value: milliseconds since the epoch, or
      Invalid Date.  A setter that leaves the range of +-8.64e15 ms makes
      the date invalid.
    - Local time is the host's: the world carries the time zone, with its
      offset from UTC at every instant.  [d.setHours(d.getHours() + h)]
      moves the local time by [h] hours and [d.setDate(d.getDate() + n)] by
      [n] days, which is the same lapse of time only where the offset does
      not change in between.
    - A date-time string is classified by what [new Date(s)] makes of it.
    - [new Date()] reads a clock; every read is explicit in the state, and
      the clock may show any time at any reading.
    - A thrown exception (a rejected promise for an [async] method) is an
      outcome of its own.
    - The state objects are records; an assignment to a field of an object
      that the map holds is a replacement of the map's value where it
      stands.
    - An object that is used as a table is read as the language reads it:
      by its own properties and then by those of its prototype, so that a key
      such as 'toString' finds a value in a table that does not list it, and
      an assignment under '__proto__' sets the prototype.
    - A [number] is a finite value, NaN or an infinity; as an index of an
      array it finds an element only when it is a whole number from 0 on.
    - The number that [Math.random()] draws is given from outside, as the
      rational that the double denotes; [toLowerCase] is a parameter of the
      function that calls it. *)

From Stdlib Require Import ZArith QArith List String Bool Lia.
From Stdlib Require Qcanon.
Import ListNotations.
Open Scope string_scope.
Open Scope list_scope.
Open Scope Z_scope.

(* ===================================================================== *)
(** * JavaScript values used by the services *)
(* ===================================================================== *)

(** [Date]: [Some t] is a valid date with time value [t] (ms since the
    epoch), [None] is Invalid Date (time value NaN). *)
Definition Date := option Z.

(** A string read as a date-time.  [Instant t] stands for a string that
    [new Date(s)] parses to the time value [t] (what [toISOString] writes is
    of this kind); [Unparsable s] for a string that it does not parse. *)
Inductive DateString : Type :=
| Instant (t : Z)
| Unparsable (s : string).

(** [new Date(s)] *)
Definition newDate (s : DateString) : Date :=
  match s with
  | Instant t => Some t
  | Unparsable _ => None
  end.

(** [new Date(d)]: a copy of the date [d]. *)
Definition copyDate (d : Date) : Date := d.

(** [isNaN(d.getTime())] *)
Definition isNaN_getTime (d : Date) : bool :=
  match d with Some _ => false | None => true end.

(** Relational operators on dates compare time values; a comparison with
    NaN is false. *)
Definition date_gt (a b : Date) : bool :=
  match a, b with Some x, Some y => y <? x | _, _ => false end.
Definition date_lt (a b : Date) : bool :=
  match a, b with Some x, Some y => x <? y | _, _ => false end.
Definition date_le (a b : Date) : bool :=
  match a, b with Some x, Some y => x <=? y | _, _ => false end.
Definition date_ge (a b : Date) : bool :=
  match a, b with Some x, Some y => y <=? x | _, _ => false end.

Definition msPerHour : Z := 3600000.
Definition msPerDay : Z := 86400000.

(** The time zone of the host: the offset of local time from UTC, in
    milliseconds, at a time value ([LocalTZA(t, true)]) and for a local time
    value ([LocalTZA(t, false)]).  The host decides both; where the offset
    changes, local times are skipped or repeated. *)
Record TimeZone : Type := mkTimeZone {
  offsetAt : Z -> Z;
  offsetOfLocal : Z -> Z
}.

(** A zone whose offset never changes, and UTC itself. *)
Definition fixedZone (offset : Z) : TimeZone :=
  mkTimeZone (fun _ => offset) (fun _ => offset).
Definition utc : TimeZone := fixedZone 0.

(** A zone whose offset changes once, at the instant [change], from
    [before] to a larger offset [after] (clocks are set forward, as at the
    start of daylight saving time).  The local times that the change skips
    are read with the offset before the change. *)
Definition clocksForward (change before after : Z) : TimeZone :=
  mkTimeZone (fun t => if t <? change then before else after)
             (fun local => if local <? change + after then before else after).

(** [LocalTime(t)] and [UTC(t)] of the language specification. *)
Definition LocalTime (z : TimeZone) (t : Z) : Z := t + offsetAt z t.
Definition UTC (z : TimeZone) (local : Z) : Z := local - offsetOfLocal z local.

(** [TimeClip]: a time value beyond 8.64e15 ms on either side is NaN. *)
Definition maxTimeValue : Z := 8640000000000000.
Definition TimeClip (t : Z) : Date :=
  if Z.abs t <=? maxTimeValue then Some t else None.

(** [d.setHours(d.getHours() + h)] in the zone [z]: the hour of the local
    time is replaced, minutes, seconds and milliseconds are kept, so the local
    time moves by [h] hours; the result is taken back to UTC and clipped.
    [h] is [None] when the source adds [undefined] (the sum is NaN and the
    date becomes invalid). *)
Definition plusHours (z : TimeZone) (d : Date) (h : option Z) : Date :=
  match d, h with
  | Some t, Some n => TimeClip (UTC z (LocalTime z t + n * msPerHour))
  | _, _ => None
  end.

(** [d.setDate(d.getDate() + n)] in the zone [z]: the day of the local
    time moves by [n], the time within the day is kept. *)
Definition plusDays (z : TimeZone) (d : Date) (n : Z) : Date :=
  match d with
  | Some t => TimeClip (UTC z (LocalTime z t + n * msPerDay))
  | None => None
  end.

(** Truthiness of an optional string field: [undefined] and the empty
    string are falsy.  [truthy s] is the string when it is truthy. *)
Definition truthy (s : option DateString) : option DateString :=
  match s with
  | None => None
  | Some (Unparsable "") => None
  | Some d => Some d
  end.

Inductive JsError : Type :=
| RangeError (msg : string)
| TypeError (msg : string)
| Error (msg : string).

Inductive Outcome (A : Type) : Type :=
| Returns (a : A)
| Throws (e : JsError).
Arguments Returns {A} a.
Arguments Throws {A} e.

(* ===================================================================== *)
(** * types/campaign.ts *)
(* ===================================================================== *)

Record RetryPolicy : Type := mkRetryPolicy {
  errorCode : string;
  description : string;
  retryIntervals : list Z;            (* hours between retries *)
  requiresTemplateActive : bool       (* optional; absent is falsy *)
}.

Record RetryTtlConfig : Type := mkRetryTtlConfig {
  enabled : bool;
  ttlDateTime : option DateString;
  scheduledDateTime : option DateString;
  stopOnConversion : bool;
  stopOnManualPause : bool;
  stopOnTemplateChange : bool
}.

(** [DEFAULT_RETRY_POLICIES]: the object literal, by its own properties. *)
Definition DEFAULT_RETRY_POLICIES (code : string) : option RetryPolicy :=
  if String.eqb code "131049" then
    Some (mkRetryPolicy "131049" "Frequency cap / healthy ecosystem" [12; 24; 48] false)
  else if String.eqb code "130472" then
    Some (mkRetryPolicy "130472" "Experiment group" [24; 24; 24] false)
  else if String.eqb code "132015" then
    Some (mkRetryPolicy "132015" "Template paused" [24] true)
  else None.

(** The names of the properties that an object literal inherits from
    [Object.prototype]: eleven functions and, under ['__proto__'], the
    prototype itself. *)
Definition objectPrototypeKeys : list string :=
  [ "constructor"; "hasOwnProperty"; "isPrototypeOf"; "propertyIsEnumerable";
    "toLocaleString"; "toString"; "valueOf"; "__proto__";
    "__defineGetter__"; "__defineSetter__"; "__lookupGetter__"; "__lookupSetter__" ].

(** What [DEFAULT_RETRY_POLICIES[errorCode]] evaluates to: a policy of the
    table, a value inherited from [Object.prototype] (truthy, and without
    the fields of a policy), or [undefined]. *)
Inductive Indexed : Type :=
| Policy (p : RetryPolicy)
| Inherited
| Absent.

(** [DEFAULT_RETRY_POLICIES[errorCode]] *)
Definition indexPolicies (errorCode : string) : Indexed :=
  match DEFAULT_RETRY_POLICIES errorCode with
  | Some p => Policy p
  | None =>
    if existsb (String.eqb errorCode) objectPrototypeKeys then Inherited else Absent
  end.

(** [policy.requiresTemplateActive], as a condition. *)
Definition requiresTemplate (policy : Indexed) : bool :=
  match policy with
  | Policy p => requiresTemplateActive p
  | _ => false
  end.

(** A JavaScript number: a finite value, NaN or an infinity. *)
Inductive JsNumber : Type :=
| Finite (q : Q)
| NaN
| Infinity
| NegInfinity.

(** A count, as a number. *)
Definition ofNat (n : nat) : JsNumber := Finite (inject_Z (Z.of_nat n)).

(** [a.length] *)
Definition lengthOf {A : Type} (a : list A) : JsNumber := ofNat (List.length a).

(** [x >= a.length] *)
Definition number_ge {A : Type} (x : JsNumber) (a : list A) : bool :=
  match x with
  | Finite q => Qle_bool (inject_Z (Z.of_nat (List.length a))) q
  | Infinity => true
  | NaN | NegInfinity => false
  end.

(** The array index that the number [x] names, if it names one: a number
    that is not a non-negative integer names a property that an array does
    not have. *)
Definition asIndex (x : JsNumber) : option nat :=
  match x with
  | Finite q =>
    let r := Qred q in
    if (Qden r =? 1)%positive && (0 <=? Qnum r) then Some (Z.to_nat (Qnum r))
    else None
  | _ => None
  end.

(** [a[x]]: [None] is [undefined]. *)
Definition elementAt {A : Type} (a : list A) (x : JsNumber) : option A :=
  match asIndex x with
  | Some i => nth_error a i
  | None => None
  end.

(** ** The campaign list *)

Inductive CampaignStatus : Type := DRAFT | SENT | SCHEDULED | SUSPENDED | RUNNING | FAILED.
Inductive CampaignChannel : Type := WhatsApp | Email | SMS | Push.

(** The text of [sentOn]: a literal, or what
    [d.toLocaleString('en-US', ...)] writes for the date [d]. *)
Inductive SentOn : Type :=
| SentOnText (s : string)
| SentOnLocale (d : Date).

Module Campaign.
Record t : Type := mk {
  id : string;
  name : string;
  status : CampaignStatus;
  sentOn : option SentOn;            (* string | null *)
  published : Z;
  sent : Z;
  opened : Z;
  clicked : Z;
  bounce : string;
  channel : CampaignChannel;
  createdAt : option string;
  updatedAt : option string;
  retryTtl : option DateString;
  scheduledAt : option DateString
}.
End Campaign.

Inductive SortBy : Type := SortByName | SortByDate | SortByStatus.
Inductive SortOrder : Type := Asc | Desc.

Record CampaignListOptions : Type := mkOptions {
  publishedCampaignId : option string;   (* string | null | undefined *)
  searchQuery : option string;
  activeTab : option string;
  sortBy : option SortBy;
  sortOrder : option SortOrder
}.

(** The result of [getCampaignStats]. *)
Module CampaignStats.
Record t : Type := mk {
  all : nat;
  drafts : nat;
  sent : nat;
  scheduled : nat;
  suspended : nat;
  running : nat;
  failed : nat
}.
End CampaignStats.

(** [s.includes(sub)]: [sub] occurs in [s]. *)
Fixpoint includes (s sub : string) : bool :=
  if String.prefix sub s then true
  else match s with
       | EmptyString => false
       | String _ rest => includes rest sub
       end.

(* ===================================================================== *)
(** * services/retryService.ts: data *)
(* ===================================================================== *)

Inductive AttemptStatus : Type := pending | completed | failed | skipped.

Record RetryAttempt : Type := mkRetryAttempt {
  attemptNumber : Z;
  scheduledAt : DateString;
  attemptErrorCode : option string;   (* errorCode?: RetryErrorCode *)
  status : AttemptStatus;
  executedAt : option DateString
}.

Record CampaignRetryState : Type := mkCampaignRetryState {
  campaignId : string;
  retryConfig : RetryTtlConfig;
  attempts : list RetryAttempt;
  lastAttemptAt : option DateString;
  nextAttemptAt : option DateString;
  isExpired : bool
}.

(** The [reason] strings of [processRetryAttempt], one constructor per
    string literal or template of the source. *)
Inductive Reason : Type :=
| RetryDisabled                      (* 'Retry is disabled for this campaign' *)
| TtlExpired                         (* 'Retry TTL has expired' *)
| NoPolicyFound (code : string)      (* `No retry policy found for error code ${errorCode}` *)
| TemplatePaused                     (* 'Template is still paused, retry blocked' *)
| RetryScheduled (at_ : option DateString)  (* `Retry scheduled for ${nextAttemptAt}` *)
| NoMoreAttempts.                    (* 'No more retry attempts available or TTL expired' *)

Record NextAttempt : Type := mkNextAttempt {
  na_nextAttemptAt : option DateString;   (* string | null *)
  na_shouldRetry : bool
}.

Record RetryDecision : Type := mkRetryDecision {
  shouldRetry : bool;
  decidedNextAttemptAt : option DateString;  (* nextAttemptAt: string | null *)
  reason : Reason
}.

Record Validation : Type := mkValidation {
  isValid : bool;
  errors : list string
}.

(* ===================================================================== *)
(** * The world: clock, console and the module-level store *)
(* ===================================================================== *)

(** Messages of [RetryEngine.log], one constructor per template. *)
Inductive EngineMessage : Type :=
| MsgAlreadyRunning                  (* 'Retry engine is already running' *)
| MsgStarting                        (* 'Starting retry engine' *)
| MsgNotRunning                      (* 'Retry engine is not running' *)
| MsgStopping                        (* 'Stopping retry engine' *)
| MsgProcessing (n : nat)            (* `Processing ${n} campaigns for retry` *)
| MsgExecuting (id : string)         (* `Executing retry for campaign ${id}` *)
| MsgExecuted (id : string) (n : Z)  (* `Campaign ${id} executed successfully on retry attempt ${n}` *)
| MsgScheduled (id : string) (at_ : DateString)
                                     (* `Campaign ${id} scheduled for next retry at ${at}` *)
| MsgExhausted (id : string) (r : Reason)
                                     (* `Campaign ${id} retry exhausted: ${reason}` *)
| MsgExecutionError (id : string) (e : JsError)
                                     (* `Error executing retry for campaign ${id}: ${error}` *)
| MsgProcessingError (e : JsError).  (* `Error in retry processing: ${error}` *)

Inductive ConsoleLine : Type :=
| TemplateCheck (templateId : string)     (* `Checking if template ${templateId} is active` *)
| EngineLine (at_ : DateString) (m : EngineMessage).
                                          (* `[RetryEngine] ${iso}: ${message}` *)

(** [campaignRetryStates = new Map<string, CampaignRetryState>()]: the
    entries in insertion order. *)
Definition RetryStates := list (string * CampaignRetryState).

Record World : Type := mkWorld {
  clock : nat -> Z;          (* the n-th reading of the system clock *)
  reads : nat;               (* readings taken so far *)
  console : list ConsoleLine;
  campaignRetryStates : RetryStates;
  intervals : list nat;      (* handles of the live [setInterval] timers *)
  handles : nat;             (* timer handles given out so far *)
  zone : TimeZone            (* the time zone of the host *)
}.

(** Computations of the services: they read and change the world, and
    return or throw. *)
Definition M (A : Type) : Type := World -> Outcome A * World.

Definition ret {A} (a : A) : M A := fun w => (Returns a, w).
Definition throw {A} (e : JsError) : M A := fun w => (Throws e, w).
Definition bind {A B} (m : M A) (k : A -> M B) : M B :=
  fun w =>
    match m w with
    | (Returns a, w') => k a w'
    | (Throws e, w') => (Throws e, w')
    end.
(** [try { m } catch (error) { h error }] *)
Definition try_catch {A} (m : M A) (h : JsError -> M A) : M A :=
  fun w =>
    match m w with
    | (Returns a, w') => (Returns a, w')
    | (Throws e, w') => h e w'
    end.

Notation "x <- m ;; k" := (bind m (fun x => k))
  (at level 61, m at next level, right associativity).
Notation "m ;;; k" := (bind m (fun _ => k))
  (at level 61, right associativity).

(** The time shown by the clock at its next reading. *)
Definition currentTime (w : World) : Z := clock w (reads w).

(** [new Date()] *)
Definition newDateNow : M Date :=
  fun w => (Returns (Some (currentTime w)),
            mkWorld (clock w) (S (reads w)) (console w) (campaignRetryStates w)
              (intervals w) (handles w) (zone w)).

(** [console.log(line)] *)
Definition console_log (l : ConsoleLine) : M unit :=
  fun w => (Returns tt,
            mkWorld (clock w) (reads w) (console w ++ [l]) (campaignRetryStates w)
              (intervals w) (handles w) (zone w)).

Definition getStates : M RetryStates :=
  fun w => (Returns (campaignRetryStates w), w).
Definition putStates (s : RetryStates) : M unit :=
  fun w => (Returns tt,
            mkWorld (clock w) (reads w) (console w) s (intervals w) (handles w) (zone w)).

(** [setInterval(callback, ms)]: a new live timer; its handle is returned. *)
Definition setInterval : M nat :=
  fun w => (Returns (handles w),
            mkWorld (clock w) (reads w) (console w) (campaignRetryStates w)
              (intervals w ++ [handles w]) (S (handles w)) (zone w)).

(** [clearInterval(h)] *)
Definition clearInterval (h : nat) : M unit :=
  fun w => (Returns tt,
            mkWorld (clock w) (reads w) (console w) (campaignRetryStates w)
              (filter (fun h' => negb (Nat.eqb h' h)) (intervals w)) (handles w) (zone w)).

(** The time zone of the host. *)
Definition timeZone : M TimeZone := fun w => (Returns (zone w), w).

(** [d.setHours(d.getHours() + h)]: the date after the call. *)
Definition setHoursPlus (d : Date) (h : option Z) : M Date :=
  z <- timeZone ;;
  ret (plusHours z d h).

(** [d.setDate(d.getDate() + n)]: the date after the call. *)
Definition setDatePlus (d : Date) (n : Z) : M Date :=
  z <- timeZone ;;
  ret (plusDays z d n).

(** [d.toISOString()]: throws a RangeError on an invalid date. *)
Definition toISOString (d : Date) : M DateString :=
  match d with
  | Some t => ret (Instant t)
  | None => throw (RangeError "Invalid time value")
  end.

(* ===================================================================== *)
(** * services/retryService.ts: class RetryService *)
(* ===================================================================== *)

Module RetryService.

(** [isRetryTtlExpired(ttlDateTime)] *)
Definition isRetryTtlExpired (ttlDateTime : DateString) : M bool :=
  let ttl := newDate ttlDateTime in
  now <- newDateNow ;;
  ret (date_gt now ttl).

(** [if (c) { errors.push(e); }] *)
Definition push_if (c : bool) (e : string) (errs : list string) : list string :=
  if c then errs ++ [e] else errs.

(** [validateUnifiedTtl(ttlDateTime, scheduledDateTime)] *)
Definition validateUnifiedTtl (ttlDateTime scheduledDateTime : DateString)
  : M Validation :=
  let errors := [] in
  let ttl := newDate ttlDateTime in
  let scheduled := newDate scheduledDateTime in
  now <- newDateNow ;;
  let errors := push_if (isNaN_getTime ttl) "Invalid TTL datetime" errors in
  let errors := push_if (isNaN_getTime scheduled) "Invalid scheduled datetime" errors in
  if (0 <? List.length errors)%nat then ret (mkValidation false errors)
  else
    minTtl <- setDatePlus (copyDate scheduled) 1 ;;
    let errors := push_if (date_lt ttl minTtl)
        "TTL must be at least 24 hours after scheduled time" errors in
    maxTtl <- setDatePlus (copyDate scheduled) 28 ;;
    let errors := push_if (date_gt ttl maxTtl)
        "TTL cannot be more than 28 days after scheduled time" errors in
    let errors := push_if (date_le ttl now) "TTL must be in the future" errors in
    ret (mkValidation (List.length errors =? 0)%nat errors).

(** [calculateNextRetryAttempt(errorCode, currentAttempt, lastAttemptAt,
    ttlDateTime)].  On a value inherited from [Object.prototype] the read of
    [policy.retryIntervals.length] throws a TypeError (the message is the
    engine's). *)
Definition calculateNextRetryAttempt (errorCode : string) (currentAttempt : JsNumber)
    (lastAttemptAt ttlDateTime : DateString) : M NextAttempt :=
  expired <- isRetryTtlExpired ttlDateTime ;;
  if expired then ret (mkNextAttempt None false)
  else
    match indexPolicies errorCode with
    | Absent => ret (mkNextAttempt None false)
    | Inherited =>
      throw (TypeError "Cannot read properties of undefined (reading 'length')")
    | Policy policy =>
      if number_ge currentAttempt (retryIntervals policy)
      then ret (mkNextAttempt None false)
      else
        let retryDelayHours := elementAt (retryIntervals policy) currentAttempt in
        let lastAttempt := newDate lastAttemptAt in
        nextAttempt <- setHoursPlus (copyDate lastAttempt) retryDelayHours ;;
        let ttl := newDate ttlDateTime in
        if date_gt nextAttempt ttl then ret (mkNextAttempt None false)
        else
          iso <- toISOString nextAttempt ;;
          ret (mkNextAttempt (Some iso) true)
    end.

(** [getRetryPolicy(errorCode)]: [Absent] is [null]. *)
Definition getRetryPolicy (errorCode : string) : Indexed :=
  indexPolicies errorCode.

(** [isTemplateActive(templateId)] *)
Definition isTemplateActive (templateId : string) : M bool :=
  console_log (TemplateCheck templateId) ;;;
  ret true.

(** [processRetryAttempt(campaignId, errorCode, retryState)]; a rejection
    of the returned promise is the outcome [Throws]. *)
Definition processRetryAttempt (campaignId errorCode : string)
    (retryState : CampaignRetryState) : M RetryDecision :=
  let retryConfig := retryConfig retryState in
  let attempts := attempts retryState in
  if negb (enabled retryConfig) then ret (mkRetryDecision false None RetryDisabled)
  else
    match truthy (ttlDateTime retryConfig) with
    | None => ret (mkRetryDecision false None TtlExpired)
    | Some ttlDateTime =>
      expired <- isRetryTtlExpired ttlDateTime ;;
      if expired then ret (mkRetryDecision false None TtlExpired)
      else
        match getRetryPolicy errorCode with
        | Absent => ret (mkRetryDecision false None (NoPolicyFound errorCode))
        | policy =>
          blocked <-
            (if String.eqb errorCode "132015" && requiresTemplate policy
             then isActive <- isTemplateActive campaignId ;; ret (negb isActive)
             else ret false) ;;
          if blocked then ret (mkRetryDecision false None TemplatePaused)
          else
            let currentAttempt := lengthOf attempts in
            lastAttemptAt <-
              (match truthy (lastAttemptAt retryState) with
               | Some s => ret s
               | None => now <- newDateNow ;; toISOString now
               end) ;;
            next <- calculateNextRetryAttempt errorCode currentAttempt
                      lastAttemptAt ttlDateTime ;;
            ret (mkRetryDecision (na_shouldRetry next) (na_nextAttemptAt next)
                   (if na_shouldRetry next
                    then RetryScheduled (na_nextAttemptAt next)
                    else NoMoreAttempts))
        end
    end.

(** [createRetryState(campaignId, retryConfig)] *)
Definition createRetryState (campaignId : string) (retryConfig : RetryTtlConfig)
  : M CampaignRetryState :=
  isExpired <-
    (match truthy (ttlDateTime retryConfig) with
     | Some ttl => isRetryTtlExpired ttl
     | None => ret false
     end) ;;
  ret (mkCampaignRetryState campaignId retryConfig [] None None isExpired).

(** [updateRetryState(retryState, attempt)] *)
Definition updateRetryState (retryState : CampaignRetryState)
    (attempt : RetryAttempt) : M CampaignRetryState :=
  let updatedAttempts := attempts retryState ++ [attempt] in
  lastAttemptAt <-
    (match truthy (executedAt attempt) with
     | Some s => ret s
     | None => now <- newDateNow ;; toISOString now
     end) ;;
  isExpired <-
    (match truthy (ttlDateTime (retryConfig retryState)) with
     | Some ttl => isRetryTtlExpired ttl
     | None => ret false
     end) ;;
  ret (mkCampaignRetryState (campaignId retryState) (retryConfig retryState)
         updatedAttempts (Some lastAttemptAt) (nextAttemptAt retryState)
         isExpired).

(** The result of [getRetryStats].  [timeToExpiry] is [None] when the
    field is [undefined], [Some None] when the difference of the time values
    is NaN, [Some (Some ms)] otherwise. *)
Record RetryStats : Type := mkRetryStats {
  totalAttempts : nat;
  successfulAttempts : nat;
  failedAttempts : nat;
  pendingAttempts : nat;
  stats_isExpired : bool;
  timeToExpiry : option (option Z)
}.

Definition status_eqb (a b : AttemptStatus) : bool :=
  match a, b with
  | pending, pending | completed, completed | failed, failed | skipped, skipped => true
  | _, _ => false
  end.

(** [attempts.filter(a => a.status === s).length] *)
Definition countStatus (s : AttemptStatus) (l : list RetryAttempt) : nat :=
  List.length (filter (fun a => status_eqb (status a) s) l).

(** [ttl.getTime() - now.getTime()] *)
Definition minusTime (a b : Date) : option Z :=
  match a, b with
  | Some x, Some y => Some (x - y)
  | _, _ => None
  end.

(** [getRetryStats(retryState)] *)
Definition getRetryStats (retryState : CampaignRetryState) : M RetryStats :=
  let attempts := attempts retryState in
  let stats :=
    mkRetryStats (List.length attempts) (countStatus completed attempts)
      (countStatus failed attempts) (countStatus pending attempts)
      (isExpired retryState) None in
  match truthy (ttlDateTime (retryConfig retryState)) with
  | Some ttlDateTime =>
    if negb (isExpired retryState) then
      let ttl := newDate ttlDateTime in
      now <- newDateNow ;;
      ret (mkRetryStats (totalAttempts stats) (successfulAttempts stats)
             (failedAttempts stats) (pendingAttempts stats) (stats_isExpired stats)
             (Some (minusTime ttl now)))
    else ret stats
  | None => ret stats
  end.

(** The result of [createUnifiedTtlConfig]. *)
Record UnifiedTtlConfig : Type := mkUnifiedTtlConfig {
  retryEngineConfig : RetryTtlConfig;
  metaApiTtl : DateString;
  unified_isValid : bool;
  unified_errors : list string
}.

(** [createUnifiedTtlConfig(campaignId, scheduledAt, retryTtl)] *)
Definition createUnifiedTtlConfig (campaignId : string)
    (scheduledAt retryTtl : DateString) : M UnifiedTtlConfig :=
  validation <- validateUnifiedTtl retryTtl scheduledAt ;;
  if negb (isValid validation) then
    ret (mkUnifiedTtlConfig
           (mkRetryTtlConfig false None (Some scheduledAt) true true true)
           retryTtl false (errors validation))
  else
    let retryEngineConfig :=
      mkRetryTtlConfig true (Some retryTtl) (Some scheduledAt) true true true in
    ret (mkUnifiedTtlConfig retryEngineConfig retryTtl true []).

End RetryService.

(* ===================================================================== *)
(** * services/campaignService.ts: class CampaignService *)
(* ===================================================================== *)

Module CampaignService.

(** [campaignRetryStates.get(campaignId)] *)
Fixpoint map_get (k : string) (m : RetryStates) : option CampaignRetryState :=
  match m with
  | [] => None
  | (k', v) :: rest => if String.eqb k' k then Some v else map_get k rest
  end.

(** [campaignRetryStates.set(campaignId, state)]: the value of an existing
    key is replaced where it stands, a new key is added at the end. *)
Fixpoint map_set (k : string) (v : CampaignRetryState) (m : RetryStates)
  : RetryStates :=
  match m with
  | [] => [(k, v)]
  | (k', v') :: rest =>
    if String.eqb k' k then (k', v) :: rest else (k', v') :: map_set k v rest
  end.

Definition with_isExpired (b : bool) (s : CampaignRetryState) : CampaignRetryState :=
  mkCampaignRetryState (campaignId s) (retryConfig s) (attempts s)
    (lastAttemptAt s) (nextAttemptAt s) b.

Definition with_nextAttemptAt (n : option DateString) (s : CampaignRetryState)
  : CampaignRetryState :=
  mkCampaignRetryState (campaignId s) (retryConfig s) (attempts s)
    (lastAttemptAt s) n (isExpired s).

(** [{ ...existingState, retryConfig, isExpired }] *)
Definition with_retryConfig (c : RetryTtlConfig) (b : bool) (s : CampaignRetryState)
  : CampaignRetryState :=
  mkCampaignRetryState (campaignId s) c (attempts s)
    (lastAttemptAt s) (nextAttemptAt s) b.

(** [setRetryConfig(campaignId, retryConfig)] *)
Definition setRetryConfig (campaignId : string) (retryConfig : RetryTtlConfig)
  : M unit :=
  states <- getStates ;;
  match map_get campaignId states with
  | Some existingState =>
    expired <-
      (match truthy (ttlDateTime retryConfig) with
       | Some ttl => RetryService.isRetryTtlExpired ttl
       | None => ret false
       end) ;;
    putStates (map_set campaignId
                 (with_retryConfig retryConfig expired existingState) states)
  | None =>
    newState <- RetryService.createRetryState campaignId retryConfig ;;
    putStates (map_set campaignId newState states)
  end.

(** [getRetryState(campaignId)] *)
Definition getRetryState (campaignId : string) : M (option CampaignRetryState) :=
  states <- getStates ;;
  ret (map_get campaignId states).

(** The body of the [forEach] callback of [getCampaignsForRetry] on one
    entry: the entry to push on [campaignsForRetry], if any, and the entry's
    state object after the visit ([retryState.isExpired = true] is an
    assignment to the object held by the map). *)
Definition visitRetryState (now : Date) (campaignId : string)
    (retryState : CampaignRetryState)
  : M (option (string * CampaignRetryState) * CampaignRetryState) :=
  if negb (enabled (retryConfig retryState)) || isExpired retryState
  then ret (None, retryState)
  else
    expired <-
      (match truthy (ttlDateTime (retryConfig retryState)) with
       | Some ttl => RetryService.isRetryTtlExpired ttl
       | None => ret false
       end) ;;
    if expired then ret (None, with_isExpired true retryState)
    else
      match truthy (nextAttemptAt retryState) with
      | Some next =>
        let nextAttempt := newDate next in
        if date_ge now nextAttempt
        then ret (Some (campaignId, retryState), retryState)
        else ret (None, retryState)
      | None => ret (None, retryState)
      end.

(** [campaignRetryStates.forEach(...)]: the entries are visited in
    insertion order; the result is the list pushed and the entries as the
    visits leave them. *)
Fixpoint forEachRetryState (now : Date) (entries : RetryStates)
  : M (list (string * CampaignRetryState) * RetryStates) :=
  match entries with
  | [] => ret ([], [])
  | (campaignId, retryState) :: rest =>
    v <- visitRetryState now campaignId retryState ;;
    r <- forEachRetryState now rest ;;
    ret (match fst v with
         | Some e => e :: fst r
         | None => fst r
         end,
         (campaignId, snd v) :: snd r)
  end.

(** [getCampaignsForRetry()] *)
Definition getCampaignsForRetry : M (list (string * CampaignRetryState)) :=
  now <- newDateNow ;;
  states <- getStates ;;
  r <- forEachRetryState now states ;;
  putStates (snd r) ;;;
  ret (fst r).

(** [updateRetryAttempt(campaignId, attempt)] *)
Definition updateRetryAttempt (campaignId : string) (attempt : RetryAttempt)
  : M unit :=
  states <- getStates ;;
  match map_get campaignId states with
  | Some retryState =>
    updatedState <- RetryService.updateRetryState retryState attempt ;;
    states' <- getStates ;;
    putStates (map_set campaignId updatedState states')
  | None => ret tt
  end.

(** [isRetryActive(campaignId)] *)
Definition isRetryActive (campaignId : string) : M bool :=
  retryState <- getRetryState campaignId ;;
  match retryState with
  | None => ret false
  | Some retryState =>
    if negb (enabled (retryConfig retryState)) then ret false
    else
      match truthy (ttlDateTime (retryConfig retryState)) with
      | None => ret false
      | Some ttl =>
        expired <- RetryService.isRetryTtlExpired ttl ;;
        ret (negb expired)
      end
  end.

(** The object [stats] of [getRetryStatistics]: its own properties, read
    by key, and its prototype when one has been assigned.  (The order in
    which an enumeration lists the properties is not part of the model.) *)
Record StatsObject : Type := mkStatsObject {
  prototypeOf : option RetryService.RetryStats;
  own : string -> option RetryService.RetryStats
}.

(** [{}] *)
Definition emptyObject : StatsObject := mkStatsObject None (fun _ => None).

(** [stats[key] = value], for a value that is an object: under the key
    ['__proto__'] the assignment sets the prototype of [stats] and creates no
    property. *)
Definition assign (key : string) (value : RetryService.RetryStats)
    (stats : StatsObject) : StatsObject :=
  if String.eqb key "__proto__" then mkStatsObject (Some value) (own stats)
  else mkStatsObject (prototypeOf stats)
         (fun k => if String.eqb k key then Some value else own stats k).

(** The [forEach] of [getRetryStatistics]: [stats[campaignId] = ...] for
    the entries in turn. *)
Fixpoint forEachRetryStats (entries : RetryStates) (stats : StatsObject)
  : M StatsObject :=
  match entries with
  | [] => ret stats
  | (campaignId, retryState) :: rest =>
    st <- RetryService.getRetryStats retryState ;;
    forEachRetryStats rest (assign campaignId st stats)
  end.

(** [getRetryStatistics()] *)
Definition getRetryStatistics : M StatsObject :=
  states <- getStates ;;
  forEachRetryStats states emptyObject.

(** ** The campaign list *)

(** [baseCampaigns] *)
Definition baseCampaigns : list Campaign.t :=
  [ Campaign.mk "246" "Copy:2 Sep 2025 @1:35pm- la..." DRAFT None 0 0 0 0 "NA" WhatsApp
      None None None None;
    Campaign.mk "262" "Copy:4 Sep 2025 @9:31pm-cra..." SENT
      (Some (SentOnText "Sep 04, 2025 09:31 PM (GMT +05:30)")) 219 219 1 1 "NA"
      WhatsApp None None None None;
    Campaign.mk "261" "crawer event" SENT
      (Some (SentOnText "Sep 04, 2025 09:28 PM (GMT +05:30)")) 219 219 1 0 "NA"
      WhatsApp None None None None;
    Campaign.mk "260" "testing_verification" SENT
      (Some (SentOnText "Sep 04, 2025 06:23 PM (GMT +05:30)")) 1 1 0 0 "NA"
      WhatsApp None None None None;
    Campaign.mk "257" "test campaign" SENT
      (Some (SentOnText "Sep 03, 2025 07:38 PM (GMT +05:30)")) 1 1 0 0 "NA"
      WhatsApp None None None None ].

(** Truthiness of an optional string: [null], [undefined] and the empty
    string are falsy. *)
Definition truthyString (s : option string) : option string :=
  match s with
  | Some "" => None
  | _ => s
  end.

(** [getCampaigns(options)] *)
Definition getCampaigns (options : CampaignListOptions) : M (list Campaign.t) :=
  let campaigns := baseCampaigns in
  match truthyString (publishedCampaignId options) with
  | Some publishedCampaignId =>
    now <- newDateNow ;;
    let newCampaign :=
      Campaign.mk publishedCampaignId "New WhatsApp Campaign" SENT
        (Some (SentOnLocale now)) 1 1 0 0 "NA" WhatsApp None None None None in
    ret (newCampaign :: campaigns)
  | None => ret campaigns
  end.

Definition campaignStatus_eqb (a b : CampaignStatus) : bool :=
  match a, b with
  | DRAFT, DRAFT | SENT, SENT | SCHEDULED, SCHEDULED
  | SUSPENDED, SUSPENDED | RUNNING, RUNNING | FAILED, FAILED => true
  | _, _ => false
  end.

(** [filterCampaigns(campaigns, searchQuery, activeTab)]; [toLowerCase] is
    the method of that name of JavaScript strings. *)
Definition filterCampaigns (toLowerCase : string -> string)
    (campaigns : list Campaign.t) (searchQuery activeTab : string)
  : list Campaign.t :=
  let filtered := campaigns in
  let filtered :=
    if String.eqb searchQuery "" then filtered
    else filter (fun campaign =>
                   includes (toLowerCase (Campaign.name campaign))
                            (toLowerCase searchQuery)
                   || includes (Campaign.id campaign) searchQuery)
                filtered in
  let byStatus (st : CampaignStatus) :=
    filter (fun c => campaignStatus_eqb (Campaign.status c) st) filtered in
  if negb (String.eqb activeTab "all") then
    if String.eqb activeTab "drafts" then byStatus DRAFT
    else if String.eqb activeTab "sent" then byStatus SENT
    else if String.eqb activeTab "scheduled" then byStatus SCHEDULED
    else if String.eqb activeTab "suspended" then byStatus SUSPENDED
    else if String.eqb activeTab "running" then byStatus RUNNING
    else if String.eqb activeTab "failed" then byStatus FAILED
    else filtered
  else filtered.

(** [campaigns.filter(c => c.status === st).length] *)
Definition countCampaigns (st : CampaignStatus) (campaigns : list Campaign.t) : nat :=
  List.length (filter (fun c => campaignStatus_eqb (Campaign.status c) st) campaigns).

(** [getCampaignStats(campaigns)] *)
Definition getCampaignStats (campaigns : list Campaign.t) : CampaignStats.t :=
  CampaignStats.mk (List.length campaigns)
    (countCampaigns DRAFT campaigns) (countCampaigns SENT campaigns)
    (countCampaigns SCHEDULED campaigns) (countCampaigns SUSPENDED campaigns)
    (countCampaigns RUNNING campaigns) (countCampaigns FAILED campaigns).

End CampaignService.

(* ===================================================================== *)
(** * services/retryEngine.ts: class RetryEngine *)
(* ===================================================================== *)

Module RetryEngine.

Record RetryEngineConfig : Type := mkConfig {
  maxConcurrentRetries : Z;
  retryCheckIntervalMs : Z;
  enableLogging : bool
}.

(** The fields of an engine object. *)
Record Engine : Type := mkEngine {
  config : RetryEngineConfig;
  isRunning : bool;
  retryInterval : option nat      (* NodeJS.Timeout | null *)
}.

(** What [simulateCampaignExecution] resolves to; the source draws it at
    random, here it is given from outside. *)
Record Execution : Type := mkExecution {
  ex_success : bool;
  ex_errorCode : option string
}.

Inductive ResultMessage : Type :=
| ExecutedOnAttempt (n : Z)     (* `Campaign executed successfully on attempt ${n}` *)
| Decided (r : Reason)          (* retryDecision.reason *)
| RetryExhausted (r : Reason)   (* `Retry exhausted: ${reason}` *)
| UnknownError                  (* 'Campaign execution failed with unknown error' *)
| ExecutionError (e : JsError). (* `Retry execution error: ${error}` *)

Record RetryExecutionResult : Type := mkResult {
  res_campaignId : string;
  res_success : bool;
  res_errorCode : option string;
  res_message : ResultMessage;
  res_nextRetryAt : option DateString
}.

(** [new RetryEngine(config)], with the default configuration. *)
Definition defaultConfig : RetryEngineConfig := mkConfig 10 60000 true.
Definition newEngine (c : RetryEngineConfig) : Engine := mkEngine c false None.

(** [this.log(message)] *)
Definition log (this : Engine) (message : EngineMessage) : M unit :=
  if enableLogging (config this) then
    now <- newDateNow ;;
    iso <- toISOString now ;;
    console_log (EngineLine iso message)
  else ret tt.

(** [start()]: the engine object after the call. *)
Definition start (this : Engine) : M Engine :=
  if isRunning this then
    log this MsgAlreadyRunning ;;;
    ret this
  else
    let this := mkEngine (config this) true (retryInterval this) in
    log this MsgStarting ;;;
    h <- setInterval ;;
    ret (mkEngine (config this) (isRunning this) (Some h)).

(** [stop()] *)
Definition stop (this : Engine) : M Engine :=
  if negb (isRunning this) then
    log this MsgNotRunning ;;;
    ret this
  else
    let this := mkEngine (config this) false (retryInterval this) in
    log this MsgStopping ;;;
    match retryInterval this with
    | Some h =>
      clearInterval h ;;;
      ret (mkEngine (config this) (isRunning this) None)
    | None => ret this
    end.

(** [a.slice(0, end)] for an integer [end]: a negative [end] counts from
    the end of the array. *)
Definition slice0 {A : Type} (end_ : Z) (a : list A) : list A :=
  let len := Z.of_nat (List.length a) in
  let final := if end_ <? 0 then Z.max (len + end_) 0 else Z.min end_ len in
  firstn (Z.to_nat final) a.

Fixpoint forEach {A : Type} (f : A -> M unit) (l : list A) : M unit :=
  match l with
  | [] => ret tt
  | x :: rest => f x ;;; forEach f rest
  end.

(** [executeCampaignRetry], up to [await this.simulateCampaignExecution]:
    the call logs and then waits for the execution to resolve. *)
Definition executeCampaignRetry_call (this : Engine)
    (entry : string * CampaignRetryState) : M unit :=
  log this (MsgExecuting (fst entry)).

(** Truthiness of an optional error code. *)
Definition truthyCode (c : option string) : option string :=
  match c with
  | Some "" => None
  | _ => c
  end.

(** [const updatedState = CampaignService.getRetryState(campaignId);
    if (updatedState) { updatedState.nextAttemptAt = next; }]: an assignment
    to the state object that the map holds for the campaign. *)
Definition assignNextAttemptAt (campaignId : string) (next : DateString) : M unit :=
  updatedState <- CampaignService.getRetryState campaignId ;;
  match updatedState with
  | Some st =>
    states <- getStates ;;
    putStates (CampaignService.map_set campaignId
                 (CampaignService.with_nextAttemptAt (Some next) st) states)
  | None => ret tt
  end.

(** [executeCampaignRetry], from the point where the execution has
    resolved to [executionResult]; [retryState] is the object that the due
    list handed to the call.  The whole body stands in [try]/[catch]. *)
Definition executeCampaignRetry_resume (this : Engine) (campaignId : string)
    (retryState : CampaignRetryState) (executionResult : Execution)
  : M RetryExecutionResult :=
  try_catch
    (let attemptNumber := Z.of_nat (List.length (attempts retryState)) + 1 in
     now1 <- newDateNow ;;
     scheduledAt <- toISOString now1 ;;
     now2 <- newDateNow ;;
     executedAt <- toISOString now2 ;;
     let attempt :=
       mkRetryAttempt attemptNumber scheduledAt (ex_errorCode executionResult)
         (if ex_success executionResult then completed else failed)
         (Some executedAt) in
     CampaignService.updateRetryAttempt campaignId attempt ;;;
     if ex_success executionResult then
       log this (MsgExecuted campaignId attemptNumber) ;;;
       ret (mkResult campaignId true None (ExecutedOnAttempt attemptNumber) None)
     else
       match truthyCode (ex_errorCode executionResult) with
       | Some code =>
         retryDecision <- RetryService.processRetryAttempt campaignId code retryState ;;
         match (if shouldRetry retryDecision
                then truthy (decidedNextAttemptAt retryDecision) else None) with
         | Some next =>
           assignNextAttemptAt campaignId next ;;;
           log this (MsgScheduled campaignId next) ;;;
           ret (mkResult campaignId false (Some code)
                  (Decided (reason retryDecision)) (Some next))
         | None =>
           log this (MsgExhausted campaignId (reason retryDecision)) ;;;
           ret (mkResult campaignId false (Some code)
                  (RetryExhausted (reason retryDecision)) None)
         end
       | None => ret (mkResult campaignId false None UnknownError None)
       end)
    (fun error =>
       log this (MsgExecutionError campaignId error) ;;;
       ret (mkResult campaignId false None (ExecutionError error) None)).

(** [processRetries()], up to [await Promise.allSettled(retryPromises)]:
    the batch whose executions have been started. *)
Definition processRetries_call (this : Engine)
  : M (list (string * CampaignRetryState)) :=
  try_catch
    (campaignsForRetry <- CampaignService.getCampaignsForRetry ;;
     if (List.length campaignsForRetry =? 0)%nat then ret []
     else
       log this (MsgProcessing (List.length campaignsForRetry)) ;;;
       let batchSize :=
         Z.min (Z.of_nat (List.length campaignsForRetry))
               (maxConcurrentRetries (config this)) in
       let batch := slice0 batchSize campaignsForRetry in
       forEach (executeCampaignRetry_call this) batch ;;;
       ret batch)
    (fun error =>
       log this (MsgProcessingError error) ;;;
       ret []).

(** ** The engine in the event loop

    The executions that [processRetries] starts resolve later, each in a
    task of its own (the timers of [simulateCampaignExecution] have the same
    delay, so they resolve in the order in which they were started); the code
    after an [await] of one execution runs to its end before another task
    starts.  [inProgress] holds, oldest first, the calls of [processRetries]
    that wait at [Promise.allSettled], each with the entries of its batch
    whose execution has not resolved yet. *)
Record Scheduler : Type := mkScheduler {
  engine : Engine;
  inProgress : list (list (string * CampaignRetryState));
  world : World
}.

Inductive Event : Type :=
| CallStart                         (* engine.start() *)
| CallStop                          (* engine.stop() *)
| CallTrigger                       (* engine.triggerRetryProcessing() *)
| IntervalFires (h : nat)           (* the interval timer [h] is due *)
| ExecutionResolves (r : Execution). (* the oldest pending execution resolves *)

(** A call of [processRetries] enters [inProgress] when it has started
    executions to wait for. *)
Definition beginTick (s : Scheduler) : Scheduler :=
  match processRetries_call (engine s) (world s) with
  | (Returns [], w') => mkScheduler (engine s) (inProgress s) w'
  | (Returns batch, w') => mkScheduler (engine s) (inProgress s ++ [batch]) w'
  | (Throws _, w') => mkScheduler (engine s) (inProgress s) w'
  end.

(** After the last execution of a batch has resolved, [processRetries]
    goes on with [results.forEach]: it logs the rejected promises, and
    [executeCampaignRetry] rejects none.  The call then ends. *)
Definition settle (remaining : list (string * CampaignRetryState))
    (older : list (list (string * CampaignRetryState)))
  : list (list (string * CampaignRetryState)) :=
  match remaining with
  | [] => older
  | _ => remaining :: older
  end.

Definition step (e : Event) (s : Scheduler) : Scheduler :=
  match e with
  | CallStart =>
    match start (engine s) (world s) with
    | (Returns this, w') => mkScheduler this (inProgress s) w'
    | (Throws _, w') => mkScheduler (engine s) (inProgress s) w'
    end
  | CallStop =>
    match stop (engine s) (world s) with
    | (Returns this, w') => mkScheduler this (inProgress s) w'
    | (Throws _, w') => mkScheduler (engine s) (inProgress s) w'
    end
  | CallTrigger =>
    (* throws 'Retry engine is not running' unless the engine runs *)
    if isRunning (engine s) then beginTick s else s
  | IntervalFires h =>
    if existsb (Nat.eqb h) (intervals (world s)) then beginTick s else s
  | ExecutionResolves r =>
    match inProgress s with
    | ((campaignId, retryState) :: remaining) :: older =>
      let w' := snd (executeCampaignRetry_resume (engine s) campaignId
                       retryState r (world s)) in
      mkScheduler (engine s) (settle remaining older) w'
    | _ => s
    end
  end.

Fixpoint run (es : list Event) (s : Scheduler) : Scheduler :=
  match es with
  | [] => s
  | e :: rest => run rest (step e s)
  end.

(** [validateRetryConfig(ttlDateTime, scheduledDateTime)] *)
Definition validateRetryConfig (ttlDateTime scheduledDateTime : DateString)
  : M Validation :=
  let errors := [] in
  let ttl := newDate ttlDateTime in
  let scheduled := newDate scheduledDateTime in
  now <- newDateNow ;;
  let errors := RetryService.push_if (isNaN_getTime ttl) "Invalid TTL datetime" errors in
  let errors := RetryService.push_if (isNaN_getTime scheduled)
      "Invalid scheduled datetime" errors in
  if (0 <? List.length errors)%nat then ret (mkValidation false errors)
  else
    let errors := RetryService.push_if (date_le ttl scheduled)
        "TTL must be after scheduled time" errors in
    maxTtl <- setDatePlus (copyDate scheduled) 7 ;;
    let errors := RetryService.push_if (date_gt ttl maxTtl)
        "TTL cannot be more than 7 days after scheduled time" errors in
    let errors := RetryService.push_if (date_le ttl now) "TTL must be in the future" errors in
    ret (mkValidation (List.length errors =? 0)%nat errors).

(** The literals [0.3], [0.5] and [0.7] of [simulateCampaignExecution]:
    the exact values of the doubles. *)
Definition double_0_3 : Q := 5404319552844595 # 18014398509481984.
Definition double_0_5 : Q := 1 # 2.
Definition double_0_7 : Q := 3152519739159347 # 4503599627370496.

(** [random < c] *)
Definition Qlt_bool (random c : Q) : bool := negb (Qle_bool c random).

(** [simulateCampaignExecution(campaignId)], once its timer has fired, for
    the value [random] that [Math.random()] draws: the execution and its
    message. *)
Definition simulateCampaignExecution (campaignId : string) (random : Q)
  : Execution * string :=
  if Qlt_bool random double_0_3 then
    (mkExecution true None, "Campaign executed successfully")
  else if Qlt_bool random double_0_5 then
    (mkExecution false (Some "131049"), "Frequency cap exceeded")
  else if Qlt_bool random double_0_7 then
    (mkExecution false (Some "130472"), "User in experiment group")
  else
    (mkExecution false (Some "132015"), "Template is paused").

(** The result of [getStatus]. *)
Record EngineStatus : Type := mkEngineStatus {
  status_isRunning : bool;
  status_config : RetryEngineConfig;
  pendingRetries : nat;
  retryStatistics : CampaignService.StatsObject
}.

(** [getStatus()] *)
Definition getStatus (this : Engine) : M EngineStatus :=
  due <- CampaignService.getCampaignsForRetry ;;
  let pendingRetries := List.length due in
  retryStatistics <- CampaignService.getRetryStatistics ;;
  ret (mkEngineStatus (isRunning this) (config this) pendingRetries retryStatistics).

(** [triggerRetryProcessing()], up to the point where [processRetries]
    waits for its executions. *)
Definition triggerRetryProcessing_call (this : Engine)
  : M (list (string * CampaignRetryState)) :=
  if negb (isRunning this) then throw (Error "Retry engine is not running")
  else processRetries_call this.

End RetryEngine.

(* ===================================================================== *)
(** * Notions used by the statements *)
(* ===================================================================== *)

(** The world after one more reading of the clock. *)
Definition tick (w : World) : World :=
  mkWorld (clock w) (S (reads w)) (console w) (campaignRetryStates w)
    (intervals w) (handles w) (zone w).

(** The instant [t] lies strictly after the date that the string [s]
    denotes.  No instant lies after an unparsable string: the comparison of
    the source is false there. *)
Definition isAfter (t : Z) (s : DateString) : Prop :=
  exists d, s = Instant d /\ d < t.

(** The clock shows [t] at every reading from now on: no time passes
    during the calls that follow. *)
Definition frozenAt (t : Z) (w : World) : Prop :=
  forall n, (reads w <= n)%nat -> clock w n = t.

(** The offset of the zone never changes. *)
Definition fixedOffset (z : TimeZone) : Prop :=
  exists o, (forall t, offsetAt z t = o) /\ (forall t, offsetOfLocal z t = o).

(** The time value lies in the range of [Date]. *)
Definition inRange (t : Z) : Prop := Z.abs t <= maxTimeValue.

(** Moving the instant [t] by any interval of the policies stays in the
    range of [Date]. *)
Definition shiftable (z : TimeZone) (t : Z) : Prop :=
  forall h, In h [12; 24; 48] -> plusHours z (Some t) (Some h) <> None.

(** The deadline of the state, when one is set, lies strictly before [t]. *)
Definition ttlPassed (t : Z) (s : CampaignRetryState) : bool :=
  match truthy (ttlDateTime (retryConfig s)) with
  | Some ttl => date_gt (Some t) (newDate ttl)
  | None => false
  end.

(** [nextAttemptAt] is set and not after [t]. *)
Definition nextAttemptDue (t : Z) (s : CampaignRetryState) : bool :=
  match truthy (nextAttemptAt s) with
  | Some next => date_ge (Some t) (newDate next)
  | None => false
  end.

(** Eligibility of a stored entry at the instant [t]: retry enabled, not
    marked expired, deadline (when set) not passed, next attempt due. *)
Definition eligible (t : Z) (e : string * CampaignRetryState) : bool :=
  enabled (retryConfig (snd e)) && negb (isExpired (snd e))
  && negb (ttlPassed t (snd e)) && nextAttemptDue t (snd e).

(** The entries on which a scan at [t] sets [isExpired]: enabled, not yet
    marked expired, deadline passed. *)
Definition newlyExpired (t : Z) (e : string * CampaignRetryState) : bool :=
  enabled (retryConfig (snd e)) && negb (isExpired (snd e)) && ttlPassed t (snd e).

(** The entry as a scan at [t] leaves it. *)
Definition markExpired (t : Z) (e : string * CampaignRetryState)
  : string * CampaignRetryState :=
  if newlyExpired t e then (fst e, CampaignService.with_isExpired true (snd e)) else e.

(** The computation [m] leaves the component [f] of the world as it is,
    whether it returns or throws. *)
Definition preserves {X A : Type} (f : World -> X) (m : M A) : Prop :=
  forall w, f (snd (m w)) = f w.

(** The batch of a call of [processRetries] that found [due]. *)
Definition batchOf (this : RetryEngine.Engine)
    (due : list (string * CampaignRetryState)) : list (string * CampaignRetryState) :=
  RetryEngine.slice0
    (Z.min (Z.of_nat (List.length due))
           (RetryEngine.maxConcurrentRetries (RetryEngine.config this)))
    due.

(** The entry that a call of [processRetries] adds to the calls in
    progress: none when it started no execution. *)
Definition startedTick (batch : list (string * CampaignRetryState))
  : list (list (string * CampaignRetryState)) :=
  match batch with
  | [] => []
  | _ => [batch]
  end.

(** The message of a line that the engine has logged. *)
Definition messageOf (l : ConsoleLine) : option EngineMessage :=
  match l with
  | EngineLine _ m => Some m
  | TemplateCheck _ => None
  end.

(** The messages of a call of [processRetries] that found [due], up to the
    point where it waits for its executions: with logging enabled and a
    campaign due, 'Processing N campaigns for retry' and one 'Executing retry
    for campaign' for each campaign of the batch. *)
Definition tickMessages (this : RetryEngine.Engine)
    (due : list (string * CampaignRetryState)) : list EngineMessage :=
  if RetryEngine.enableLogging (RetryEngine.config this)
     && negb (List.length due =? 0)%nat
  then MsgProcessing (List.length due)
       :: map (fun e => MsgExecuting (fst e)) (batchOf this due)
  else [].

(** The engine's interval timer is the only live timer, and an engine that
    does not run holds none. *)
Definition oneTimer (s : RetryEngine.Scheduler) : Prop :=
  intervals (RetryEngine.world s)
  = match RetryEngine.retryInterval (RetryEngine.engine s) with
    | Some h => [h]
    | None => []
    end /\
  (RetryEngine.isRunning (RetryEngine.engine s) = false ->
   RetryEngine.retryInterval (RetryEngine.engine s) = None).

(** The computation [m] takes the store along the relation [R]. *)
Definition relates {A : Type} (R : RetryStates -> RetryStates -> Prop) (m : M A)
  : Prop :=
  forall w, R (campaignRetryStates w) (campaignRetryStates (snd (m w))).

(** Between the stores [s] and [s'] only the entry of [id] has changed, and
    its attempts are the same. *)
Definition touchesOnly (id : string) (s s' : RetryStates) : Prop :=
  (forall other, other <> id ->
                 CampaignService.map_get other s' = CampaignService.map_get other s) /\
  (forall st0, CampaignService.map_get id s = Some st0 ->
               exists st', CampaignService.map_get id s' = Some st' /\
                           attempts st' = attempts st0).

(** Between the stores [s] and [s'] only the entry of [id] has changed, and
    it has one attempt more. *)
Definition recordsAttempt (id : string) (s s' : RetryStates) : Prop :=
  (forall other, other <> id ->
                 CampaignService.map_get other s' = CampaignService.map_get other s) /\
  (forall st0, CampaignService.map_get id s = Some st0 ->
               exists st' a, CampaignService.map_get id s' = Some st' /\
                             attempts st' = attempts st0 ++ [a]).

(** ** Sample data for the concrete runs *)

(** A world whose clock stands at [t], with the given retry states. *)
Definition worldAt (t : Z) (states : RetryStates) : World :=
  mkWorld (fun _ => t) 0 [] states [] 0 utc.

(** The same in the zone [z]. *)
Definition worldIn (z : TimeZone) (t : Z) (states : RetryStates) : World :=
  mkWorld (fun _ => t) 0 [] states [] 0 z.

(** Eastern time in the spring of 2025: five hours behind UTC until
    2025-03-09T07:00Z (2 o'clock at night), four hours behind from then on. *)
Definition easternTime : TimeZone :=
  clocksForward (483751 * msPerHour) (-5 * msPerHour) (-4 * msPerHour).

(** Noon of 8 March 2025 in Eastern time (17:00Z), and half past twelve
    of the next day (16:30Z): 23 hours and 30 minutes later. *)
Definition saturdayNoon : Z := 483737 * msPerHour.
Definition sundayHalfPastNoon : Z := saturdayNoon + 23 * msPerHour + 30 * 60000.

(** A retry window that is enabled, with deadline [ttl]. *)
Definition windowUntil (ttl : DateString) : RetryTtlConfig :=
  mkRetryTtlConfig true (Some ttl) None true true true.

(** [n] hours, in milliseconds. *)
Definition hours (n : Z) : Z := n * msPerHour.

(** A campaign that failed once before, whose recorded attempt carries
    [executedAt: 'yesterday']: [updateRetryState] has copied the string to
    [lastAttemptAt]. *)
Definition stateWithBadLastAttempt : CampaignRetryState :=
  mkCampaignRetryState "c1" (windowUntil (Instant (hours 100)))
    [mkRetryAttempt 1 (Instant 0) (Some "131049") failed
       (Some (Unparsable "yesterday"))]
    (Some (Unparsable "yesterday")) None false.

(** A campaign with the given id that is due from the instant 0 on, with
    its deadline at 100 hours. *)
Definition dueCampaign (id : string) : string * CampaignRetryState :=
  (id, mkCampaignRetryState id (windowUntil (Instant (hours 100))) []
         None (Some (Instant 0)) false).

(** An engine that checks every 50 ms, not started yet, one hour after the
    campaign "c1" became due; the clock moves on by a millisecond at each
    reading. *)
Definition overlapStart : RetryEngine.Scheduler :=
  RetryEngine.mkScheduler
    (RetryEngine.newEngine (RetryEngine.mkConfig 10 50 true)) []
    (mkWorld (fun n => hours 1 + Z.of_nat n) 0 [] [dueCampaign "c1"] [] 0 utc).

(** A running engine with [maxConcurrentRetries = 2] and its timer, and
    five campaigns due. *)
Definition fiveDue : RetryEngine.Scheduler :=
  RetryEngine.mkScheduler
    (RetryEngine.mkEngine (RetryEngine.mkConfig 2 60000 true) true (Some 0%nat)) []
    (mkWorld (fun _ => hours 1) 0 []
       (map dueCampaign ["c1"; "c2"; "c3"; "c4"; "c5"]) [0%nat] 1 utc).

(** What an execution can resolve to. *)
Definition succeeded : RetryEngine.Execution := RetryEngine.mkExecution true None.
Definition failedWith (code : string) : RetryEngine.Execution :=
  RetryEngine.mkExecution false (Some code).

(** A store with one entry of each kind for the scan at 2 hours: retry
    disabled; marked expired; deadline passed an hour ago; due; next attempt
    an hour ahead. *)
Definition scannedStates : RetryStates :=
  [ ("off", mkCampaignRetryState "off"
              (mkRetryTtlConfig false (Some (Instant (hours 100))) None true true true)
              [] None (Some (Instant 0)) false);
    ("old", mkCampaignRetryState "old" (windowUntil (Instant (hours 100)))
              [] None (Some (Instant 0)) true);
    ("late", mkCampaignRetryState "late" (windowUntil (Instant (hours 1)))
               [] None (Some (Instant 0)) false);
    dueCampaign "due";
    ("soon", mkCampaignRetryState "soon" (windowUntil (Instant (hours 100)))
               [] None (Some (Instant (hours 3))) false) ].

(** A campaign whose retry is switched off and whose deadline, at 1 hour,
    has not been marked as passed. *)
Definition disabledLate : string * CampaignRetryState :=
  ("off", mkCampaignRetryState "off"
            (mkRetryTtlConfig false (Some (Instant (hours 1))) None true true true)
            [] None (Some (Instant 0)) false).

(** A failed attempt that carries no [executedAt]. *)
Definition attemptWithoutExecutedAt : RetryAttempt :=
  mkRetryAttempt 1 (Instant (hours 1)) (Some "131049") failed None.

(** A campaign whose delivery failed with 'Template paused'. *)
Definition pausedTemplateState : CampaignRetryState :=
  mkCampaignRetryState "c1" (windowUntil (Instant (hours 100)))
    [] (Some (Instant 0)) None false.

(** ** Notions of the further properties *)

(** From [w] to [w'] the clock is the same and no reading is taken back. *)
Definition later (w w' : World) : Prop :=
  clock w' = clock w /\ (reads w <= reads w')%nat.

(** The computation [m] only reads the clock. *)
Definition advances {A : Type} (m : M A) : Prop :=
  forall w, later w (snd (m w)).

(** The computation [m] returns, whatever the world. *)
Definition returns {A : Type} (m : M A) : Prop :=
  forall w, exists a w', m w = (Returns a, w').

(** The deadline of the configuration, when one is set, lies strictly
    before [t]. *)
Definition configExpired (t : Z) (c : RetryTtlConfig) : bool :=
  match truthy (ttlDateTime c) with
  | Some ttl => date_gt (Some t) (newDate ttl)
  | None => false
  end.

(** The instant [t] is not before, and not after, the date [d]; nothing
    is before or after an invalid date. *)
Definition notBefore (t : Z) (d : Date) : Prop := forall x, d = Some x -> x <= t.
Definition notAfter (t : Z) (d : Date) : Prop := forall x, d = Some x -> t <= x.

(** The window that [validateUnifiedTtl] accepts in the zone [z] at the
    time [now]: both strings parse, the deadline is not before the scheduled
    time moved by one day of local time, not after the scheduled time moved
    by 28 days of local time, and in the future. *)
Definition unifiedWindow (z : TimeZone) (now : Z) (ttl scheduled : DateString)
  : Prop :=
  exists t s, ttl = Instant t /\ scheduled = Instant s /\
              notBefore t (plusDays z (Some s) 1) /\
              notAfter t (plusDays z (Some s) 28) /\
              now < t.

(** What the statistics hold for the state [st]: a record with its number of
    attempts and its flag. *)
Definition recordOf (st : CampaignRetryState) (r : option RetryService.RetryStats)
  : Prop :=
  exists s, r = Some s /\
            RetryService.totalAttempts s = List.length (attempts st) /\
            RetryService.stats_isExpired s = isExpired st.

(** The entry [e'] is the entry [e] as a scan may leave it: as it was, or
    with [isExpired] set. *)
Definition marked (e e' : string * CampaignRetryState) : Prop :=
  e' = e \/ e' = (fst e, CampaignService.with_isExpired true (snd e)).

(** The entry [e'] continues the entry [e]: same key, same campaign, same
    configuration, and the attempts of [e] followed by further ones. *)
Definition continues (e e' : string * CampaignRetryState) : Prop :=
  fst e' = fst e /\
  campaignId (snd e') = campaignId (snd e) /\
  retryConfig (snd e') = retryConfig (snd e) /\
  exists more, attempts (snd e') = attempts (snd e) ++ more.

(** The store [s'] has the entries of [s], in the same order, each
    continued. *)
Definition grows (s s' : RetryStates) : Prop := Forall2 continues s s'.

(** The keys of the store are distinct, and every state is stored under
    the id of its campaign. *)
Definition wellKeyed (s : RetryStates) : Prop :=
  NoDup (map fst s) /\ Forall (fun e => campaignId (snd e) = fst e) s.

(** No state of the store has a next attempt. *)
Definition unscheduled (s : RetryStates) : Prop :=
  Forall (fun e => nextAttemptAt (snd e) = None) s.

(** ** Calls from outside and events of the engine, in one sequence *)

Inductive Action : Type :=
| SetRetryConfig (campaignId : string) (retryConfig : RetryTtlConfig)
| UpdateRetryAttempt (campaignId : string) (attempt : RetryAttempt)
| IsRetryActive (campaignId : string)
| GetCampaignsForRetry
| GetRetryStatistics
| GetStatus
| EngineEvent (e : RetryEngine.Event).

(** A synchronous call runs to its end in the current world; what it
    returns or throws goes to the caller. *)
Definition call {A : Type} (m : M A) (s : RetryEngine.Scheduler)
  : RetryEngine.Scheduler :=
  RetryEngine.mkScheduler (RetryEngine.engine s) (RetryEngine.inProgress s)
    (snd (m (RetryEngine.world s))).

Definition perform (a : Action) (s : RetryEngine.Scheduler) : RetryEngine.Scheduler :=
  match a with
  | SetRetryConfig id c => call (CampaignService.setRetryConfig id c) s
  | UpdateRetryAttempt id attempt => call (CampaignService.updateRetryAttempt id attempt) s
  | IsRetryActive id => call (CampaignService.isRetryActive id) s
  | GetCampaignsForRetry => call CampaignService.getCampaignsForRetry s
  | GetRetryStatistics => call CampaignService.getRetryStatistics s
  | GetStatus => call (RetryEngine.getStatus (RetryEngine.engine s)) s
  | EngineEvent e => RetryEngine.step e s
  end.

Fixpoint performAll (actions : list Action) (s : RetryEngine.Scheduler)
  : RetryEngine.Scheduler :=
  match actions with
  | [] => s
  | a :: rest => performAll rest (perform a s)
  end.

(** The attempt that [executeCampaignRetry] records when the execution of
    a campaign whose due-list state is [st] resolves to [r] in the world
    [w]: two readings of the clock give [scheduledAt] and [executedAt]. *)
Definition recordedAttempt (st : CampaignRetryState) (r : RetryEngine.Execution)
    (w : World) : RetryAttempt :=
  mkRetryAttempt (Z.of_nat (List.length (attempts st)) + 1)
    (Instant (currentTime w)) (RetryEngine.ex_errorCode r)
    (if RetryEngine.ex_success r then completed else failed)
    (Some (Instant (currentTime (tick w)))).

(** The world in which [executeCampaignRetry] goes on after it has
    recorded the attempt. *)
Definition afterRecording (id : string) (st : CampaignRetryState)
    (r : RetryEngine.Execution) (w : World) : World :=
  snd (CampaignService.updateRetryAttempt id (recordedAttempt st r w) (tick (tick w))).

(** The next attempt that [executeCampaignRetry] assigns, if any: the
    instant of a decision to retry after a failed execution with an error
    code. *)
Definition rescheduled (id : string) (st : CampaignRetryState)
    (r : RetryEngine.Execution) (w : World) : option DateString :=
  if RetryEngine.ex_success r then None
  else match RetryEngine.truthyCode (RetryEngine.ex_errorCode r) with
       | None => None
       | Some code =>
         match fst (RetryService.processRetryAttempt id code st
                      (afterRecording id st r w)) with
         | Returns d => if shouldRetry d then truthy (decidedNextAttemptAt d) else None
         | Throws _ => None
         end
       end.

(** ** Sample data for the further runs *)

(** A campaign with retry enabled and no deadline, due from 0 on. *)
Definition withoutDeadline : string * CampaignRetryState :=
  ("nd", mkCampaignRetryState "nd" (mkRetryTtlConfig true None None true true true)
           [] None (Some (Instant 0)) false).

(** A campaign that has used the three intervals of its policy: three
    failed attempts, the last one at 40 hours, the next attempt due from 41
    hours on. *)
Definition exhaustedCampaign : string * CampaignRetryState :=
  ("c1", mkCampaignRetryState "c1" (windowUntil (Instant (hours 100)))
           [attemptWithoutExecutedAt; attemptWithoutExecutedAt; attemptWithoutExecutedAt]
           (Some (Instant (hours 40))) (Some (Instant (hours 41))) false).

(** A campaign after one failed attempt at 0, its next attempt due from 12
    hours on. *)
Definition onceFailed : string * CampaignRetryState :=
  ("c1", mkCampaignRetryState "c1" (windowUntil (Instant (hours 100)))
           [attemptWithoutExecutedAt] (Some (Instant 0)) (Some (Instant (hours 12)))
           false).

(** A new engine over the empty store, at time 0. *)
Definition freshScheduler : RetryEngine.Scheduler :=
  RetryEngine.mkScheduler (RetryEngine.newEngine RetryEngine.defaultConfig) []
    (worldAt 0 []).

(** A campaign is configured, the engine started, an attempt reported
    from outside; then the timer fires, the status is read and a tick is
    triggered by hand. *)
Definition sampleActions : list Action :=
  [ SetRetryConfig "c1" (windowUntil (Instant (hours 100)));
    EngineEvent RetryEngine.CallStart;
    UpdateRetryAttempt "c1" attemptWithoutExecutedAt;
    EngineEvent (RetryEngine.IntervalFires 0);
    GetStatus;
    EngineEvent RetryEngine.CallTrigger ].

(* ===================================================================== *)
(** * RetryService: expiry and the next attempt *)
(* ===================================================================== *)

Lemma date_gt_isAfter (t : Z) (s : DateString) :
  date_gt (Some t) (newDate s) = true <-> isAfter t s.
Proof.
  unfold isAfter; destruct s as [d|u]; simpl.
  - rewrite Z.ltb_lt; split.
    + intros H; exists d; auto.
    + intros (d' & E & H); inversion E; subst; auto.
  - split; [discriminate | intros (d' & E & _); discriminate].
Qed.

Lemma date_gt_not_isAfter (t : Z) (s : DateString) :
  date_gt (Some t) (newDate s) = false <-> ~ isAfter t s.
Proof.
  rewrite <- date_gt_isAfter. destruct (date_gt _ _); split; congruence.
Qed.

Lemma isRetryTtlExpired_run (ttl : DateString) (w : World) :
  RetryService.isRetryTtlExpired ttl w
  = (Returns (date_gt (Some (currentTime w)) (newDate ttl)), tick w).
Proof. reflexivity. Qed.

(** The policy of '131049': 12, 24 and 48 hours. *)
Lemma policy_131049 :
  DEFAULT_RETRY_POLICIES "131049"
  = Some (mkRetryPolicy "131049" "Frequency cap / healthy ecosystem" [12; 24; 48] false).
Proof. reflexivity. Qed.

(** ** Time zones and the range of dates *)

Lemma TimeClip_inRange (t : Z) : inRange t -> TimeClip t = Some t.
Proof.
  unfold inRange, TimeClip. intros H.
  destruct (Z.leb_spec (Z.abs t) maxTimeValue); [reflexivity|lia].
Qed.

Lemma TimeClip_Some (t c : Z) : TimeClip t = Some c -> c = t /\ inRange t.
Proof.
  unfold inRange, TimeClip.
  destruct (Z.leb_spec (Z.abs t) maxTimeValue); [|discriminate].
  intros E; inversion E; subst. split; [reflexivity|assumption].
Qed.

Lemma plusHours_fixed (z : TimeZone) (t h : Z) :
  fixedOffset z -> plusHours z (Some t) (Some h) = TimeClip (t + h * msPerHour).
Proof.
  intros (o & Ha & Hl). unfold plusHours, UTC, LocalTime. rewrite Ha, Hl.
  f_equal. lia.
Qed.

Lemma plusDays_fixed (z : TimeZone) (t n : Z) :
  fixedOffset z -> plusDays z (Some t) n = TimeClip (t + n * msPerDay).
Proof.
  intros (o & Ha & Hl). unfold plusDays, UTC, LocalTime. rewrite Ha, Hl.
  f_equal. lia.
Qed.

Lemma plusHours_fixed_Some (z : TimeZone) (t h c : Z) :
  fixedOffset z -> plusHours z (Some t) (Some h) = Some c -> c = t + h * msPerHour.
Proof.
  intros Hz. rewrite plusHours_fixed by exact Hz. intros E.
  apply TimeClip_Some in E. tauto.
Qed.

Lemma fixedZone_fixedOffset (o : Z) : fixedOffset (fixedZone o).
Proof. exists o. split; reflexivity. Qed.

(** ** Numbers as indices *)

Lemma asIndex_ofNat (n : nat) : asIndex (ofNat n) = Some n.
Proof.
  unfold asIndex, ofNat.
  rewrite Qcanon.Qred_identity by (cbn; apply Z.gcd_1_r).
  cbn [inject_Z Qden Qnum]. rewrite Pos.eqb_refl.
  destruct (Z.leb_spec 0 (Z.of_nat n)); [|lia].
  cbn [andb]. rewrite Nat2Z.id. reflexivity.
Qed.

Lemma number_ge_ofNat {A : Type} (n : nat) (a : list A) :
  number_ge (ofNat n) a = (List.length a <=? n)%nat.
Proof.
  unfold number_ge, ofNat, Qle_bool. cbn [inject_Z Qden Qnum].
  rewrite !Z.mul_1_r.
  destruct (Z.leb_spec (Z.of_nat (List.length a)) (Z.of_nat n)),
    (Nat.leb_spec (List.length a) n); try reflexivity; lia.
Qed.

Lemma elementAt_ofNat {A : Type} (a : list A) (n : nat) :
  elementAt a (ofNat n) = nth_error a n.
Proof. unfold elementAt. rewrite asIndex_ofNat. reflexivity. Qed.

Lemma elementAt_Some {A : Type} (a : list A) (x : JsNumber) (v : A) :
  elementAt a x = Some v -> exists i, asIndex x = Some i /\ nth_error a i = Some v.
Proof.
  unfold elementAt. destruct (asIndex x) as [i|]; [|discriminate]. eauto.
Qed.

(** ** The policies *)

Lemma indexPolicies_Policy (code : string) (p : RetryPolicy) :
  indexPolicies code = Policy p <-> DEFAULT_RETRY_POLICIES code = Some p.
Proof.
  unfold indexPolicies. destruct (DEFAULT_RETRY_POLICIES code) as [q|].
  - split; intros E; inversion E; reflexivity.
  - destruct (existsb _ _); split; discriminate.
Qed.

Lemma indexPolicies_Absent (code : string) :
  indexPolicies code = Absent ->
  DEFAULT_RETRY_POLICIES code = None /\ ~ In code objectPrototypeKeys.
Proof.
  unfold indexPolicies. destruct (DEFAULT_RETRY_POLICIES code) as [q|]; [discriminate|].
  destruct (existsb (String.eqb code) objectPrototypeKeys) eqn:E; [discriminate|].
  intros _. split; [reflexivity|]. intros Hin.
  assert (H : existsb (String.eqb code) objectPrototypeKeys = true).
  { apply existsb_exists. exists code. split; [exact Hin|apply String.eqb_refl]. }
  congruence.
Qed.

(** ** [calculateNextRetryAttempt] *)

Lemma calculateNextRetryAttempt_run (errorCode : string) (currentAttempt : JsNumber)
    (lastAttemptAt ttl : DateString) (w : World) :
  RetryService.calculateNextRetryAttempt errorCode currentAttempt lastAttemptAt ttl w
  = (if date_gt (Some (currentTime w)) (newDate ttl)
     then Returns (mkNextAttempt None false)
     else match indexPolicies errorCode with
          | Absent => Returns (mkNextAttempt None false)
          | Inherited =>
            Throws (TypeError "Cannot read properties of undefined (reading 'length')")
          | Policy p =>
            if number_ge currentAttempt (retryIntervals p)
            then Returns (mkNextAttempt None false)
            else
              let nextAttempt :=
                plusHours (zone w) (newDate lastAttemptAt)
                  (elementAt (retryIntervals p) currentAttempt) in
              if date_gt nextAttempt (newDate ttl)
              then Returns (mkNextAttempt None false)
              else match nextAttempt with
                   | Some t => Returns (mkNextAttempt (Some (Instant t)) true)
                   | None => Throws (RangeError "Invalid time value")
                   end
          end,
     tick w).
Proof.
  unfold RetryService.calculateNextRetryAttempt, bind.
  rewrite isRetryTtlExpired_run.
  destruct (date_gt (Some (currentTime w)) (newDate ttl)); [reflexivity|].
  destruct (indexPolicies errorCode) as [p| |]; [|reflexivity|reflexivity].
  destruct (number_ge currentAttempt (retryIntervals p)); [reflexivity|].
  unfold setHoursPlus, bind, timeZone, ret, copyDate.
  cbn [tick zone]. cbv zeta.
  destruct (date_gt (plusHours (zone w) (newDate lastAttemptAt)
                       (elementAt (retryIntervals p) currentAttempt)) (newDate ttl));
    [reflexivity|].
  destruct (plusHours (zone w) (newDate lastAttemptAt)
              (elementAt (retryIntervals p) currentAttempt)); reflexivity.
Qed.

(** With a count for [currentAttempt], as [processRetryAttempt] passes it. *)
Lemma calculateNextRetryAttempt_at (errorCode : string) (n : nat)
    (lastAttemptAt ttl : DateString) (w : World) (p : RetryPolicy) :
  DEFAULT_RETRY_POLICIES errorCode = Some p ->
  RetryService.calculateNextRetryAttempt errorCode (ofNat n) lastAttemptAt ttl w
  = (if date_gt (Some (currentTime w)) (newDate ttl)
     then Returns (mkNextAttempt None false)
     else match nth_error (retryIntervals p) n with
          | None => Returns (mkNextAttempt None false)
          | Some h =>
            let nextAttempt := plusHours (zone w) (newDate lastAttemptAt) (Some h) in
            if date_gt nextAttempt (newDate ttl)
            then Returns (mkNextAttempt None false)
            else match nextAttempt with
                 | Some t => Returns (mkNextAttempt (Some (Instant t)) true)
                 | None => Throws (RangeError "Invalid time value")
                 end
          end,
     tick w).
Proof.
  intros Hp. apply indexPolicies_Policy in Hp.
  rewrite calculateNextRetryAttempt_run, Hp, number_ge_ofNat, elementAt_ofNat.
  destruct (date_gt (Some (currentTime w)) (newDate ttl)); [reflexivity|].
  destruct (Nat.leb_spec (List.length (retryIntervals p)) n) as [Hge|Hlt].
  - apply nth_error_None in Hge. rewrite Hge. reflexivity.
  - destruct (nth_error (retryIntervals p) n) as [h|] eqn:E; [reflexivity|].
    apply nth_error_None in E. lia.
Qed.

(** The intervals of the policies: at most three, of 12, 24 or 48 hours. *)
Lemma policy_intervals (code : string) (p : RetryPolicy) (n : nat) (h : Z) :
  DEFAULT_RETRY_POLICIES code = Some p ->
  nth_error (retryIntervals p) n = Some h ->
  (n < 3)%nat /\ In h [12; 24; 48].
Proof.
  unfold DEFAULT_RETRY_POLICIES. intros Hp Hn.
  assert (Hlen : (n < List.length (retryIntervals p))%nat)
    by (apply nth_error_Some; congruence).
  destruct (code =? "131049")%string;
    [|destruct (code =? "130472")%string;
      [|destruct (code =? "132015")%string; [|discriminate]]];
    inversion Hp; subst p; cbn [retryIntervals List.length] in *;
    (split; [lia|]);
    destruct n as [|[|[|n]]]; cbn in Hn; inversion Hn; cbn; auto; lia.
Qed.

(** With a count and a last attempt that can be moved by the intervals,
    the call returns. *)
Lemma calculateNextRetryAttempt_returns (errorCode : string) (n : nat)
    (last : Z) (ttl : DateString) (w : World) :
  indexPolicies errorCode <> Inherited ->
  shiftable (zone w) last ->
  exists next,
    RetryService.calculateNextRetryAttempt errorCode (ofNat n) (Instant last) ttl w
    = (Returns next, tick w).
Proof.
  intros Hinh Hshift.
  destruct (DEFAULT_RETRY_POLICIES errorCode) as [p|] eqn:Hp.
  - rewrite (calculateNextRetryAttempt_at _ _ _ _ _ p Hp). cbn [newDate]. cbv zeta.
    destruct (date_gt (Some (currentTime w)) (newDate ttl)); [eexists; reflexivity|].
    destruct (nth_error (retryIntervals p) n) as [h|] eqn:Hn; [|eexists; reflexivity].
    destruct (policy_intervals _ _ _ _ Hp Hn) as [_ Hh].
    specialize (Hshift h Hh).
    destruct (plusHours (zone w) (Some last) (Some h)) as [c|]; [|congruence].
    destruct (date_gt (Some c) (newDate ttl)); eexists; reflexivity.
  - rewrite calculateNextRetryAttempt_run. unfold indexPolicies in *.
    rewrite Hp in *.
    destruct (date_gt (Some (currentTime w)) (newDate ttl)); [eexists; reflexivity|].
    destruct (existsb _ _); [congruence|eexists; reflexivity].
Qed.

(** C1 (the failing input).  For '131049', the first retry, a deadline
    100 hours ahead and a [lastAttemptAt] that does not parse as a date,
    [calculateNextRetryAttempt] does not return: it throws the RangeError of
    [toISOString] on an invalid date. *)
Theorem calculateNextRetryAttempt_throws_on_unparsable_lastAttemptAt :
  fst (RetryService.calculateNextRetryAttempt "131049" (ofNat 0)
         (Unparsable "yesterday") (Instant (hours 100)) (worldAt 0 []))
  = Throws (RangeError "Invalid time value").
Proof. reflexivity. Qed.

(* ===================================================================== *)
(** * The two validators *)
(* ===================================================================== *)

Ltac split_comparisons :=
  repeat match goal with
         | |- context [?a <? ?b] => destruct (Z.ltb_spec a b)
         | |- context [?a <=? ?b] => destruct (Z.leb_spec a b)
         end.

Lemma validateUnifiedTtl_returns (ttl scheduled : DateString) (w : World) :
  exists v, RetryService.validateUnifiedTtl ttl scheduled w = (Returns v, tick w).
Proof.
  unfold RetryService.validateUnifiedTtl, bind, newDateNow, ret, setDatePlus, timeZone.
  match goal with
  | |- context [if ?c then _ else _] => destruct c
  end; eexists; reflexivity.
Qed.

Lemma validateRetryConfig_returns (ttl scheduled : DateString) (w : World) :
  exists v, RetryEngine.validateRetryConfig ttl scheduled w = (Returns v, tick w).
Proof.
  unfold RetryEngine.validateRetryConfig, bind, newDateNow, ret, setDatePlus, timeZone.
  match goal with
  | |- context [if ?c then _ else _] => destruct c
  end; eexists; reflexivity.
Qed.

(** The two validators on parsable timestamps, check by check. *)
Lemma validateUnifiedTtl_instants (t s : Z) (w : World) :
  RetryService.validateUnifiedTtl (Instant t) (Instant s) w
  = (Returns
       (let errors :=
          RetryService.push_if (date_lt (Some t) (plusDays (zone w) (Some s) 1))
            "TTL must be at least 24 hours after scheduled time" [] in
        let errors :=
          RetryService.push_if (date_gt (Some t) (plusDays (zone w) (Some s) 28))
            "TTL cannot be more than 28 days after scheduled time" errors in
        let errors :=
          RetryService.push_if (t <=? currentTime w) "TTL must be in the future" errors in
        mkValidation (List.length errors =? 0)%nat errors),
     tick w).
Proof. reflexivity. Qed.

Lemma validateRetryConfig_instants (t s : Z) (w : World) :
  RetryEngine.validateRetryConfig (Instant t) (Instant s) w
  = (Returns
       (let errors :=
          RetryService.push_if (t <=? s) "TTL must be after scheduled time" [] in
        let errors :=
          RetryService.push_if (date_gt (Some t) (plusDays (zone w) (Some s) 7))
            "TTL cannot be more than 7 days after scheduled time" errors in
        let errors :=
          RetryService.push_if (t <=? currentTime w) "TTL must be in the future" errors in
        mkValidation (List.length errors =? 0)%nat errors),
     tick w).
Proof. reflexivity. Qed.

Lemma date_lt_notBefore (t : Z) (d : Date) : date_lt (Some t) d = false <-> notBefore t d.
Proof.
  unfold notBefore. destruct d as [x|]; cbn [date_lt].
  - rewrite Z.ltb_ge. split; [intros H y E; inversion E; subst; exact H|auto].
  - split; [intros _ y E; discriminate|reflexivity].
Qed.

Lemma date_gt_notAfter (t : Z) (d : Date) : date_gt (Some t) d = false <-> notAfter t d.
Proof.
  unfold notAfter. destruct d as [x|]; cbn [date_gt].
  - rewrite Z.ltb_ge. split; [intros H y E; inversion E; subst; exact H|auto].
  - split; [intros _ y E; discriminate|reflexivity].
Qed.

(** [validateUnifiedTtl] on any two strings: valid exactly inside the
    window of the zone, and then without errors; invalid with at least one
    error. *)
Lemma validateUnifiedTtl_window (ttl scheduled : DateString) (w : World) :
  exists v,
    RetryService.validateUnifiedTtl ttl scheduled w = (Returns v, tick w) /\
    (isValid v = true <-> unifiedWindow (zone w) (currentTime w) ttl scheduled) /\
    (isValid v = true -> errors v = []) /\
    (isValid v = false -> errors v <> []).
Proof.
  unfold unifiedWindow.
  destruct ttl as [t|u], scheduled as [s|u'].
  - rewrite validateUnifiedTtl_instants. cbv zeta. eexists. split; [reflexivity|].
    cbn [isValid errors].
    destruct (date_lt (Some t) (plusDays (zone w) (Some s) 1)) eqn:Hlo;
      destruct (date_gt (Some t) (plusDays (zone w) (Some s) 28)) eqn:Hhi;
      destruct (Z.leb_spec t (currentTime w)) as [Hnow|Hnow];
      cbn [RetryService.push_if app List.length Nat.eqb];
      (split; [split; [try discriminate
                      | intros (t' & s' & Et & Es & Hb & Ha & Hn);
                        inversion Et; inversion Es; subst t' s';
                        apply date_lt_notBefore in Hb; apply date_gt_notAfter in Ha;
                        try congruence; try lia]
              | split; [try reflexivity; discriminate
                       | try discriminate; reflexivity]]).
    intros _. exists t, s. split; [reflexivity|]. split; [reflexivity|].
    split; [apply date_lt_notBefore; exact Hlo|].
    split; [apply date_gt_notAfter; exact Hhi|exact Hnow].
  - eexists; split; [reflexivity|]. cbn.
    split; [split; [discriminate | intros (t' & s' & _ & Es & _); discriminate]|].
    split; discriminate.
  - eexists; split; [reflexivity|]. cbn.
    split; [split; [discriminate | intros (t' & s' & Et & _); discriminate]|].
    split; discriminate.
  - eexists; split; [reflexivity|]. cbn.
    split; [split; [discriminate | intros (t' & s' & Et & _); discriminate]|].
    split; discriminate.
Qed.

(** In a zone with a fixed offset, for a scheduled time that stays in the
    range of [Date] for 28 days, the window is 24 hours to 28 days. *)
Lemma unifiedWindow_fixed (z : TimeZone) (now t s : Z) :
  fixedOffset z -> inRange s -> inRange (s + 28 * msPerDay) ->
  (unifiedWindow z now (Instant t) (Instant s)
   <-> 24 * msPerHour <= t - s <= 28 * msPerDay /\ now < t).
Proof.
  intros Hz Hs Hs28. unfold unifiedWindow, notBefore, notAfter.
  assert (H1 : inRange (s + 1 * msPerDay))
    by (unfold inRange, maxTimeValue, msPerDay in *; lia).
  assert (E1 : plusDays z (Some s) 1 = Some (s + 1 * msPerDay))
    by (rewrite plusDays_fixed by exact Hz; apply TimeClip_inRange; exact H1).
  assert (E28 : plusDays z (Some s) 28 = Some (s + 28 * msPerDay))
    by (rewrite plusDays_fixed by exact Hz; apply TimeClip_inRange; exact Hs28).
  unfold msPerHour, msPerDay in *. split.
  - intros (t' & s' & Et & Es & Hlo & Hhi & Hn). inversion Et; inversion Es; subst.
    rewrite E1 in Hlo. rewrite E28 in Hhi.
    specialize (Hlo _ eq_refl). specialize (Hhi _ eq_refl). lia.
  - intros [Hgap Hn]. exists t, s. rewrite E1, E28. repeat split; auto;
      intros x E; inversion E; lia.
Qed.

(** C3 (the failing input).  In Eastern time, for a campaign scheduled
    at noon of 8 March 2025 and a deadline at half past twelve of 9 March,
    the night in which the clocks are set forward lies in between: the
    deadline is 23 hours and 30 minutes after the scheduled time, and
    [validateUnifiedTtl] returns valid, without an error: one day of local
    time after the scheduled time is 23 hours later. *)
Theorem validateUnifiedTtl_accepts_less_than_24_hours :
  sundayHalfPastNoon - saturdayNoon = 23 * msPerHour + 30 * 60000 /\
  fst (RetryService.validateUnifiedTtl (Instant sundayHalfPastNoon)
         (Instant saturdayNoon) (worldIn easternTime saturdayNoon []))
  = Returns (mkValidation true []) /\
  plusDays easternTime (Some saturdayNoon) 1 = Some (saturdayNoon + 23 * msPerHour).
Proof. repeat split; vm_compute; reflexivity. Qed.

(** C4 (the failing input).  On the same input the two validators agree:
    the gap is positive and under 24 hours, and both
    [RetryEngine.validateRetryConfig] and [RetryService.validateUnifiedTtl]
    return valid. *)
Theorem validators_agree_across_clock_change :
  0 < sundayHalfPastNoon - saturdayNoon < 24 * msPerHour /\
  fst (RetryEngine.validateRetryConfig (Instant sundayHalfPastNoon)
         (Instant saturdayNoon) (worldIn easternTime saturdayNoon []))
  = Returns (mkValidation true []) /\
  fst (RetryService.validateUnifiedTtl (Instant sundayHalfPastNoon)
         (Instant saturdayNoon) (worldIn easternTime saturdayNoon []))
  = Returns (mkValidation true []).
Proof.
  split; [vm_compute; split; reflexivity|].
  split; vm_compute; reflexivity.
Qed.

(** X24. Where the offset of the zone does not change and the scheduled
    time stays in the range of [Date] for 28 days, the validators disagree
    as follows.  On parsable timestamps with the TTL in the future,
    [RetryEngine.validateRetryConfig] rejects a gap over 7 days and accepts
    every positive gap up to 7 days (no minimum), while
    [RetryService.validateUnifiedTtl] rejects a gap over 28 days or under 24
    hours and accepts the gaps in between.  Hence a gap strictly between 7
    and 28 days is invalid for the former and valid for the latter, and a
    positive gap under 24 hours is valid for the former and invalid for the
    latter. *)
Theorem validators_disagree_in_a_fixed_zone :
  forall (scheduled ttl : Z) (w1 w2 : World),
    fixedOffset (zone w1) -> fixedOffset (zone w2) ->
    inRange scheduled -> inRange (scheduled + 28 * msPerDay) ->
    currentTime w1 < ttl -> currentTime w2 < ttl ->
    let gap := ttl - scheduled in
    let engine :=
      fst (RetryEngine.validateRetryConfig (Instant ttl) (Instant scheduled) w1) in
    let service :=
      fst (RetryService.validateUnifiedTtl (Instant ttl) (Instant scheduled) w2) in
    let valid := Returns (mkValidation true []) in
    let invalid (r : Outcome Validation) :=
      exists e es, r = Returns (mkValidation false (e :: es)) in
    (7 * msPerDay < gap -> invalid engine) /\
    (0 < gap <= 7 * msPerDay -> engine = valid) /\
    (28 * msPerDay < gap -> invalid service) /\
    (gap < 24 * msPerHour -> invalid service) /\
    (24 * msPerHour <= gap <= 28 * msPerDay -> service = valid) /\
    (7 * msPerDay < gap < 28 * msPerDay -> invalid engine /\ service = valid) /\
    (0 < gap < 24 * msPerHour -> engine = valid /\ invalid service).
Proof.
  intros scheduled ttl w1 w2 Hz1 Hz2 Hs Hs28 H1 H2 gap engine service valid invalid.
  subst gap engine service valid invalid. cbv beta.
  rewrite validateRetryConfig_instants, validateUnifiedTtl_instants. cbv zeta.
  rewrite !plusDays_fixed by assumption.
  assert (R1 : inRange (scheduled + 1 * msPerDay))
    by (unfold inRange, maxTimeValue, msPerDay in *; lia).
  assert (R7 : inRange (scheduled + 7 * msPerDay))
    by (unfold inRange, maxTimeValue, msPerDay in *; lia).
  rewrite (TimeClip_inRange _ R1), (TimeClip_inRange _ R7), (TimeClip_inRange _ Hs28).
  cbn [fst date_lt date_gt]. unfold RetryService.push_if, msPerDay, msPerHour in *.
  repeat split; intros; repeat split;
    split_comparisons; try lia; cbn; eauto.
Qed.

(* ===================================================================== *)
(** * RetryService.processRetryAttempt *)
(* ===================================================================== *)

Lemma isTemplateActive_run (templateId : string) (w : World) :
  exists w', RetryService.isTemplateActive templateId w = (Returns true, w').
Proof. eexists; reflexivity. Qed.

(** The check of the template never blocks, and reads no clock. *)
Lemma templateCheck_run (b : bool) (campaignId : string) (w : World) :
  exists w',
    (if b then isActive <- RetryService.isTemplateActive campaignId ;;
               ret (negb isActive)
     else ret false) w = (Returns false, w') /\
    clock w' = clock w /\ reads w' = reads w /\ zone w' = zone w.
Proof. destruct b; eexists; repeat split. Qed.

(** Retry disabled: the first answer of [processRetryAttempt]. *)
Lemma processRetryAttempt_disabled (campaignId errorCode : string)
    (retryState : CampaignRetryState) (w : World) :
  enabled (retryConfig retryState) = false ->
  RetryService.processRetryAttempt campaignId errorCode retryState w
  = (Returns (mkRetryDecision false None RetryDisabled), w).
Proof.
  intros H. unfold RetryService.processRetryAttempt. rewrite H. reflexivity.
Qed.

(** Retry enabled, deadline missing or passed: the answer is "expired". *)
Lemma processRetryAttempt_expired (campaignId errorCode : string)
    (retryState : CampaignRetryState) (w : World) :
  enabled (retryConfig retryState) = true ->
  (truthy (ttlDateTime (retryConfig retryState)) = None \/
   exists ttl, truthy (ttlDateTime (retryConfig retryState)) = Some ttl /\
               isAfter (currentTime w) ttl) ->
  fst (RetryService.processRetryAttempt campaignId errorCode retryState w)
  = Returns (mkRetryDecision false None TtlExpired).
Proof.
  intros He H. unfold RetryService.processRetryAttempt. rewrite He. cbn [negb].
  destruct H as [H | (ttl & H & Hafter)]; rewrite H; [reflexivity|].
  unfold bind. rewrite isRetryTtlExpired_run.
  apply date_gt_isAfter in Hafter. rewrite Hafter. reflexivity.
Qed.

(** Retry enabled, deadline ahead, nothing under the error code in the
    table of policies. *)
Lemma processRetryAttempt_no_policy (campaignId errorCode : string)
    (retryState : CampaignRetryState) (w : World) (ttl : DateString) :
  enabled (retryConfig retryState) = true ->
  truthy (ttlDateTime (retryConfig retryState)) = Some ttl ->
  ~ isAfter (currentTime w) ttl ->
  indexPolicies errorCode = Absent ->
  fst (RetryService.processRetryAttempt campaignId errorCode retryState w)
  = Returns (mkRetryDecision false None (NoPolicyFound errorCode)).
Proof.
  intros He Ht Hnow Hp. unfold RetryService.processRetryAttempt.
  rewrite He, Ht. cbn [negb]. unfold bind. rewrite isRetryTtlExpired_run.
  apply date_gt_not_isAfter in Hnow. rewrite Hnow.
  unfold RetryService.getRetryPolicy. rewrite Hp. reflexivity.
Qed.

(** [processRetryAttempt] past its first three answers: the decision in
    terms of the clock readings.  The deadline is compared with the second
    reading when [lastAttemptAt] is set, and with the third when the second
    reading stands in for it. *)
Lemma processRetryAttempt_run (campaignId errorCode : string)
    (retryState : CampaignRetryState) (w : World) (ttl : DateString) :
  enabled (retryConfig retryState) = true ->
  truthy (ttlDateTime (retryConfig retryState)) = Some ttl ->
  date_gt (Some (currentTime w)) (newDate ttl) = false ->
  indexPolicies errorCode <> Absent ->
  let second := clock w (S (reads w)) in
  let third := clock w (S (S (reads w))) in
  let base := match truthy (lastAttemptAt retryState) with
              | Some s => newDate s
              | None => Some second
              end in
  let checked := match truthy (lastAttemptAt retryState) with
                 | Some _ => second
                 | None => third
                 end in
  let refused := Returns (mkRetryDecision false None NoMoreAttempts) in
  fst (RetryService.processRetryAttempt campaignId errorCode retryState w)
  = if date_gt (Some checked) (newDate ttl) then refused
    else match indexPolicies errorCode with
         | Policy p =>
           match nth_error (retryIntervals p) (List.length (attempts retryState)) with
           | None => refused
           | Some h =>
             let next := plusHours (zone w) base (Some h) in
             if date_gt next (newDate ttl) then refused
             else match next with
                  | Some t =>
                    Returns (mkRetryDecision true (Some (Instant t))
                               (RetryScheduled (Some (Instant t))))
                  | None => Throws (RangeError "Invalid time value")
                  end
           end
         | _ => Throws (TypeError "Cannot read properties of undefined (reading 'length')")
         end.
Proof.
  intros He Ht Hnow Hp second third base checked refused.
  assert (Hcalc : forall last w0,
             zone w0 = zone w ->
             fst ((next <- RetryService.calculateNextRetryAttempt errorCode
                             (lengthOf (attempts retryState)) last ttl;;
                   ret (mkRetryDecision (na_shouldRetry next) (na_nextAttemptAt next)
                          (if na_shouldRetry next
                           then RetryScheduled (na_nextAttemptAt next)
                           else NoMoreAttempts))) w0)
             = if date_gt (Some (currentTime w0)) (newDate ttl) then refused
               else match indexPolicies errorCode with
                    | Policy p =>
                      match nth_error (retryIntervals p)
                              (List.length (attempts retryState)) with
                      | None => refused
                      | Some h =>
                        let next := plusHours (zone w) (newDate last) (Some h) in
                        if date_gt next (newDate ttl) then refused
                        else match next with
                             | Some t =>
                               Returns (mkRetryDecision true (Some (Instant t))
                                          (RetryScheduled (Some (Instant t))))
                             | None => Throws (RangeError "Invalid time value")
                             end
                      end
                    | _ => Throws (TypeError
                                     "Cannot read properties of undefined (reading 'length')")
                    end).
  { intros last w0 Hz. unfold bind. rewrite calculateNextRetryAttempt_run, Hz.
    unfold lengthOf. cbv zeta.
    destruct (date_gt (Some (currentTime w0)) (newDate ttl)); [reflexivity|].
    destruct (indexPolicies errorCode) as [p| |]; [|reflexivity|congruence].
    rewrite number_ge_ofNat, elementAt_ofNat.
    destruct (Nat.leb_spec (List.length (retryIntervals p))
                (List.length (attempts retryState))) as [Hge|Hlt].
    - apply nth_error_None in Hge. rewrite Hge. reflexivity.
    - destruct (nth_error (retryIntervals p) (List.length (attempts retryState)))
        as [h|] eqn:E; [|apply nth_error_None in E; lia].
      destruct (date_gt (plusHours (zone w) (newDate last) (Some h)) (newDate ttl));
        [reflexivity|].
      destruct (plusHours (zone w) (newDate last) (Some h)); reflexivity. }
  unfold RetryService.processRetryAttempt.
  rewrite He, Ht. cbn [negb]. unfold bind at 1. rewrite isRetryTtlExpired_run, Hnow.
  unfold RetryService.getRetryPolicy.
  assert (Hrest : forall policy,
             fst ((blocked <-
                     (if (errorCode =? "132015")%string && requiresTemplate policy
                      then isActive <- RetryService.isTemplateActive campaignId;;
                           ret (negb isActive)
                      else ret false);;
                   (if blocked then ret (mkRetryDecision false None TemplatePaused)
                    else
                      lastAttemptAt <-
                        match truthy (lastAttemptAt retryState) with
                        | Some s => ret s
                        | None => now <- newDateNow;; toISOString now
                        end;;
                      next <- RetryService.calculateNextRetryAttempt errorCode
                                (lengthOf (attempts retryState)) lastAttemptAt ttl;;
                      ret (mkRetryDecision (na_shouldRetry next) (na_nextAttemptAt next)
                             (if na_shouldRetry next
                              then RetryScheduled (na_nextAttemptAt next)
                              else NoMoreAttempts)))) (tick w))
             = if date_gt (Some checked) (newDate ttl) then refused
               else match indexPolicies errorCode with
                    | Policy p =>
                      match nth_error (retryIntervals p)
                              (List.length (attempts retryState)) with
                      | None => refused
                      | Some h =>
                        let next := plusHours (zone w) base (Some h) in
                        if date_gt next (newDate ttl) then refused
                        else match next with
                             | Some t =>
                               Returns (mkRetryDecision true (Some (Instant t))
                                          (RetryScheduled (Some (Instant t))))
                             | None => Throws (RangeError "Invalid time value")
                             end
                      end
                    | _ => Throws (TypeError
                                     "Cannot read properties of undefined (reading 'length')")
                    end).
  { intros policy. unfold bind at 1.
    destruct (templateCheck_run ((errorCode =? "132015")%string && requiresTemplate policy)
                campaignId (tick w)) as (w' & Hb & Hclock & Hreads & Hzone).
    rewrite Hb. unfold bind at 1. subst base checked.
    destruct (truthy (lastAttemptAt retryState)) as [s|].
    - cbn [ret]. rewrite Hcalc by exact Hzone.
      unfold currentTime. rewrite Hclock, Hreads. reflexivity.
    - cbn [bind newDateNow toISOString ret]. rewrite Hcalc by exact Hzone.
      unfold currentTime. cbn [clock reads newDate]. rewrite Hclock, Hreads. reflexivity. }
  destruct (indexPolicies errorCode) as [p| |] eqn:Hpol; [| |congruence].
  - etransitivity; [exact (Hrest (Policy p))|]. try rewrite Hpol. reflexivity.
  - etransitivity; [exact (Hrest Inherited)|]. try rewrite Hpol. reflexivity.
Qed.

(** With retry enabled on an error code that is not a property inherited
    from the prototype, and a base time that can be moved by the intervals,
    the call returns. *)
Lemma processRetryAttempt_returns (campaignId errorCode : string)
    (retryState : CampaignRetryState) (w : World) :
  indexPolicies errorCode <> Inherited ->
  (truthy (lastAttemptAt retryState) = None /\
   shiftable (zone w) (clock w (S (reads w))) \/
   exists t, lastAttemptAt retryState = Some (Instant t) /\ shiftable (zone w) t) ->
  exists d, fst (RetryService.processRetryAttempt campaignId errorCode retryState w)
            = Returns d.
Proof.
  intros Hinh Hlast.
  destruct (enabled (retryConfig retryState)) eqn:He.
  2:{ rewrite processRetryAttempt_disabled by exact He. eexists; reflexivity. }
  destruct (truthy (ttlDateTime (retryConfig retryState))) as [ttl|] eqn:Ht.
  2:{ rewrite processRetryAttempt_expired by auto. eexists; reflexivity. }
  destruct (date_gt (Some (currentTime w)) (newDate ttl)) eqn:Hnow.
  { rewrite processRetryAttempt_expired; [eexists; reflexivity|exact He|].
    right. exists ttl. split; [exact Ht|]. apply date_gt_isAfter; exact Hnow. }
  destruct (indexPolicies errorCode) as [p| |] eqn:Hpol; [|congruence|].
  2:{ rewrite (processRetryAttempt_no_policy _ _ _ _ ttl); auto;
        [eexists; reflexivity|apply date_gt_not_isAfter; exact Hnow]. }
  rewrite (processRetryAttempt_run _ _ _ _ ttl He Ht Hnow) by congruence.
  cbv zeta. rewrite Hpol.
  match goal with
  | |- exists d, (if ?c then _ else _) = _ => destruct c
  end; [eexists; reflexivity|].
  destruct (nth_error _ _) as [h|] eqn:Hn; [|eexists; reflexivity].
  apply indexPolicies_Policy in Hpol.
  destruct (policy_intervals _ _ _ _ Hpol Hn) as [_ Hh].
  assert (Hbase : exists c,
             plusHours (zone w)
               match truthy (lastAttemptAt retryState) with
               | Some s => newDate s
               | None => Some (clock w (S (reads w)))
               end (Some h) = Some c).
  { destruct Hlast as [[Hl Hs] | (t & Hl & Hs)]; rewrite Hl; cbn [truthy newDate];
      specialize (Hs h Hh);
      match goal with
      | |- exists c, ?x = Some c => destruct x as [c|]; [eauto|congruence]
      end. }
  destruct Hbase as [c Hc]. rewrite Hc.
  destruct (date_gt (Some c) (newDate ttl)); eexists; reflexivity.
Qed.

Ltac refused_case :=
  left; cbn; split; [reflexivity|split; [reflexivity|]];
  first [ left; reflexivity
        | right; left; reflexivity
        | right; right; left; split; [reflexivity|first [assumption|congruence]]
        | right; right; right; split; [reflexivity|congruence] ].

(** Every decision of [processRetryAttempt], as an equation: the first
    three answers, then [processRetryAttempt_run]. *)
Lemma processRetryAttempt_cases (campaignId errorCode : string)
    (retryState : CampaignRetryState) (w : World) (d : RetryDecision) :
  fst (RetryService.processRetryAttempt campaignId errorCode retryState w) = Returns d ->
  (shouldRetry d = false /\ decidedNextAttemptAt d = None /\
   (reason d = RetryDisabled \/ reason d = TtlExpired \/
    (reason d = NoPolicyFound errorCode /\ indexPolicies errorCode = Absent) \/
    (reason d = NoMoreAttempts /\ indexPolicies errorCode <> Absent))) \/
  (exists (ttl : DateString) (p : RetryPolicy) (h next : Z),
      enabled (retryConfig retryState) = true /\
      truthy (ttlDateTime (retryConfig retryState)) = Some ttl /\
      ~ isAfter (currentTime w) ttl /\
      DEFAULT_RETRY_POLICIES errorCode = Some p /\
      nth_error (retryIntervals p) (List.length (attempts retryState)) = Some h /\
      plusHours (zone w)
        (match truthy (lastAttemptAt retryState) with
         | Some s => newDate s
         | None => Some (clock w (S (reads w)))
         end) (Some h) = Some next /\
      ~ isAfter next ttl /\
      d = mkRetryDecision true (Some (Instant next))
            (RetryScheduled (Some (Instant next)))).
Proof.
  destruct (enabled (retryConfig retryState)) eqn:He.
  2:{ rewrite processRetryAttempt_disabled by exact He. intros E; inversion E.
      refused_case. }
  destruct (truthy (ttlDateTime (retryConfig retryState))) as [ttl|] eqn:Ht.
  2:{ rewrite processRetryAttempt_expired by auto. intros E; inversion E.
      refused_case. }
  destruct (date_gt (Some (currentTime w)) (newDate ttl)) eqn:Hnow.
  { rewrite processRetryAttempt_expired.
    - intros E; inversion E. refused_case.
    - exact He.
    - right. exists ttl. split; [exact Ht|]. apply date_gt_isAfter; exact Hnow. }
  destruct (indexPolicies errorCode) as [p| |] eqn:Hpol.
  3:{ rewrite (processRetryAttempt_no_policy _ _ _ _ ttl); auto;
        [|apply date_gt_not_isAfter; exact Hnow].
      intros E; inversion E. refused_case. }
  2:{ rewrite (processRetryAttempt_run _ _ _ _ ttl He Ht Hnow) by congruence.
      cbv zeta. rewrite Hpol.
      match goal with
      | |- (if ?c then _ else _) = _ -> _ => destruct c
      end; [intros E; inversion E; refused_case|discriminate]. }
  rewrite (processRetryAttempt_run _ _ _ _ ttl He Ht Hnow) by congruence.
  cbv zeta. rewrite Hpol.
  match goal with
  | |- (if ?c then _ else _) = _ -> _ => destruct c
  end; [intros E; inversion E; refused_case|].
  destruct (nth_error _ _) as [h|] eqn:Hn;
    [|intros E; inversion E; refused_case].
  destruct (date_gt (plusHours _ _ (Some h)) (newDate ttl)) eqn:Hnext;
    [intros E; inversion E; refused_case|].
  destruct (plusHours _ _ (Some h)) as [next|] eqn:Hplus; [|discriminate].
  intros E; inversion E. right. exists ttl, p, h, next.
  assert (Hnow' := proj1 (date_gt_not_isAfter _ _) Hnow).
  assert (Hnext' := proj1 (date_gt_not_isAfter _ _) Hnext).
  apply indexPolicies_Policy in Hpol.
  repeat (split; [first [reflexivity | assumption]|]).
  first [reflexivity | assumption].
Qed.

(** C5. On a state whose [lastAttemptAt] does not parse (with retry
    enabled, the deadline ahead, a policy for the error code and an interval
    left), [processRetryAttempt] does not return a decision: the promise is
    rejected with the RangeError of [toISOString] on an invalid date. *)
Theorem processRetryAttempt_throws_on_unparsable_lastAttemptAt :
  fst (RetryService.processRetryAttempt "c1" "131049" stateWithBadLastAttempt
         (worldAt 0 []))
  = Throws (RangeError "Invalid time value").
Proof. reflexivity. Qed.

(** C9. [isTemplateActive] answers [true] for every template, and no
    decision of [processRetryAttempt] carries the reason 'Template is still
    paused, retry blocked': the branch for a paused template is never
    taken. *)
Theorem template_paused_unreachable :
  (forall (templateId : string) (w : World),
      fst (RetryService.isTemplateActive templateId w) = Returns true) /\
  (forall (campaignId errorCode : string) (retryState : CampaignRetryState)
          (w : World) (d : RetryDecision),
      fst (RetryService.processRetryAttempt campaignId errorCode retryState w)
      = Returns d ->
      reason d <> TemplatePaused).
Proof.
  split; [reflexivity|].
  intros campaignId errorCode retryState w d E.
  destruct (processRetryAttempt_cases _ _ _ _ _ E)
    as [(_ & _ & [H|[H|[[H _]|[H _]]]]) | (ttl & p & h & next & _ & _ & _ & _ & _ & _ & _ & Hd)];
    try (rewrite H; discriminate).
  subst d. discriminate.
Qed.

(** X1. The answers of [processRetryAttempt] that come before the
    computation of the next attempt: "disabled" when retry is not enabled;
    with retry enabled, "expired" when the deadline is missing or has passed
    at the time of the call; with the deadline ahead, "no policy" when the
    error code is neither a key of [DEFAULT_RETRY_POLICIES] nor the name of
    a property that the object inherits from its prototype; each with
    [shouldRetry = false] and [nextAttemptAt = null].  For an inherited
    name such as 'toString' or '__proto__', with the deadline ahead at every
    reading of the clock, the call throws a TypeError.  And the call returns
    a decision when the error code is not such a name and the base time can
    be moved by each of the intervals to a valid date: the base time is
    [lastAttemptAt] when it parses, and the second reading of the clock when
    [lastAttemptAt] is absent. *)
Theorem processRetryAttempt_decisions :
  forall (campaignId errorCode : string) (retryState : CampaignRetryState) (w : World),
    let result :=
      fst (RetryService.processRetryAttempt campaignId errorCode retryState w) in
    let refused (r : Reason) := Returns (mkRetryDecision false None r) in
    let deadline := truthy (ttlDateTime (retryConfig retryState)) in
    (enabled (retryConfig retryState) = false -> result = refused RetryDisabled) /\
    (enabled (retryConfig retryState) = true -> deadline = None ->
     result = refused TtlExpired) /\
    (forall d, enabled (retryConfig retryState) = true -> deadline = Some d ->
               isAfter (currentTime w) d ->
               result = refused TtlExpired) /\
    (forall d, enabled (retryConfig retryState) = true -> deadline = Some d ->
               ~ isAfter (currentTime w) d ->
               indexPolicies errorCode = Absent ->
               result = refused (NoPolicyFound errorCode)) /\
    (forall d, enabled (retryConfig retryState) = true -> deadline = Some d ->
               (forall n, ~ isAfter (clock w n) d) ->
               indexPolicies errorCode = Inherited ->
               exists msg, result = Throws (TypeError msg)) /\
    (indexPolicies errorCode <> Inherited ->
     (truthy (lastAttemptAt retryState) = None /\
      shiftable (zone w) (clock w (S (reads w))) \/
      exists t, lastAttemptAt retryState = Some (Instant t) /\
                shiftable (zone w) t) ->
     exists d, result = Returns d).
Proof.
  intros campaignId errorCode retryState w result refused deadline.
  subst result refused deadline. cbv beta. split; [|split; [|split; [|split; [|split]]]].
  - intros H. rewrite processRetryAttempt_disabled by exact H. reflexivity.
  - intros He Hd. apply processRetryAttempt_expired; auto.
  - intros d He Hd Hafter. apply processRetryAttempt_expired; eauto.
  - intros d He Hd Hnow Hp. eapply processRetryAttempt_no_policy; eauto.
  - intros d He Hd Hnow Hp.
    assert (H0 : date_gt (Some (currentTime w)) (newDate d) = false)
      by (apply date_gt_not_isAfter; apply Hnow).
    rewrite (processRetryAttempt_run _ _ _ _ d He Hd H0) by congruence.
    cbv zeta. rewrite Hp.
    match goal with
    | |- exists msg, (if date_gt (Some ?c) _ then _ else _) = _ =>
      assert (H1 : date_gt (Some c) (newDate d) = false)
        by (apply date_gt_not_isAfter;
            destruct (truthy (lastAttemptAt retryState)); apply Hnow)
    end.
    rewrite H1. eexists; reflexivity.
  - apply processRetryAttempt_returns.
Qed.

(* ===================================================================== *)
(** * The store: lookups and in-place replacement *)
(* ===================================================================== *)

Section Store.

Import CampaignService.

Lemma map_get_set_same (k : string) (v v0 : CampaignRetryState) (m : RetryStates) :
  map_get k m = Some v0 -> map_get k (map_set k v m) = Some v.
Proof.
  induction m as [|[k' v'] m IH]; simpl; [discriminate|].
  destruct (String.eqb k' k) eqn:E; simpl; rewrite E; auto.
Qed.

Lemma map_get_set_other (k k' : string) (v : CampaignRetryState) (m : RetryStates) :
  k' <> k -> map_get k' (map_set k v m) = map_get k' m.
Proof.
  intros Hne. induction m as [|[k0 v0] m IH]; simpl.
  - destruct (String.eqb_spec k k'); congruence.
  - destruct (String.eqb_spec k0 k) as [->|Hk]; simpl.
    + destruct (String.eqb_spec k k'); congruence.
    + destruct (String.eqb_spec k0 k'); auto.
Qed.

Lemma map_set_keys (k : string) (v v0 : CampaignRetryState) (m : RetryStates) :
  map_get k m = Some v0 -> map fst (map_set k v m) = map fst m.
Proof.
  induction m as [|[k' v'] m IH]; simpl; [discriminate|].
  destruct (String.eqb k' k) eqn:E; simpl; [reflexivity|].
  intros H. rewrite IH; auto.
Qed.

Lemma map_get_In (k : string) (v : CampaignRetryState) (m : RetryStates) :
  map_get k m = Some v -> In k (map fst m).
Proof.
  induction m as [|[k' v'] m IH]; simpl; [discriminate|].
  destruct (String.eqb_spec k' k); auto.
Qed.

Lemma In_map_get (k : string) (v : CampaignRetryState) (m : RetryStates) :
  NoDup (map fst m) -> In (k, v) m -> map_get k m = Some v.
Proof.
  induction m as [|[k' v'] m IH]; simpl; [tauto|].
  intros Hnd [E|Hin].
  - inversion E; subst. rewrite String.eqb_refl. reflexivity.
  - inversion Hnd as [|? ? Hnotin Hnd']; subst.
    destruct (String.eqb_spec k' k) as [->|Hne]; auto.
    exfalso. apply Hnotin. change k with (fst (k, v)). apply in_map; auto.
Qed.

End Store.

(* ===================================================================== *)
(** * Recording an attempt *)
(* ===================================================================== *)

Lemma updateRetryState_run (retryState : CampaignRetryState)
    (attempt : RetryAttempt) (w : World) :
  let w1 := match truthy (executedAt attempt) with
            | Some _ => w
            | None => tick w
            end in
  let w2 := match truthy (ttlDateTime (retryConfig retryState)) with
            | Some _ => tick w1
            | None => w1
            end in
  RetryService.updateRetryState retryState attempt w
  = (Returns
       (mkCampaignRetryState (campaignId retryState) (retryConfig retryState)
          (attempts retryState ++ [attempt])
          (Some (match truthy (executedAt attempt) with
                 | Some s => s
                 | None => Instant (currentTime w)
                 end))
          (nextAttemptAt retryState)
          (match truthy (ttlDateTime (retryConfig retryState)) with
           | Some ttl => date_gt (Some (currentTime w1)) (newDate ttl)
           | None => false
           end)),
     w2).
Proof.
  unfold RetryService.updateRetryState.
  destruct (truthy (executedAt attempt)) as [s|];
    destruct (truthy (ttlDateTime (retryConfig retryState))) as [ttl|];
    reflexivity.
Qed.

Lemma updateRetryAttempt_unfold (id : string) (attempt : RetryAttempt) (w : World) :
  CampaignService.updateRetryAttempt id attempt w
  = match CampaignService.map_get id (campaignRetryStates w) with
    | Some retryState =>
      match RetryService.updateRetryState retryState attempt w with
      | (Returns updated, w') =>
        (Returns tt,
         mkWorld (clock w') (reads w') (console w')
           (CampaignService.map_set id updated (campaignRetryStates w'))
           (intervals w') (handles w') (zone w'))
      | (Throws e, w') => (Throws e, w')
      end
    | None => (Returns tt, w)
    end.
Proof.
  unfold CampaignService.updateRetryAttempt, bind, getStates.
  destruct (CampaignService.map_get id (campaignRetryStates w)); [|reflexivity].
  destruct (RetryService.updateRetryState _ _ _) as [[u|e] w']; reflexivity.
Qed.

(** For a campaign that has a state, [updateRetryAttempt] stores what
    [updateRetryState] returns for it. *)
Lemma updateRetryAttempt_stored (id : string) (attempt : RetryAttempt) (w : World)
    (retryState : CampaignRetryState) :
  CampaignService.map_get id (campaignRetryStates w) = Some retryState ->
  exists updated w' w'',
    RetryService.updateRetryState retryState attempt w = (Returns updated, w') /\
    CampaignService.updateRetryAttempt id attempt w = (Returns tt, w'') /\
    campaignRetryStates w''
    = CampaignService.map_set id updated (campaignRetryStates w).
Proof.
  intros Hget. rewrite updateRetryAttempt_unfold, Hget.
  pose proof (updateRetryState_run retryState attempt w) as Hrun.
  cbv zeta in Hrun. rewrite Hrun.
  do 3 eexists. split; [reflexivity|]. split; [reflexivity|].
  cbn [campaignRetryStates].
  destruct (truthy (executedAt attempt));
    destruct (truthy (ttlDateTime (retryConfig retryState))); reflexivity.
Qed.

(** C8. [updateRetryState] returns the state with the attempt appended
    (one element more, the earlier ones in place), [lastAttemptAt] set to
    [attempt.executedAt], or to the time of the call when that is absent,
    [isExpired] recomputed from the deadline, and [campaignId], [retryConfig]
    and [nextAttemptAt] as they were.  For a campaign that has a state,
    [updateRetryAttempt] replaces it by this result and touches no other
    entry. *)
Theorem updateRetryState_spec :
  forall (retryState : CampaignRetryState) (attempt : RetryAttempt) (w : World),
    let w1 := match truthy (executedAt attempt) with
              | Some _ => w
              | None => tick w
              end in
    exists (updated : CampaignRetryState) (w' : World),
      RetryService.updateRetryState retryState attempt w = (Returns updated, w') /\
      attempts updated = attempts retryState ++ [attempt] /\
      List.length (attempts updated) = S (List.length (attempts retryState)) /\
      (forall i, (i < List.length (attempts retryState))%nat ->
                 nth_error (attempts updated) i = nth_error (attempts retryState) i) /\
      lastAttemptAt updated
      = Some (match truthy (executedAt attempt) with
              | Some s => s
              | None => Instant (currentTime w)
              end) /\
      (isExpired updated = true <->
       exists ttl, truthy (ttlDateTime (retryConfig retryState)) = Some ttl /\
                   isAfter (currentTime w1) ttl) /\
      campaignId updated = campaignId retryState /\
      retryConfig updated = retryConfig retryState /\
      nextAttemptAt updated = nextAttemptAt retryState /\
      (forall id : string,
          CampaignService.map_get id (campaignRetryStates w) = Some retryState ->
          exists w'' : World,
            CampaignService.updateRetryAttempt id attempt w = (Returns tt, w'') /\
            campaignRetryStates w''
            = CampaignService.map_set id updated (campaignRetryStates w) /\
            CampaignService.map_get id (campaignRetryStates w'') = Some updated /\
            map fst (campaignRetryStates w'') = map fst (campaignRetryStates w) /\
            (forall other, other <> id ->
               CampaignService.map_get other (campaignRetryStates w'')
               = CampaignService.map_get other (campaignRetryStates w))).
Proof.
  intros retryState attempt w w1.
  pose proof (updateRetryState_run retryState attempt w) as Hrun.
  cbv zeta in Hrun. fold w1 in Hrun.
  eexists; eexists. split; [exact Hrun|].
  cbn [attempts lastAttemptAt isExpired campaignId retryConfig nextAttemptAt].
  repeat split.
  - rewrite length_app. simpl. lia.
  - intros i Hi. rewrite nth_error_app1; auto.
  - destruct (truthy (ttlDateTime (retryConfig retryState))) as [ttl|];
      [|discriminate].
    intros H. exists ttl. split; auto. apply date_gt_isAfter; auto.
  - intros (ttl & Ht & Hafter). rewrite Ht. apply date_gt_isAfter; auto.
  - intros id Hget.
    destruct (updateRetryAttempt_stored id attempt w retryState Hget)
      as (u & w0 & w'' & Hrun' & E & Hs).
    rewrite Hrun in Hrun'. inversion Hrun'; subst u w0.
    exists w''. split; [exact E|]. split; [exact Hs|]. rewrite Hs.
    split; [|split].
    + eapply map_get_set_same; eauto.
    + eapply map_set_keys; eauto.
    + intros other Hne. apply map_get_set_other; auto.
Qed.

(** C10. For a campaign without a retry state, [updateRetryAttempt]
    returns and leaves the world as it was: no state is created, no entry is
    changed, nothing is thrown, the clock is not read. *)
Theorem updateRetryAttempt_absent :
  forall (id : string) (attempt : RetryAttempt) (w : World),
    CampaignService.map_get id (campaignRetryStates w) = None ->
    CampaignService.updateRetryAttempt id attempt w = (Returns tt, w).
Proof.
  intros id attempt w H. rewrite updateRetryAttempt_unfold, H. reflexivity.
Qed.

(* ===================================================================== *)
(** * The scan for due campaigns *)
(* ===================================================================== *)

Lemma frozenAt_tick (t : Z) (w : World) : frozenAt t w -> frozenAt t (tick w).
Proof. intros H n Hn. apply H. cbn in Hn. lia. Qed.

Lemma frozenAt_currentTime (t : Z) (w : World) : frozenAt t w -> currentTime w = t.
Proof. intros H. apply H. lia. Qed.

Lemma visitRetryState_run (now : Date) (id : string)
    (retryState : CampaignRetryState) (w : World) :
  let pushed :=
    match truthy (nextAttemptAt retryState) with
    | Some next =>
      if date_ge now (newDate next) then Some (id, retryState) else None
    | None => None
    end in
  CampaignService.visitRetryState now id retryState w
  = if negb (enabled (retryConfig retryState)) || isExpired retryState
    then (Returns (None, retryState), w)
    else match truthy (ttlDateTime (retryConfig retryState)) with
         | Some ttl =>
           if date_gt (Some (currentTime w)) (newDate ttl)
           then (Returns (None, CampaignService.with_isExpired true retryState), tick w)
           else (Returns (pushed, retryState), tick w)
         | None => (Returns (pushed, retryState), w)
         end.
Proof.
  unfold CampaignService.visitRetryState.
  destruct (negb (enabled (retryConfig retryState)) || isExpired retryState);
    [reflexivity|].
  destruct (truthy (ttlDateTime (retryConfig retryState))) as [ttl|].
  - unfold bind. rewrite isRetryTtlExpired_run.
    destruct (date_gt _ _); [reflexivity|].
    destruct (truthy (nextAttemptAt retryState)) as [n|]; [|reflexivity].
    destruct (date_ge now (newDate n)); reflexivity.
  - cbn [bind ret].
    destruct (truthy (nextAttemptAt retryState)) as [n|]; [|reflexivity].
    destruct (date_ge now (newDate n)); reflexivity.
Qed.

(** One visit under any clock: what is pushed is the visited entry itself,
    enabled and not marked expired, and the visit leaves it as it is. *)
Lemma visitRetryState_any (now : Date) (id : string)
    (retryState : CampaignRetryState) (w : World) :
  exists pushed after w',
    CampaignService.visitRetryState now id retryState w
    = (Returns (pushed, after), w') /\
    campaignRetryStates w' = campaignRetryStates w /\
    clock w' = clock w /\
    (forall e, pushed = Some e ->
               e = (id, retryState) /\ after = retryState /\
               enabled (retryConfig retryState) = true /\
               isExpired retryState = false /\
               exists next, truthy (nextAttemptAt retryState) = Some next /\
                            date_ge now (newDate next) = true).
Proof.
  assert (Hpush : forall e,
             match truthy (nextAttemptAt retryState) with
             | Some next =>
               if date_ge now (newDate next) then Some (id, retryState) else None
             | None => None
             end = Some e ->
             e = (id, retryState) /\
             exists next, truthy (nextAttemptAt retryState) = Some next /\
                          date_ge now (newDate next) = true).
  { intros e. destruct (truthy (nextAttemptAt retryState)) as [n|]; [|discriminate].
    destruct (date_ge now (newDate n)) eqn:Hd; [|discriminate].
    intros E; inversion E; eauto. }
  rewrite visitRetryState_run.
  destruct (enabled (retryConfig retryState)) eqn:He;
    destruct (isExpired retryState) eqn:Hx; cbn [negb orb];
    try (do 3 eexists; split; [reflexivity|]; repeat split; discriminate).
  destruct (truthy (ttlDateTime (retryConfig retryState))) as [ttl|];
    [destruct (date_gt (Some (currentTime w)) (newDate ttl))|];
    do 3 eexists; (split; [reflexivity|]); (split; [reflexivity|]);
      (split; [reflexivity|]); intros e E; try discriminate;
        destruct (Hpush e E) as [-> Hn]; auto.
Qed.

(** One visit while the clock stands at [t]. *)
Lemma visitRetryState_frozen (t : Z) (id : string)
    (retryState : CampaignRetryState) (w : World) :
  frozenAt t w ->
  exists w',
    CampaignService.visitRetryState (Some t) id retryState w
    = (Returns (if eligible t (id, retryState) then Some (id, retryState) else None,
                snd (markExpired t (id, retryState))), w') /\
    frozenAt t w'.
Proof.
  intros Hf. rewrite visitRetryState_run.
  unfold eligible, markExpired, newlyExpired, ttlPassed, nextAttemptDue. cbn [fst snd].
  rewrite (frozenAt_currentTime t w Hf).
  destruct (enabled (retryConfig retryState)); cbn [negb orb andb];
    [|eexists; split; [reflexivity|auto]].
  destruct (isExpired retryState); cbn [negb orb andb];
    [eexists; split; [reflexivity|auto]|].
  destruct (truthy (ttlDateTime (retryConfig retryState))) as [ttl|].
  - destruct (date_gt (Some t) (newDate ttl)); cbn [negb andb snd];
      (eexists; split; [|apply frozenAt_tick; eauto]).
    + reflexivity.
    + destruct (truthy (nextAttemptAt retryState)) as [n|]; reflexivity.
  - cbn [negb andb snd]. eexists; split; [|eauto].
    destruct (truthy (nextAttemptAt retryState)) as [n|]; reflexivity.
Qed.

Lemma forEachRetryState_any (now : Date) (entries : RetryStates) (w : World) :
  exists due after w',
    CampaignService.forEachRetryState now entries w = (Returns (due, after), w') /\
    campaignRetryStates w' = campaignRetryStates w /\
    clock w' = clock w /\
    map fst after = map fst entries /\
    (forall e, In e due ->
               In e entries /\ In e after /\
               enabled (retryConfig (snd e)) = true /\
               isExpired (snd e) = false /\
               exists next, truthy (nextAttemptAt (snd e)) = Some next /\
                            date_ge now (newDate next) = true) /\
    (NoDup (map fst entries) -> NoDup (map fst due)).
Proof.
  revert w. induction entries as [|[id st] rest IH]; intros w.
  - exists [], [], w. cbn. repeat split; tauto.
  - cbn [CampaignService.forEachRetryState]. unfold bind at 1.
    destruct (visitRetryState_any now id st w)
      as (pushed & after1 & w1 & E1 & Hs1 & Hc1 & Hp).
    rewrite E1.
    destruct (IH w1) as (due & after & w2 & E2 & Hs2 & Hc2 & Hk & Hin & Hnd).
    unfold bind at 1. rewrite E2. cbn [ret fst snd].
    do 3 eexists. split; [reflexivity|].
    split; [congruence|]. split; [congruence|].
    split; [cbn; congruence|].
    split.
    + intros e He. destruct pushed as [e0|].
      * destruct (Hp e0 eq_refl) as (-> & -> & Hen & Hex & Hnext).
        destruct He as [<-|He]; [cbn; auto 6|].
        destruct (Hin e He) as (? & ? & ? & ? & ?). cbn; auto 6.
      * destruct (Hin e He) as (? & ? & ? & ? & ?). cbn; auto 6.
    + intros Hnodup. cbn in Hnodup. inversion Hnodup as [|? ? Hnotin Hnd']; subst.
      destruct pushed as [e0|]; [|auto].
      destruct (Hp e0 eq_refl) as (-> & _). cbn. constructor; [|auto].
      intros Hin'. apply Hnotin.
      apply in_map_iff in Hin'. destruct Hin' as ([k v] & Hk' & Hin').
      cbn in Hk'. subst k. destruct (Hin _ Hin') as (Hin'' & _).
      change id with (fst (id, v)). apply in_map; auto.
Qed.

Lemma forEachRetryState_frozen (t : Z) (entries : RetryStates) (w : World) :
  frozenAt t w ->
  exists w',
    CampaignService.forEachRetryState (Some t) entries w
    = (Returns (filter (eligible t) entries, map (markExpired t) entries), w').
Proof.
  revert w. induction entries as [|[id st] rest IH]; intros w Hf.
  - exists w. reflexivity.
  - cbn [CampaignService.forEachRetryState]. unfold bind at 1.
    destruct (visitRetryState_frozen t id st w Hf) as (w1 & E1 & Hf1).
    rewrite E1. destruct (IH w1 Hf1) as (w2 & E2).
    unfold bind at 1. rewrite E2. unfold ret. cbn [fst snd filter map].
    exists w2.
    assert (Hm : (id, snd (markExpired t (id, st))) = markExpired t (id, st)).
    { unfold markExpired. cbn [fst snd].
      destruct (newlyExpired t (id, st)); reflexivity. }
    rewrite Hm. destruct (eligible t (id, st)); reflexivity.
Qed.

Lemma getCampaignsForRetry_unfold (w : World) :
  CampaignService.getCampaignsForRetry w
  = match CampaignService.forEachRetryState (Some (currentTime w))
            (campaignRetryStates w) (tick w) with
    | (Returns r, w') =>
      (Returns (fst r),
       mkWorld (clock w') (reads w') (console w') (snd r) (intervals w') (handles w') (zone w'))
    | (Throws e, w') => (Throws e, w')
    end.
Proof.
  unfold CampaignService.getCampaignsForRetry, bind, newDateNow, getStates.
  cbn [campaignRetryStates]. fold (tick w).
  destruct (CampaignService.forEachRetryState _ _ _) as [[r|e] w']; reflexivity.
Qed.

Lemma nextAttemptDue_later (t t2 : Z) (st : CampaignRetryState) :
  nextAttemptDue t st = true -> t <= t2 -> nextAttemptDue t2 st = true.
Proof.
  unfold nextAttemptDue.
  destruct (truthy (nextAttemptAt st)) as [n|]; [|discriminate].
  destruct (newDate n) as [x|]; cbn; [|discriminate].
  rewrite !Z.leb_le. lia.
Qed.

(** What the scan hands out under any clock: entries of the store, which
    the scan has left as they were, with distinct keys, each enabled, not
    marked expired and with its next attempt due at the start of the scan. *)
Lemma getCampaignsForRetry_due (w : World) :
  exists due w1,
    CampaignService.getCampaignsForRetry w = (Returns due, w1) /\
    map fst (campaignRetryStates w1) = map fst (campaignRetryStates w) /\
    (NoDup (map fst (campaignRetryStates w)) -> NoDup (map fst due)) /\
    (forall e, In e due ->
               In e (campaignRetryStates w) /\
               In e (campaignRetryStates w1) /\
               enabled (retryConfig (snd e)) = true /\
               isExpired (snd e) = false /\
               nextAttemptDue (currentTime w) (snd e) = true).
Proof.
  rewrite getCampaignsForRetry_unfold.
  destruct (forEachRetryState_any (Some (currentTime w)) (campaignRetryStates w) (tick w))
    as (due & after & w' & E & Hs & Hc & Hk & Hin & Hnd).
  rewrite E. cbn [fst snd]. do 2 eexists. split; [reflexivity|].
  cbn [campaignRetryStates].
  split; [exact Hk|]. split; [exact Hnd|].
  intros e He. destruct (Hin e He) as (Hbefore & Hafter & Hen & Hex & next & Hn & Hd).
  repeat split; auto. unfold nextAttemptDue. rewrite Hn. exact Hd.
Qed.

(** The scan while the clock stands at [t]: a filter of the store, and a
    map over it. *)
Lemma getCampaignsForRetry_frozen (t : Z) (w : World) :
  frozenAt t w ->
  exists w',
    CampaignService.getCampaignsForRetry w
    = (Returns (filter (eligible t) (campaignRetryStates w)), w') /\
    campaignRetryStates w' = map (markExpired t) (campaignRetryStates w).
Proof.
  intros Hf. rewrite getCampaignsForRetry_unfold.
  destruct (forEachRetryState_frozen t (campaignRetryStates w) (tick w)
              (frozenAt_tick t w Hf)) as (w2 & E2).
  rewrite (frozenAt_currentTime t w Hf), E2. cbn [fst snd].
  eexists. split; reflexivity.
Qed.

(** C2 (amended). [getCampaignsForRetry] returns stored entries only, each with
    retry enabled and not marked expired, and keeps the keys of the store.
    When no time passes during the scan, at the instant [t], the result is
    exactly the stored entries, in store order, with retry enabled,
    [isExpired] false, the deadline (when set) not passed at [t], and
    [nextAttemptAt] set and not after [t]; and the scan leaves the store as
    it was except that [isExpired] has become true on the entries with retry
    enabled, not marked expired before, whose deadline has passed at [t]. *)
Theorem getCampaignsForRetry_spec :
  forall w : World,
    exists (due : list (string * CampaignRetryState)) (w' : World),
      CampaignService.getCampaignsForRetry w = (Returns due, w') /\
      (forall e, In e due ->
                 In e (campaignRetryStates w) /\
                 enabled (retryConfig (snd e)) = true /\
                 isExpired (snd e) = false) /\
      map fst (campaignRetryStates w') = map fst (campaignRetryStates w) /\
      (forall t, frozenAt t w ->
                 due = filter (eligible t) (campaignRetryStates w) /\
                 campaignRetryStates w'
                 = map (markExpired t) (campaignRetryStates w)).
Proof.
  intros w.
  destruct (getCampaignsForRetry_due w) as (due & w1 & E & Hk & _ & Hin).
  exists due, w1. split; [exact E|]. split; [|split].
  - intros e He. destruct (Hin e He) as (? & _ & ? & ? & _). auto.
  - exact Hk.
  - intros t Hf. destruct (getCampaignsForRetry_frozen t w Hf) as (w2 & E2 & Hs).
    rewrite E in E2. inversion E2; subst. auto.
Qed.

(** C2 (counterexample).  It is not so that the scan sets [isExpired] on
    any scanned entry whose TTL has passed: at 2 hours the store holds one
    entry, with retry switched off and a deadline at 1 hour; the deadline
    has passed, the scan visits the entry, and it leaves [isExpired] false. *)
Lemma disabled_entry_with_passed_ttl_is_not_marked :
  ~ (forall e,
        In e (campaignRetryStates
                (snd (CampaignService.getCampaignsForRetry
                        (worldAt (hours 2) [disabledLate])))) ->
        ttlPassed (hours 2) (snd e) = true ->
        isExpired (snd e) = true).
Proof.
  intros H. specialize (H disabledLate (or_introl eq_refl) eq_refl).
  discriminate H.
Qed.

(* ===================================================================== *)
(** * Frame properties: what a computation leaves alone *)
(* ===================================================================== *)

Section Frame.

Context {X : Type} (f : World -> X).

Lemma preserves_ret {A} (a : A) : preserves f (ret a).
Proof. intros w; reflexivity. Qed.

Lemma preserves_throw {A} (e : JsError) : preserves f (@throw A e).
Proof. intros w; reflexivity. Qed.

Lemma preserves_bind {A B} (m : M A) (k : A -> M B) :
  preserves f m -> (forall a, preserves f (k a)) -> preserves f (bind m k).
Proof.
  intros Hm Hk w. unfold bind. specialize (Hm w).
  destruct (m w) as [[a|e] w']; cbn [snd] in *.
  - rewrite Hk. exact Hm.
  - exact Hm.
Qed.

Lemma preserves_try_catch {A} (m : M A) (h : JsError -> M A) :
  preserves f m -> (forall e, preserves f (h e)) -> preserves f (try_catch m h).
Proof.
  intros Hm Hh w. unfold try_catch. specialize (Hm w).
  destruct (m w) as [[a|e] w']; cbn [snd] in *.
  - exact Hm.
  - rewrite Hh. exact Hm.
Qed.

Lemma preserves_toISOString (d : Date) : preserves f (toISOString d).
Proof. destruct d; intros w; reflexivity. Qed.

Lemma preserves_getStates : preserves f getStates.
Proof. intros w; reflexivity. Qed.

End Frame.

Create HintDb frame.
#[local] Hint Resolve preserves_ret preserves_throw preserves_toISOString
  preserves_getStates : frame.

Ltac frame_step :=
  first
    [ solve [auto with frame]
    | progress cbv zeta
    | apply preserves_bind; [|intros ?]
    | apply preserves_try_catch; [|intros ?]
    | solve [intros ?; reflexivity]
    | match goal with
      | |- preserves _ (if ?c then _ else _) => destruct c
      | |- preserves _ (match ?x with _ => _ end) => destruct x
      end ].
Ltac frame := repeat frame_step.

(** The clock readings and the console do not touch the store or the
    timers. *)
Lemma newDateNow_states : preserves campaignRetryStates newDateNow.
Proof. intros w; reflexivity. Qed.
Lemma newDateNow_intervals : preserves intervals newDateNow.
Proof. intros w; reflexivity. Qed.
Lemma console_log_states l : preserves campaignRetryStates (console_log l).
Proof. intros w; reflexivity. Qed.
Lemma console_log_intervals l : preserves intervals (console_log l).
Proof. intros w; reflexivity. Qed.
Lemma putStates_intervals s : preserves intervals (putStates s).
Proof. intros w; reflexivity. Qed.
#[local] Hint Resolve newDateNow_states newDateNow_intervals console_log_states
  console_log_intervals putStates_intervals : frame.

Lemma isRetryTtlExpired_states ttl :
  preserves campaignRetryStates (RetryService.isRetryTtlExpired ttl).
Proof. intros w; reflexivity. Qed.
Lemma isRetryTtlExpired_intervals ttl :
  preserves intervals (RetryService.isRetryTtlExpired ttl).
Proof. intros w; reflexivity. Qed.
#[local] Hint Resolve isRetryTtlExpired_states isRetryTtlExpired_intervals : frame.

Lemma calculateNextRetryAttempt_states c n l t :
  preserves campaignRetryStates (RetryService.calculateNextRetryAttempt c n l t).
Proof. unfold RetryService.calculateNextRetryAttempt. frame. Qed.
Lemma calculateNextRetryAttempt_intervals c n l t :
  preserves intervals (RetryService.calculateNextRetryAttempt c n l t).
Proof. unfold RetryService.calculateNextRetryAttempt. frame. Qed.
#[local] Hint Resolve calculateNextRetryAttempt_states
  calculateNextRetryAttempt_intervals : frame.

Lemma processRetryAttempt_states id c st :
  preserves campaignRetryStates (RetryService.processRetryAttempt id c st).
Proof.
  unfold RetryService.processRetryAttempt, RetryService.isTemplateActive. frame.
Qed.
Lemma processRetryAttempt_intervals id c st :
  preserves intervals (RetryService.processRetryAttempt id c st).
Proof.
  unfold RetryService.processRetryAttempt, RetryService.isTemplateActive. frame.
Qed.
#[local] Hint Resolve processRetryAttempt_states processRetryAttempt_intervals : frame.

Lemma updateRetryState_intervals st a :
  preserves intervals (RetryService.updateRetryState st a).
Proof. unfold RetryService.updateRetryState. frame. Qed.
Lemma updateRetryState_states st a :
  preserves campaignRetryStates (RetryService.updateRetryState st a).
Proof. unfold RetryService.updateRetryState. frame. Qed.
#[local] Hint Resolve updateRetryState_intervals updateRetryState_states : frame.

Lemma log_states this m : preserves campaignRetryStates (RetryEngine.log this m).
Proof. unfold RetryEngine.log. frame. Qed.
Lemma log_intervals this m : preserves intervals (RetryEngine.log this m).
Proof. unfold RetryEngine.log. frame. Qed.
#[local] Hint Resolve log_states log_intervals : frame.

Lemma forEach_preserves {X A : Type} (f : World -> X) (g : A -> M unit) (l : list A) :
  (forall a, preserves f (g a)) -> preserves f (RetryEngine.forEach g l).
Proof.
  intros Hg. induction l as [|a l IH]; cbn [RetryEngine.forEach]; frame; auto.
Qed.

Lemma forEachRetryState_intervals now entries :
  preserves intervals (CampaignService.forEachRetryState now entries).
Proof.
  induction entries as [|[id st] rest IH]; cbn [CampaignService.forEachRetryState].
  - frame.
  - unfold CampaignService.visitRetryState. frame; auto.
Qed.
#[local] Hint Resolve forEachRetryState_intervals : frame.

Lemma getCampaignsForRetry_intervals :
  preserves intervals CampaignService.getCampaignsForRetry.
Proof. unfold CampaignService.getCampaignsForRetry. frame. Qed.

Lemma updateRetryAttempt_intervals id a :
  preserves intervals (CampaignService.updateRetryAttempt id a).
Proof. unfold CampaignService.updateRetryAttempt. frame. Qed.
#[local] Hint Resolve getCampaignsForRetry_intervals updateRetryAttempt_intervals
  : frame.

Lemma processRetries_call_intervals this :
  preserves intervals (RetryEngine.processRetries_call this).
Proof.
  unfold RetryEngine.processRetries_call. frame.
  apply forEach_preserves. intros entry.
  unfold RetryEngine.executeCampaignRetry_call. frame.
Qed.

Lemma executeCampaignRetry_resume_intervals this id st r :
  preserves intervals (RetryEngine.executeCampaignRetry_resume this id st r).
Proof.
  unfold RetryEngine.executeCampaignRetry_resume, RetryEngine.assignNextAttemptAt,
    CampaignService.getRetryState.
  frame.
Qed.

(** The scan writes nothing to the console. *)
Lemma newDateNow_console : preserves console newDateNow.
Proof. intros w; reflexivity. Qed.
Lemma putStates_console s : preserves console (putStates s).
Proof. intros w; reflexivity. Qed.
#[local] Hint Resolve newDateNow_console putStates_console : frame.

Lemma isRetryTtlExpired_console ttl :
  preserves console (RetryService.isRetryTtlExpired ttl).
Proof. unfold RetryService.isRetryTtlExpired. frame. Qed.
#[local] Hint Resolve isRetryTtlExpired_console : frame.

Lemma forEachRetryState_console now entries :
  preserves console (CampaignService.forEachRetryState now entries).
Proof.
  induction entries as [|[id st] rest IH]; cbn [CampaignService.forEachRetryState].
  - frame.
  - unfold CampaignService.visitRetryState. frame; auto.
Qed.
#[local] Hint Resolve forEachRetryState_console : frame.

Lemma getCampaignsForRetry_console :
  preserves console CampaignService.getCampaignsForRetry.
Proof. unfold CampaignService.getCampaignsForRetry. frame. Qed.

(* ===================================================================== *)
(** * The scheduler: timer fires and calls in progress *)
(* ===================================================================== *)

Section Ticks.

Import RetryEngine.

Lemma log_run (this : Engine) (m : EngineMessage) (w : World) :
  exists w', log this m w = (Returns tt, w').
Proof. unfold log. destruct (enableLogging (config this)); eexists; reflexivity. Qed.

Lemma forEach_call_run (this : Engine) (batch : list (string * CampaignRetryState))
    (w : World) :
  exists w', forEach (executeCampaignRetry_call this) batch w = (Returns tt, w').
Proof.
  revert w. induction batch as [|e batch IH]; intros w; cbn [forEach].
  - eexists; reflexivity.
  - unfold bind, executeCampaignRetry_call.
    destruct (log_run this (MsgExecuting (fst e)) w) as [w1 E]. rewrite E.
    apply IH.
Qed.

Lemma getCampaignsForRetry_returns (w : World) :
  exists due w1, CampaignService.getCampaignsForRetry w = (Returns due, w1).
Proof.
  destruct (getCampaignsForRetry_due w) as (due & w1 & E & _). eauto.
Qed.

Lemma slice0_nil {A : Type} (n : Z) : slice0 n (@nil A) = [].
Proof. unfold slice0. apply firstn_nil. Qed.

(** A call of [processRetries] always gets as far as its batch. *)
Lemma processRetries_call_run (this : Engine) (w w1 : World)
    (due : list (string * CampaignRetryState)) :
  CampaignService.getCampaignsForRetry w = (Returns due, w1) ->
  exists w',
    processRetries_call this w = (Returns (batchOf this due), w') /\
    campaignRetryStates w' = campaignRetryStates w1.
Proof.
  intros E. unfold processRetries_call, try_catch, bind at 1. rewrite E.
  destruct due as [|e due].
  - cbn [List.length Nat.eqb ret]. exists w1. unfold batchOf.
    rewrite slice0_nil. auto.
  - cbn [List.length Nat.eqb]. unfold bind at 1.
    destruct (log_run this (MsgProcessing (S (List.length due))) w1) as [w2 E2].
    pose proof (log_states this (MsgProcessing (S (List.length due))) w1) as F2.
    cbn [List.length] in E2 |- *. rewrite E2 in F2 |- *. cbn [snd] in F2.
    unfold bind at 1.
    destruct (forEach_call_run this (batchOf this (e :: due)) w2) as [w3 E3].
    pose proof (forEach_preserves campaignRetryStates (executeCampaignRetry_call this)
                  (batchOf this (e :: due))
                  (fun a => log_states this (MsgExecuting (fst a))) w2) as F3.
    unfold batchOf in E3, F3. cbn [List.length] in E3, F3. rewrite E3 in F3 |- *.
    cbn [snd] in F3. exists w3. split; [reflexivity|congruence].
Qed.

Lemma beginTick_run (s : Scheduler) (w1 : World)
    (due : list (string * CampaignRetryState)) :
  CampaignService.getCampaignsForRetry (world s) = (Returns due, w1) ->
  exists w',
    beginTick s
    = mkScheduler (engine s) (inProgress s ++ startedTick (batchOf (engine s) due)) w' /\
    campaignRetryStates w' = campaignRetryStates w1 /\
    intervals w' = intervals (world s).
Proof.
  intros E. destruct (processRetries_call_run (engine s) (world s) w1 due E)
    as (w' & Hrun & Hs).
  pose proof (processRetries_call_intervals (engine s) (world s)) as Hi.
  unfold beginTick. rewrite Hrun in Hi |- *. cbn [snd] in Hi.
  exists w'. split; [|auto].
  destruct (batchOf (engine s) due); cbn [startedTick];
    [rewrite app_nil_r|]; reflexivity.
Qed.

Lemma step_oneTimer (e : Event) (s : Scheduler) : oneTimer s -> oneTimer (step e s).
Proof.
  intros [Hi Hr]. destruct e; cbn [step].
  - (* start *)
    unfold start. destruct (isRunning (engine s)) eqn:Hrun.
    + unfold bind. destruct (log_run (engine s) MsgAlreadyRunning (world s)) as [w1 E].
      pose proof (log_intervals (engine s) MsgAlreadyRunning (world s)) as F.
      rewrite E in F |- *. cbn [snd] in F. cbn [ret].
      split; cbn [world engine inProgress]; [congruence|intros; try congruence; auto].
    + unfold bind at 1.
      destruct (log_run (mkEngine (config (engine s)) true (retryInterval (engine s)))
                  MsgStarting (world s)) as [w1 E].
      pose proof (log_intervals (mkEngine (config (engine s)) true
                                   (retryInterval (engine s)))
                    MsgStarting (world s)) as F.
      rewrite E in F |- *. cbn [snd] in F.
      cbn [bind setInterval ret world engine].
      split; cbn [world engine intervals retryInterval isRunning]; [|discriminate].
      rewrite F, Hi, (Hr eq_refl). reflexivity.
  - (* stop *)
    unfold stop. destruct (isRunning (engine s)) eqn:Hrun; cbn [negb].
    + unfold bind at 1.
      destruct (log_run (mkEngine (config (engine s)) false (retryInterval (engine s)))
                  MsgStopping (world s)) as [w1 E].
      pose proof (log_intervals (mkEngine (config (engine s)) false
                                   (retryInterval (engine s)))
                    MsgStopping (world s)) as F.
      rewrite E in F |- *. cbn [snd] in F. cbn [retryInterval].
      destruct (retryInterval (engine s)) as [h|] eqn:Hh.
      * cbn [bind clearInterval ret world engine].
        split; cbn [world engine intervals retryInterval isRunning]; [|auto].
        rewrite F, Hi. cbn [filter]. rewrite Nat.eqb_refl. reflexivity.
      * cbn [ret]. split; cbn [world engine retryInterval isRunning]; [congruence|intros; try congruence; auto].
    + unfold bind. destruct (log_run (engine s) MsgNotRunning (world s)) as [w1 E].
      pose proof (log_intervals (engine s) MsgNotRunning (world s)) as F.
      rewrite E in F |- *. cbn [snd] in F. cbn [ret].
      split; cbn [world engine inProgress]; [congruence|intros; try congruence; auto].
  - (* trigger *)
    destruct (isRunning (engine s)) eqn:Hrun; [|split; auto].
    destruct (getCampaignsForRetry_returns (world s)) as (due & w1 & E).
    destruct (beginTick_run s w1 due E) as (w' & -> & _ & F).
    split; cbn [world engine]; [congruence|intros; try congruence; auto].
  - (* the timer fires *)
    destruct (existsb (Nat.eqb h) (intervals (world s))); [|split; auto].
    destruct (getCampaignsForRetry_returns (world s)) as (due & w1 & E).
    destruct (beginTick_run s w1 due E) as (w' & -> & _ & F).
    split; cbn [world engine]; [congruence|intros; try congruence; auto].
  - (* an execution resolves *)
    destruct (inProgress s) as [|[|[id st] remaining] older]; try (split; auto).
    + cbn [world engine].
      rewrite (executeCampaignRetry_resume_intervals (engine s) id st r (world s)).
      exact Hi.
Qed.

Lemma run_oneTimer (es : list Event) (s : Scheduler) : oneTimer s -> oneTimer (run es s).
Proof.
  revert s. induction es as [|e es IH]; intros s H; cbn [run]; auto.
  apply IH, step_oneTimer, H.
Qed.

(** What a call of [log] writes. *)
Lemma log_console (this : Engine) (m : EngineMessage) (w : World) :
  exists w',
    log this m w = (Returns tt, w') /\
    console w'
    = console w ++ (if enableLogging (config this)
                    then [EngineLine (Instant (currentTime w)) m] else []).
Proof.
  unfold log. destruct (enableLogging (config this)).
  - eexists. split; reflexivity.
  - exists w. split; [reflexivity|rewrite app_nil_r; reflexivity].
Qed.

Lemma forEach_call_console (this : Engine) (batch : list (string * CampaignRetryState))
    (w : World) :
  exists w' lines,
    forEach (executeCampaignRetry_call this) batch w = (Returns tt, w') /\
    console w' = console w ++ lines /\
    map messageOf lines
    = if enableLogging (config this)
      then map (fun e => Some (MsgExecuting (fst e))) batch else [].
Proof.
  revert w. induction batch as [|e batch IH]; intros w; cbn [forEach map].
  - exists w, []. rewrite app_nil_r.
    destruct (enableLogging (config this)); auto.
  - unfold bind at 1. unfold executeCampaignRetry_call at 1.
    destruct (log_console this (MsgExecuting (fst e)) w) as (w1 & E1 & Hc1).
    rewrite E1. destruct (IH w1) as (w' & lines & E & Hc & Hm).
    exists w'. eexists. split; [exact E|].
    split; [rewrite Hc, Hc1, <- app_assoc; reflexivity|].
    rewrite map_app, Hm. destruct (enableLogging (config this)); reflexivity.
Qed.

(** The lines that a call of [processRetries] writes up to its batch. *)
Lemma processRetries_call_log (this : Engine) (w w1 : World)
    (due : list (string * CampaignRetryState)) :
  CampaignService.getCampaignsForRetry w = (Returns due, w1) ->
  exists w' lines,
    processRetries_call this w = (Returns (batchOf this due), w') /\
    console w' = console w ++ lines /\
    map messageOf lines = map Some (tickMessages this due).
Proof.
  intros E.
  assert (Hc1 : console w1 = console w).
  { pose proof (getCampaignsForRetry_console w) as H. rewrite E in H. exact H. }
  unfold processRetries_call, try_catch, bind at 1. rewrite E.
  unfold tickMessages. destruct due as [|e due].
  - cbn [List.length Nat.eqb ret negb]. exists w1, []. unfold batchOf.
    rewrite slice0_nil, andb_false_r, app_nil_r. auto.
  - cbn [List.length Nat.eqb negb]. rewrite andb_true_r. unfold bind at 1.
    destruct (log_console this (MsgProcessing (S (List.length due))) w1)
      as (w2 & E2 & Hc2).
    cbn [List.length] in E2 |- *. rewrite E2. unfold bind at 1.
    destruct (forEach_call_console this (batchOf this (e :: due)) w2)
      as (w3 & lines & E3 & Hc3 & Hm3).
    unfold batchOf in E3, Hm3 |- *. cbn [List.length] in E3, Hm3 |- *. rewrite E3.
    exists w3. eexists. split; [reflexivity|].
    split; [rewrite Hc3, Hc2, Hc1, <- app_assoc; reflexivity|].
    rewrite map_app, Hm3.
    destruct (enableLogging (config this)); [|reflexivity].
    cbn [map app messageOf]. rewrite map_map. reflexivity.
Qed.

Lemma beginTick_log (s : Scheduler) (w1 : World)
    (due : list (string * CampaignRetryState)) :
  CampaignService.getCampaignsForRetry (world s) = (Returns due, w1) ->
  exists w' lines,
    beginTick s
    = mkScheduler (engine s) (inProgress s ++ startedTick (batchOf (engine s) due)) w' /\
    console w' = console (world s) ++ lines /\
    map messageOf lines = map Some (tickMessages (engine s) due).
Proof.
  intros E. destruct (processRetries_call_log (engine s) (world s) w1 due E)
    as (w' & lines & Hrun & Hc & Hm).
  unfold beginTick. rewrite Hrun. exists w', lines. split; [|auto].
  destruct (batchOf (engine s) due); cbn [startedTick];
    [rewrite app_nil_r|]; reflexivity.
Qed.

(** C6 (amended).  A fire of the engine's timer starts a call of
    [processRetries] whatever is in progress: the call scans the store and
    starts its batch, the calls in progress stay in progress, and the new one
    joins them when it has started an execution.  Nothing is skipped or
    queued, and no warning is logged: what the call adds to the console are
    the lines of a tick, 'Processing N campaigns for retry' and 'Executing
    retry for campaign' for the campaigns of its batch, when logging is
    enabled and a campaign is due, and nothing otherwise.  What the engine
    does prevent is a second timer: from a new engine and no live timer, any
    sequence of events leaves at most one live interval timer. *)
Theorem timer_fire_starts_tick_regardless :
  (forall (s : Scheduler) (h : nat),
      In h (intervals (world s)) ->
      exists due w1 w' lines,
        CampaignService.getCampaignsForRetry (world s) = (Returns due, w1) /\
        step (IntervalFires h) s
        = mkScheduler (engine s)
            (inProgress s ++ startedTick (batchOf (engine s) due)) w' /\
        console w' = console (world s) ++ lines /\
        map messageOf lines = map Some (tickMessages (engine s) due)) /\
  (forall (c : RetryEngineConfig) (w : World) (es : list Event),
      intervals w = [] ->
      (List.length (intervals (world (run es (mkScheduler (newEngine c) [] w)))) <= 1)%nat).
Proof.
  split.
  - intros s h Hin. cbn [step].
    assert (Hex : existsb (Nat.eqb h) (intervals (world s)) = true).
    { apply existsb_exists. exists h. split; [auto|apply Nat.eqb_refl]. }
    rewrite Hex.
    destruct (getCampaignsForRetry_returns (world s)) as (due & w1 & E).
    destruct (beginTick_log s w1 due E) as (w' & lines & Hb & Hc & Hm).
    exists due, w1, w', lines. auto.
  - intros c w es Hw.
    assert (H0 : oneTimer (mkScheduler (newEngine c) [] w)) by (split; auto).
    destruct (run_oneTimer es _ H0) as [Hi _]. rewrite Hi.
    destruct (retryInterval _); cbn; lia.
Qed.

(** C6 (counterexample).  It is not so that at most one call of
    [processRetries] is in progress at any time: with one campaign due and an
    execution that takes longer than the check interval, the second fire of
    the timer starts a second call while the first one waits for its
    execution, and two calls are in progress. *)
Lemma second_timer_fire_overlaps :
  ~ (forall es : list Event,
        (List.length (inProgress (run es overlapStart)) <= 1)%nat).
Proof.
  intros H. specialize (H [CallStart; IntervalFires 0; IntervalFires 0]).
  vm_compute in H. lia.
Qed.

End Ticks.

(* ===================================================================== *)
(** * One tick: the batch and what it does to the store *)
(* ===================================================================== *)

Section Relates.

Context (R : RetryStates -> RetryStates -> Prop).
Hypothesis R_refl : forall s, R s s.
Hypothesis R_trans : forall s1 s2 s3, R s1 s2 -> R s2 s3 -> R s1 s3.

Lemma relates_preserves {A} (m : M A) :
  preserves campaignRetryStates m -> relates R m.
Proof. intros H w. rewrite H. apply R_refl. Qed.

Lemma relates_bind {A B} (m : M A) (k : A -> M B) :
  relates R m -> (forall a, relates R (k a)) -> relates R (bind m k).
Proof.
  intros Hm Hk w. unfold bind. specialize (Hm w).
  destruct (m w) as [[a|e] w']; cbn [snd] in *; [|exact Hm].
  eapply R_trans; [exact Hm|apply Hk].
Qed.

Lemma relates_try_catch {A} (m : M A) (h : JsError -> M A) :
  relates R m -> (forall e, relates R (h e)) -> relates R (try_catch m h).
Proof.
  intros Hm Hh w. unfold try_catch. specialize (Hm w).
  destruct (m w) as [[a|e] w']; cbn [snd] in *; [exact Hm|].
  eapply R_trans; [exact Hm|apply Hh].
Qed.

End Relates.

Section Tick.

Import CampaignService RetryEngine.

Lemma touchesOnly_refl (id : string) (s : RetryStates) : touchesOnly id s s.
Proof. split; eauto. Qed.

Lemma touchesOnly_trans (id : string) (s1 s2 s3 : RetryStates) :
  touchesOnly id s1 s2 -> touchesOnly id s2 s3 -> touchesOnly id s1 s3.
Proof.
  intros [Ho1 Hi1] [Ho2 Hi2]. split.
  - intros other Hne. rewrite Ho2, Ho1; auto.
  - intros st0 H0. destruct (Hi1 st0 H0) as (st1 & H1 & E1).
    destruct (Hi2 st1 H1) as (st2 & H2 & E2). exists st2. split; congruence.
Qed.

Lemma assignNextAttemptAt_touchesOnly (id : string) (next : DateString) :
  relates (touchesOnly id) (assignNextAttemptAt id next).
Proof.
  intros w. unfold assignNextAttemptAt, getRetryState, bind, getStates. cbn [ret].
  destruct (map_get id (campaignRetryStates w)) as [st|] eqn:E.
  - cbn [putStates snd campaignRetryStates]. split.
    + intros other Hne. apply map_get_set_other; auto.
    + intros st0 H0. eexists. split; [eapply map_get_set_same; eauto|].
      cbn. congruence.
  - apply touchesOnly_refl.
Qed.

Lemma updateRetryAttempt_recordsAttempt (id : string) (a : RetryAttempt) (w : World) :
  exists w',
    updateRetryAttempt id a w = (Returns tt, w') /\
    recordsAttempt id (campaignRetryStates w) (campaignRetryStates w').
Proof.
  destruct (map_get id (campaignRetryStates w)) as [st|] eqn:E.
  - destruct (updateRetryAttempt_stored id a w st E) as (u & w0 & w'' & Hrun & Hup & Hs).
    exists w''. split; [exact Hup|]. rewrite Hs. split.
    + intros other Hne. apply map_get_set_other; auto.
    + intros st0 H0. exists u, a. split; [eapply map_get_set_same; eauto|].
      rewrite updateRetryState_run in Hrun. inversion Hrun; subst u. cbn. congruence.
  - exists w. rewrite updateRetryAttempt_unfold, E. split; [reflexivity|].
    split; [auto|]. intros st0 H0. congruence.
Qed.

Lemma try_catch_bind_returns {A B} (m : M A) (k : A -> M B) (h : JsError -> M B)
    (a : A) (w w1 : World) :
  m w = (Returns a, w1) ->
  try_catch (bind m k) h w = try_catch (k a) h w1.
Proof. intros E. unfold try_catch, bind. rewrite E. reflexivity. Qed.

(** The code of [executeCampaignRetry] after the execution has resolved
    records one attempt for its campaign and leaves the other entries of the
    store alone, whatever the execution reports. *)
Lemma executeCampaignRetry_resume_store (this : Engine) (id : string)
    (st : CampaignRetryState) (r : Execution) (w : World) :
  recordsAttempt id (campaignRetryStates w)
    (campaignRetryStates (snd (executeCampaignRetry_resume this id st r w))).
Proof.
  unfold executeCampaignRetry_resume. cbv zeta.
  erewrite try_catch_bind_returns by reflexivity.
  erewrite try_catch_bind_returns by reflexivity.
  erewrite try_catch_bind_returns by reflexivity.
  erewrite try_catch_bind_returns by reflexivity.
  match goal with
  | |- context [updateRetryAttempt id ?a] =>
    destruct (updateRetryAttempt_recordsAttempt id a (tick (tick w)))
      as (w1 & E1 & [Hother Hid])
  end.
  erewrite try_catch_bind_returns by exact E1.
  match goal with
  | |- context [try_catch ?m ?h w1] =>
    assert (Hrest : relates (touchesOnly id) (try_catch m h))
  end.
  { pose proof (touchesOnly_refl id) as Hr.
    pose proof (touchesOnly_trans id) as Ht.
    apply relates_try_catch; auto.
    - destruct (ex_success r).
      + apply relates_preserves; auto. frame.
      + destruct (truthyCode (ex_errorCode r)) as [code|];
          [|apply relates_preserves; auto; frame].
        apply relates_bind; auto; [apply relates_preserves; auto; frame|].
        intros d.
        destruct (if shouldRetry d then truthy (decidedNextAttemptAt d) else None)
          as [next|]; [|apply relates_preserves; auto; frame].
        apply relates_bind; auto; [apply assignNextAttemptAt_touchesOnly|].
        intros _. apply relates_preserves; auto. frame.
    - intros e. apply relates_preserves; auto. frame. }
  destruct (Hrest w1) as [Hother' Hid'].
  cbn [campaignRetryStates tick] in Hother, Hid. split.
  - intros other Hne. rewrite Hother', Hother; auto.
  - intros st0 H0. destruct (Hid st0 H0) as (st1 & a & H1 & Ha).
    destruct (Hid' st1 H1) as (st2 & H2 & Ha2).
    exists st2, a. split; congruence.
Qed.



End Tick.

Section Batch.

Import CampaignService RetryEngine.

Lemma map_get_In_pair (k : string) (v : CampaignRetryState) (m : RetryStates) :
  map_get k m = Some v -> In (k, v) m.
Proof.
  induction m as [|[k' v'] m IH]; simpl; [discriminate|].
  destruct (String.eqb_spec k' k) as [->|Hne]; intros H; [left; congruence|auto].
Qed.

Lemma NoDup_app_disjoint {A : Type} (l1 l2 : list A) (x : A) :
  NoDup (l1 ++ l2) -> In x l1 -> In x l2 -> False.
Proof.
  induction l1 as [|a l1 IH]; cbn; [tauto|].
  intros Hnd [->|H1] H2; inversion Hnd as [|? ? Hnotin Hnd']; subst.
  - apply Hnotin. apply in_or_app; auto.
  - apply IH; auto.
Qed.

Lemma batchOf_firstn (this : Engine) (due : list (string * CampaignRetryState)) :
  0 <= maxConcurrentRetries (config this) ->
  batchOf this due
  = firstn (Nat.min (List.length due) (Z.to_nat (maxConcurrentRetries (config this))))
      due.
Proof.
  intros Hmax. unfold batchOf, slice0.
  destruct (Z.ltb_spec (Z.min (Z.of_nat (List.length due))
                              (maxConcurrentRetries (config this))) 0) as [Hneg|_];
    [lia|].
  f_equal. lia.
Qed.

(** The executions of one batch resolve one after the other; each records
    an attempt for its own campaign. *)
Lemma run_batch (entries : list (string * CampaignRetryState)) :
  forall (s : Scheduler) (rs : list Execution),
    inProgress s = startedTick entries ->
    List.length rs = List.length entries ->
    NoDup (map fst entries) ->
    let s' := run (map ExecutionResolves rs) s in
    inProgress s' = [] /\
    (forall id, ~ In id (map fst entries) ->
                map_get id (campaignRetryStates (world s'))
                = map_get id (campaignRetryStates (world s))) /\
    (forall id st, In (id, st) entries ->
                   map_get id (campaignRetryStates (world s)) = Some st ->
                   exists st' a,
                     map_get id (campaignRetryStates (world s')) = Some st' /\
                     attempts st' = attempts st ++ [a]).
Proof.
  induction entries as [|[id0 st0] rest IH]; intros s rs Hprog Hlen Hnd.
  - destruct rs; [|discriminate]. cbn. repeat split; auto. intros ? ? [].
  - destruct rs as [|r rs]; [discriminate|].
    cbn [map run step]. rewrite Hprog. cbn [startedTick].
    set (w1 := snd (executeCampaignRetry_resume (engine s) id0 st0 r (world s))).
    set (s1 := mkScheduler (engine s) (settle rest []) w1).
    pose proof (executeCampaignRetry_resume_store (engine s) id0 st0 r (world s))
      as [Hother Hid]. fold w1 in Hother, Hid.
    inversion Hnd as [|? ? Hnotin Hnd']; subst.
    assert (Hprog1 : inProgress s1 = startedTick rest)
      by (destruct rest; reflexivity).
    destruct (IH s1 rs Hprog1 ltac:(cbn in Hlen; lia) Hnd') as (Hdone & Hout & Hin).
    cbn [world] in Hout, Hin. cbv zeta. split; [exact Hdone|]. split.
    + intros id Hnot.
      rewrite Hout by (intros Hx; apply Hnot; simpl; auto).
      apply Hother. intros ->. apply Hnot. simpl; auto.
    + intros id st [E|Hrest] Hget.
      * inversion E; subst id0 st0.
        destruct (Hid st Hget) as (st' & a & Hget' & Ha).
        exists st', a. split; [|exact Ha].
        rewrite Hout; auto.
      * assert (Hne : id <> id0).
        { intros ->. apply Hnotin. change id0 with (fst (id0, st)).
          apply in_map; auto. }
        apply Hin; auto. rewrite Hother; auto.
Qed.

(** C7. A tick, for a non-negative [maxConcurrentRetries]: the fire of
    the timer starts executions for exactly the first
    [min(len(due), maxConcurrentRetries)] entries of the due list.  When no
    earlier call is in progress and these executions have resolved, whatever
    they report, the call is over, each campaign of the batch has one attempt
    more in the store, and every other entry of the store is as the scan left
    it; so each due campaign beyond the batch is stored unchanged and is due
    again at any later scan at which its deadline has not passed. *)
Theorem processRetries_batch :
  forall (s : Scheduler) (h : nat) (due : list (string * CampaignRetryState))
         (w1 : World) (rs : list Execution),
    In h (intervals (world s)) ->
    0 <= maxConcurrentRetries (config (engine s)) ->
    NoDup (map fst (campaignRetryStates (world s))) ->
    getCampaignsForRetry (world s) = (Returns due, w1) ->
    let k := Nat.min (List.length due)
                     (Z.to_nat (maxConcurrentRetries (config (engine s)))) in
    let batch := firstn k due in
    let waiting := skipn k due in
    List.length rs = k ->
    let started := step (IntervalFires h) s in
    let finished := run (map ExecutionResolves rs) started in
    inProgress started = inProgress s ++ startedTick batch /\
    (inProgress s = [] ->
     inProgress finished = [] /\
     (forall id st, In (id, st) batch ->
        exists st' a,
          map_get id (campaignRetryStates (world finished)) = Some st' /\
          attempts st' = attempts st ++ [a]) /\
     (forall id, ~ In id (map fst batch) ->
        map_get id (campaignRetryStates (world finished))
        = map_get id (campaignRetryStates w1)) /\
     (forall id st, In (id, st) waiting ->
        map_get id (campaignRetryStates (world finished)) = Some st) /\
     (forall (w2 : World) (t2 : Z),
         campaignRetryStates w2 = campaignRetryStates (world finished) ->
         frozenAt t2 w2 ->
         currentTime (world s) <= t2 ->
         forall id st, In (id, st) waiting -> ttlPassed t2 st = false ->
           exists due2 w3,
             getCampaignsForRetry w2 = (Returns due2, w3) /\ In (id, st) due2)).
Proof.
  intros s h due w1 rs Hh Hmax Hnd Hscan k batch waiting Hlen started finished.
  destruct (getCampaignsForRetry_due (world s))
    as (due' & w1' & Hscan' & Hkeys & Hnd_due & Hdue).
  rewrite Hscan in Hscan'. inversion Hscan'; subst due' w1'. clear Hscan'.
  specialize (Hnd_due Hnd).
  assert (Hnd1 : NoDup (map fst (campaignRetryStates w1))) by (rewrite Hkeys; exact Hnd).
  (* the fire of the timer *)
  assert (Hex : existsb (Nat.eqb h) (intervals (world s)) = true).
  { apply existsb_exists. exists h. split; [auto|apply Nat.eqb_refl]. }
  destruct (beginTick_run s w1 due Hscan) as (w' & Hbegin & Hstore & _).
  rewrite batchOf_firstn in Hbegin by exact Hmax. fold k batch in Hbegin.
  assert (Hstarted : started
                     = mkScheduler (engine s) (inProgress s ++ startedTick batch) w').
  { subst started. cbn [step]. rewrite Hex. exact Hbegin. }
  split; [rewrite Hstarted; reflexivity|].
  intros Hidle. rewrite Hidle in Hstarted. cbn [app] in Hstarted.
  (* the batch and the entries that wait *)
  assert (Hsplit : due = batch ++ waiting) by (symmetry; apply firstn_skipn).
  assert (Hnd_split : NoDup (map fst batch ++ map fst waiting))
    by (rewrite <- map_app, <- Hsplit; exact Hnd_due).
  assert (Hnd_batch : NoDup (map fst batch))
    by (eapply NoDup_app_remove_r; eauto).
  assert (Hstored : forall id st, In (id, st) due ->
                      map_get id (campaignRetryStates w1) = Some st).
  { intros id st Hin. apply In_map_get; auto. apply (Hdue _ Hin). }
  assert (Hlen' : List.length rs = List.length batch).
  { subst batch. rewrite length_firstn. lia. }
  destruct (run_batch batch started rs
              ltac:(rewrite Hstarted; reflexivity) Hlen' Hnd_batch)
    as (Hdone & Hout & Hin).
  fold finished in Hdone, Hout, Hin.
  assert (Hw' : campaignRetryStates (world started) = campaignRetryStates w1)
    by (rewrite Hstarted; exact Hstore).
  rewrite Hw' in Hout, Hin.
  assert (Hwait : forall id st, In (id, st) waiting ->
                    map_get id (campaignRetryStates (world finished)) = Some st).
  { intros id st Hw. rewrite Hout.
    - apply Hstored. rewrite Hsplit. apply in_or_app; auto.
    - intros Hb. apply (NoDup_app_disjoint _ _ id Hnd_split Hb).
      change id with (fst (id, st)). apply in_map; auto. }
  split; [exact Hdone|].
  split.
  { intros id st Hb. apply Hin; auto. apply Hstored.
    rewrite Hsplit. apply in_or_app; auto. }
  split; [exact Hout|].
  split; [exact Hwait|].
  intros w2 t2 Hw2 Hfrozen Hlater id st Hw Httl.
  destruct (getCampaignsForRetry_frozen t2 w2 Hfrozen) as (w3 & Hscan2 & _).
  eexists; exists w3. split; [exact Hscan2|].
  apply filter_In. split.
  - rewrite Hw2. apply map_get_In_pair. apply Hwait; auto.
  - assert (Hd : In (id, st) due) by (rewrite Hsplit; apply in_or_app; auto).
    destruct (Hdue _ Hd) as (_ & _ & Hen & Hexp & Hnext). cbn [snd] in *.
    unfold eligible. cbn [snd]. rewrite Hen, Hexp, Httl.
    rewrite (nextAttemptDue_later _ t2 _ Hnext Hlater). reflexivity.
Qed.

(** With a negative [maxConcurrentRetries] the batch is not empty: [slice]
    counts a negative end from the end of the due list. *)
Remark negative_limit_counts_from_the_end :
  batchOf (mkEngine (mkConfig (-1) 60000 true) true (Some 0%nat))
    (map dueCampaign ["c1"; "c2"; "c3"])
  = map dueCampaign ["c1"; "c2"].
Proof. reflexivity. Qed.

End Batch.

(* ===================================================================== *)
(** * RetryService: when a retry is scheduled *)
(* ===================================================================== *)

(** X3. [calculateNextRetryAttempt] answers with a retry only inside the
    policy and the window: whenever it returns [shouldRetry = true], the
    last attempt parses to an instant [last], the error code has a policy,
    [currentAttempt] is a whole number [i] from 0 to 2 and the policy has an
    interval [h] (12, 24 or 48 hours) at the position [i]; the next attempt
    is [last] with [h] added to the hours of its local time, a valid date,
    which is [last + h] hours where the offset of the zone does not change;
    and neither the time of the call nor the next attempt lies after the
    deadline.  With [shouldRetry = false] the next attempt is [null]. *)
Theorem calculateNextRetryAttempt_retries_within_policy :
  forall (errorCode : string) (currentAttempt : JsNumber)
         (lastAttemptAt deadline : DateString) (w : World) (r : NextAttempt),
    fst (RetryService.calculateNextRetryAttempt errorCode currentAttempt
           lastAttemptAt deadline w) = Returns r ->
    (na_shouldRetry r = false -> na_nextAttemptAt r = None) /\
    (na_shouldRetry r = true ->
     exists (last : Z) (p : RetryPolicy) (i : nat) (h next : Z),
       lastAttemptAt = Instant last /\
       DEFAULT_RETRY_POLICIES errorCode = Some p /\
       asIndex currentAttempt = Some i /\
       nth_error (retryIntervals p) i = Some h /\
       (i < 3)%nat /\
       In h [12; 24; 48] /\
       plusHours (zone w) (Some last) (Some h) = Some next /\
       na_nextAttemptAt r = Some (Instant next) /\
       ~ isAfter (currentTime w) deadline /\
       ~ isAfter next deadline /\
       (fixedOffset (zone w) -> next = last + h * msPerHour)).
Proof.
  intros errorCode currentAttempt lastAttemptAt deadline w r.
  rewrite calculateNextRetryAttempt_run. cbn [fst]. cbv zeta.
  destruct (date_gt (Some (currentTime w)) (newDate deadline)) eqn:Hnow;
    [intros E; inversion E; split; [reflexivity|discriminate]|].
  destruct (indexPolicies errorCode) as [p| |] eqn:Hp;
    [|discriminate|intros E; inversion E; split; [reflexivity|discriminate]].
  destruct (number_ge currentAttempt (retryIntervals p));
    [intros E; inversion E; split; [reflexivity|discriminate]|].
  destruct (elementAt (retryIntervals p) currentAttempt) as [h|] eqn:He.
  2:{ destruct (newDate lastAttemptAt); cbn [plusHours date_gt]; discriminate. }
  destruct lastAttemptAt as [last|u]; cbn [newDate]; [|cbn; discriminate].
  destruct (plusHours (zone w) (Some last) (Some h)) as [next|] eqn:Hplus;
    [|cbn; discriminate].
  destruct (date_gt (Some next) (newDate deadline)) eqn:Hnext;
    intros E; inversion E; (split; [try reflexivity; discriminate|]);
    [discriminate|].
  intros _. apply indexPolicies_Policy in Hp.
  destruct (elementAt_Some _ _ _ He) as (i & Hi & Hn).
  destruct (policy_intervals _ _ _ _ Hp Hn) as [Hlt Hh].
  exists last, p, i, h, next.
  repeat (split; [first [reflexivity | assumption]|]).
  split; [apply date_gt_not_isAfter; exact Hnow|].
  split; [apply date_gt_not_isAfter; exact Hnext|].
  intros Hz. eapply plusHours_fixed_Some; eauto.
Qed.

Lemma asIndex_number_ge {A : Type} (x : JsNumber) (i : nat) (a : list A) :
  asIndex x = Some i -> number_ge x a = (List.length a <=? i)%nat.
Proof.
  destruct x as [q| | |]; cbn [asIndex]; try discriminate. cbv zeta.
  destruct (Qred q) as [n d] eqn:Er. cbn [Qden Qnum].
  destruct (Pos.eqb_spec d 1) as [->|]; [|discriminate].
  destruct (Z.leb_spec 0 n) as [Hn|]; [|discriminate].
  cbn [andb]. intros E; inversion E; subst i.
  unfold number_ge.
  assert (Hq : (q == inject_Z n)%Q).
  { rewrite <- (Qred_correct q), Er. reflexivity. }
  destruct (Nat.leb_spec (List.length a) (Z.to_nat n)) as [Hle|Hgt].
  - apply Qle_bool_iff. rewrite Hq. rewrite <- Zle_Qle. lia.
  - destruct (Qle_bool (inject_Z (Z.of_nat (List.length a))) q) eqn:Eb; [|reflexivity].
    apply Qle_bool_iff in Eb. rewrite Hq in Eb. rewrite <- Zle_Qle in Eb. lia.
Qed.

(** X25. What [calculateNextRetryAttempt] answers, case by case.  No
    retry ([shouldRetry = false], [nextAttemptAt = null]) when the deadline
    has passed at the time of the call, when nothing stands under the error
    code in the table of policies, or when [currentAttempt] is not below the
    number of intervals of the policy, whatever the other arguments.  For a
    last attempt at the instant [last], a [currentAttempt] that is the index
    [i] of the interval [h], and [next] the valid date that is [last] with
    [h] added to the hours of its local time: no retry when [next] lies
    strictly after the deadline, and otherwise a retry at [next] (a candidate
    equal to the deadline is retryable); [next] is [last + h] hours where the
    offset of the zone does not change.  For '131049' and attempt 0, in
    such a zone and in the range of [Date], the candidate is [last] + 12
    hours.  With the deadline ahead, the call throws a TypeError for an
    error code that names a property inherited from the prototype, and the
    RangeError of [toISOString] when the policy has intervals left and the
    candidate is an invalid date (a last attempt that does not parse, a
    [currentAttempt] that is no index of the intervals, a date out of
    range). *)
Theorem calculateNextRetryAttempt_decides :
  forall (errorCode : string) (currentAttempt : JsNumber)
         (lastAttemptAt deadline : DateString) (w : World),
    let now := currentTime w in
    let result :=
      fst (RetryService.calculateNextRetryAttempt errorCode currentAttempt
             lastAttemptAt deadline w) in
    let noRetry := Returns (mkNextAttempt None false) in
    let retryAt (t : Z) := Returns (mkNextAttempt (Some (Instant t)) true) in
    (isAfter now deadline -> result = noRetry) /\
    (indexPolicies errorCode = Absent -> result = noRetry) /\
    (forall p, DEFAULT_RETRY_POLICIES errorCode = Some p ->
               number_ge currentAttempt (retryIntervals p) = true ->
               result = noRetry) /\
    (forall last p i h next,
        lastAttemptAt = Instant last ->
        DEFAULT_RETRY_POLICIES errorCode = Some p ->
        asIndex currentAttempt = Some i ->
        nth_error (retryIntervals p) i = Some h ->
        plusHours (zone w) (Some last) (Some h) = Some next ->
        (isAfter next deadline -> result = noRetry) /\
        (~ isAfter now deadline -> ~ isAfter next deadline -> result = retryAt next) /\
        (fixedOffset (zone w) -> next = last + h * msPerHour)) /\
    (forall last,
        lastAttemptAt = Instant last ->
        errorCode = "131049" -> currentAttempt = ofNat 0 ->
        fixedOffset (zone w) -> inRange (last + 12 * msPerHour) ->
        ~ isAfter now deadline ->
        ~ isAfter (last + 12 * msPerHour) deadline ->
        result = retryAt (last + 12 * msPerHour)) /\
    (~ isAfter now deadline -> indexPolicies errorCode = Inherited ->
     exists msg, result = Throws (TypeError msg)) /\
    (forall p,
        ~ isAfter now deadline ->
        DEFAULT_RETRY_POLICIES errorCode = Some p ->
        number_ge currentAttempt (retryIntervals p) = false ->
        plusHours (zone w) (newDate lastAttemptAt)
          (elementAt (retryIntervals p) currentAttempt) = None ->
        result = Throws (RangeError "Invalid time value")).
Proof.
  intros errorCode currentAttempt lastAttemptAt deadline w now result noRetry retryAt.
  subst result retryAt. rewrite calculateNextRetryAttempt_run. cbn [fst]. fold now.
  split; [|split; [|split; [|split; [|split; [|split]]]]].
  - intros H. apply date_gt_isAfter in H. rewrite H. reflexivity.
  - intros H. rewrite H.
    destruct (date_gt (Some now) (newDate deadline)); reflexivity.
  - intros p Hp Hge. apply indexPolicies_Policy in Hp. rewrite Hp, Hge.
    destruct (date_gt (Some now) (newDate deadline)); reflexivity.
  - intros last p i h next -> Hp Hi Hn Hplus. apply indexPolicies_Policy in Hp.
    rewrite Hp, (asIndex_number_ge _ i _ Hi).
    assert (Hlt : (i < List.length (retryIntervals p))%nat)
      by (apply nth_error_Some; congruence).
    destruct (Nat.leb_spec (List.length (retryIntervals p)) i); [lia|].
    unfold elementAt. rewrite Hi, Hn. cbn [newDate]. cbv zeta. rewrite Hplus.
    split; [|split].
    + intros Hafter. apply date_gt_isAfter in Hafter. rewrite Hafter.
      destruct (date_gt (Some now) (newDate deadline)); reflexivity.
    + intros Hnow Hcand.
      apply date_gt_not_isAfter in Hnow. apply date_gt_not_isAfter in Hcand.
      rewrite Hnow, Hcand. reflexivity.
    + intros Hz. eapply plusHours_fixed_Some; eauto.
  - intros last -> Hc Ha Hz Hr Hnow Hcand. subst errorCode currentAttempt.
    apply date_gt_not_isAfter in Hnow. apply date_gt_not_isAfter in Hcand.
    rewrite Hnow.
    change (indexPolicies "131049")
      with (Policy (mkRetryPolicy "131049" "Frequency cap / healthy ecosystem"
                      [12; 24; 48] false)).
    cbv beta iota. rewrite number_ge_ofNat, elementAt_ofNat.
    cbn [retryIntervals List.length Nat.leb nth_error newDate]. cbv zeta.
    rewrite (plusHours_fixed _ _ _ Hz), (TimeClip_inRange _ Hr), Hcand. reflexivity.
  - intros Hnow Hp. apply date_gt_not_isAfter in Hnow. rewrite Hnow, Hp.
    eexists; reflexivity.
  - intros p Hnow Hp Hge Hplus. apply date_gt_not_isAfter in Hnow.
    apply indexPolicies_Policy in Hp. rewrite Hnow, Hp, Hge. cbv zeta.
    rewrite Hplus. reflexivity.
Qed.

(** X4. A decision of [processRetryAttempt] to retry is consistent and
    stays inside the window: [shouldRetry] is true exactly when
    [nextAttemptAt] is set, and then retry is enabled, a deadline is set that
    has not passed at the time of the call, the reason is 'Retry scheduled
    for' the same instant, the number of recorded attempts is below 3, and
    the instant is the base time with the policy's interval (12, 24 or 48
    hours) at the position of that number added to the hours of its local
    time, not after the deadline; the base time is [lastAttemptAt] when it
    is set and the current time otherwise.  Where the offset of the zone does
    not change the instant is the base time plus the interval.  A decision
    not to retry carries one of the four other reasons. *)
Theorem processRetryAttempt_schedules_within_window :
  forall (campaignId errorCode : string) (retryState : CampaignRetryState)
         (w : World) (d : RetryDecision),
    fst (RetryService.processRetryAttempt campaignId errorCode retryState w)
    = Returns d ->
    (shouldRetry d = true <-> decidedNextAttemptAt d <> None) /\
    (shouldRetry d = false ->
     reason d = RetryDisabled \/ reason d = TtlExpired \/
     reason d = NoPolicyFound errorCode \/ reason d = NoMoreAttempts) /\
    (shouldRetry d = true ->
     exists (ttl : DateString) (p : RetryPolicy) (h next : Z),
       enabled (retryConfig retryState) = true /\
       truthy (ttlDateTime (retryConfig retryState)) = Some ttl /\
       ~ isAfter (currentTime w) ttl /\
       DEFAULT_RETRY_POLICIES errorCode = Some p /\
       nth_error (retryIntervals p) (List.length (attempts retryState)) = Some h /\
       (List.length (attempts retryState) < 3)%nat /\
       In h [12; 24; 48] /\
       decidedNextAttemptAt d = Some (Instant next) /\
       reason d = RetryScheduled (Some (Instant next)) /\
       ~ isAfter next ttl /\
       (forall last, lastAttemptAt retryState = Some (Instant last) ->
                     plusHours (zone w) (Some last) (Some h) = Some next /\
                     (fixedOffset (zone w) -> next = last + h * msPerHour)) /\
       (truthy (lastAttemptAt retryState) = None ->
        plusHours (zone w) (Some (clock w (S (reads w)))) (Some h) = Some next /\
        (fixedOffset (zone w) -> next = clock w (S (reads w)) + h * msPerHour))).
Proof.
  intros campaignId errorCode retryState w d E.
  destruct (processRetryAttempt_cases _ _ _ _ _ E)
    as [(Hs & Hn & Hr) | (ttl & p & h & next & He & Ht & Hnow & Hp & Hnth & Hplus
                          & Hnext & Hd)].
  - rewrite Hs, Hn. repeat split; try congruence.
    intros _. destruct Hr as [H|[H|[[H _]|[H _]]]]; auto.
  - subst d. cbn [shouldRetry decidedNextAttemptAt reason].
    split; [split; congruence|]. split; [discriminate|]. intros _.
    destruct (policy_intervals _ _ _ _ Hp Hnth) as [Hlt Hh].
    exists ttl, p, h, next.
    repeat (split; [first [reflexivity | assumption]|]).
    split.
    + intros last Hlast. rewrite Hlast in Hplus. cbn [truthy newDate] in Hplus.
      split; [exact Hplus|]. intros Hz. eapply plusHours_fixed_Some; eauto.
    + intros Hlast. rewrite Hlast in Hplus.
      split; [exact Hplus|]. intros Hz. eapply plusHours_fixed_Some; eauto.
Qed.

(* ===================================================================== *)
(** * The unified configuration *)
(* ===================================================================== *)

(** X5. [createUnifiedTtlConfig] always returns, after one reading of the
    clock.  The result is valid exactly when the deadline and the scheduled
    time parse, the deadline is not before the scheduled time moved by one
    day of local time, not after the scheduled time moved by 28 days of
    local time (a moved date that is invalid bounds nothing), and after the
    time of the call; where the offset of the zone does not change and the
    scheduled time stays in the range of [Date] for 28 days, that is a
    deadline 24 hours to 28 days after the scheduled time.  A valid result
    enables retry with the deadline as [ttlDateTime] and has no errors; an
    invalid one disables retry, leaves [ttlDateTime] undefined and has at
    least one error.  In both cases [metaApiTtl] is the deadline as given
    (also when it was rejected), [scheduledDateTime] is the scheduled time as
    given and the three stop flags are set. *)
Theorem createUnifiedTtlConfig_spec :
  forall (campaignId : string) (scheduledAt retryTtl : DateString) (w : World),
    exists u : RetryService.UnifiedTtlConfig,
      RetryService.createUnifiedTtlConfig campaignId scheduledAt retryTtl w
      = (Returns u, tick w) /\
      (RetryService.unified_isValid u = true
       <-> unifiedWindow (zone w) (currentTime w) retryTtl scheduledAt) /\
      (forall t s : Z,
          retryTtl = Instant t -> scheduledAt = Instant s ->
          fixedOffset (zone w) -> inRange s -> inRange (s + 28 * msPerDay) ->
          (RetryService.unified_isValid u = true
           <-> 24 * msPerHour <= t - s <= 28 * msPerDay /\ currentTime w < t)) /\
      RetryService.metaApiTtl u = retryTtl /\
      enabled (RetryService.retryEngineConfig u) = RetryService.unified_isValid u /\
      scheduledDateTime (RetryService.retryEngineConfig u) = Some scheduledAt /\
      stopOnConversion (RetryService.retryEngineConfig u) = true /\
      stopOnManualPause (RetryService.retryEngineConfig u) = true /\
      stopOnTemplateChange (RetryService.retryEngineConfig u) = true /\
      (RetryService.unified_isValid u = true ->
       ttlDateTime (RetryService.retryEngineConfig u) = Some retryTtl /\
       RetryService.unified_errors u = []) /\
      (RetryService.unified_isValid u = false ->
       ttlDateTime (RetryService.retryEngineConfig u) = None /\
       RetryService.unified_errors u <> []).
Proof.
  intros campaignId scheduledAt retryTtl w.
  destruct (validateUnifiedTtl_window retryTtl scheduledAt w)
    as (v & Hrun & Hiff & Hvalid & Hinvalid).
  assert (Hfixed : forall t s : Z,
             retryTtl = Instant t -> scheduledAt = Instant s ->
             fixedOffset (zone w) -> inRange s -> inRange (s + 28 * msPerDay) ->
             (isValid v = true
              <-> 24 * msPerHour <= t - s <= 28 * msPerDay /\ currentTime w < t)).
  { intros t s Et Es Hz Hs Hs28. subst retryTtl scheduledAt.
    rewrite Hiff. apply unifiedWindow_fixed; assumption. }
  unfold RetryService.createUnifiedTtlConfig, bind. rewrite Hrun.
  destruct (isValid v) eqn:Hv; cbn [negb]; eexists; (split; [reflexivity|]); cbn.
  - repeat split; auto; try discriminate; try apply Hiff; try (eapply Hfixed; eauto).
  - repeat split; auto; try discriminate; try apply Hiff; try (eapply Hfixed; eauto).
Qed.

(* ===================================================================== *)
(** * The store: configurations *)
(* ===================================================================== *)

Section Configurations.

Import CampaignService.

Lemma map_get_None (k : string) (m : RetryStates) :
  map_get k m = None <-> ~ In k (map fst m).
Proof.
  induction m as [|[k' v'] m IH]; cbn [map_get map fst In].
  - split; auto.
  - destruct (String.eqb_spec k' k) as [->|Hne].
    + split; [discriminate | intros H; exfalso; apply H; auto].
    + rewrite IH. split; [intros H [E|Hin]; auto | intros H Hin; apply H; auto].
Qed.

Lemma map_set_new (k : string) (v : CampaignRetryState) (m : RetryStates) :
  map_get k m = None -> map_set k v m = m ++ [(k, v)].
Proof.
  induction m as [|[k' v'] m IH]; cbn [map_get map_set app]; [reflexivity|].
  destruct (String.eqb k' k); [discriminate|].
  intros H. rewrite IH by exact H. reflexivity.
Qed.

Lemma map_get_set (k : string) (v : CampaignRetryState) (m : RetryStates) :
  map_get k (map_set k v m) = Some v.
Proof.
  induction m as [|[k' v'] m IH]; cbn [map_get map_set].
  - rewrite String.eqb_refl. reflexivity.
  - destruct (String.eqb k' k) eqn:E; cbn [map_get]; rewrite E; auto.
Qed.

Lemma map_set_NoDup (k : string) (v : CampaignRetryState) (m : RetryStates) :
  NoDup (map fst m) -> NoDup (map fst (map_set k v m)).
Proof.
  intros Hnd. destruct (map_get k m) as [v0|] eqn:E.
  - rewrite (map_set_keys k v v0) by exact E. exact Hnd.
  - rewrite map_set_new by exact E. rewrite map_app. cbn [map fst].
    apply NoDup_app_remove_l with (l := []). cbn [app].
    apply map_get_None in E.
    clear - Hnd E. induction (map fst m) as [|a l IH]; cbn [app].
    + constructor; [intros []|constructor].
    + inversion Hnd; subst. constructor.
      * rewrite in_app_iff. intros [Hin|[->|[]]]; [auto|]. apply E; left; reflexivity.
      * apply IH; [assumption|]. intros Hin; apply E; right; exact Hin.
Qed.

(** [setRetryConfig] as one replacement in the store. *)
Lemma setRetryConfig_run (id : string) (c : RetryTtlConfig) (w : World) :
  let expired := configExpired (currentTime w) c in
  let stored :=
    match map_get id (campaignRetryStates w) with
    | Some existingState => with_retryConfig c expired existingState
    | None => mkCampaignRetryState id c [] None None expired
    end in
  let w1 := match truthy (ttlDateTime c) with
            | Some _ => tick w
            | None => w
            end in
  setRetryConfig id c w
  = (Returns tt,
     mkWorld (clock w1) (reads w1) (console w1)
       (map_set id stored (campaignRetryStates w)) (intervals w1) (handles w1) (zone w1)).
Proof.
  unfold setRetryConfig, configExpired, RetryService.createRetryState, bind, getStates.
  destruct (map_get id (campaignRetryStates w)) as [st0|];
    destruct (truthy (ttlDateTime c)) as [ttl|]; reflexivity.
Qed.

(** X6. [setRetryConfig] followed by [getRetryState]: the call returns,
    and the state stored for the campaign carries the new configuration,
    with [isExpired] computed afresh from the new deadline at the time of the
    call (false when no deadline is set), whatever the flag was before.  For
    a campaign already in the store the attempts, [lastAttemptAt] and
    [nextAttemptAt] are kept and the entry stays where it is; for a new
    campaign the state has no attempts and no attempt times, and is added at
    the end.  The other campaigns, the timers and the console are untouched,
    and distinct keys stay distinct. *)
Theorem setRetryConfig_then_getRetryState :
  forall (id : string) (c : RetryTtlConfig) (w : World),
    exists (w' : World) (st : CampaignRetryState),
      setRetryConfig id c w = (Returns tt, w') /\
      getRetryState id w' = (Returns (Some st), w') /\
      retryConfig st = c /\
      isExpired st = configExpired (currentTime w) c /\
      (forall st0, map_get id (campaignRetryStates w) = Some st0 ->
                   campaignId st = campaignId st0 /\
                   attempts st = attempts st0 /\
                   lastAttemptAt st = lastAttemptAt st0 /\
                   nextAttemptAt st = nextAttemptAt st0 /\
                   map fst (campaignRetryStates w') = map fst (campaignRetryStates w)) /\
      (map_get id (campaignRetryStates w) = None ->
       st = mkCampaignRetryState id c [] None None (configExpired (currentTime w) c) /\
       campaignRetryStates w' = campaignRetryStates w ++ [(id, st)]) /\
      (forall other, other <> id ->
                     map_get other (campaignRetryStates w')
                     = map_get other (campaignRetryStates w)) /\
      (NoDup (map fst (campaignRetryStates w)) ->
       NoDup (map fst (campaignRetryStates w'))) /\
      intervals w' = intervals w /\
      console w' = console w.
Proof.
  intros id c w. rewrite setRetryConfig_run. cbv zeta.
  eexists; eexists. split; [reflexivity|].
  unfold getRetryState, bind, getStates, ret. cbn [campaignRetryStates].
  rewrite map_get_set. split; [reflexivity|].
  destruct (map_get id (campaignRetryStates w)) as [st0|] eqn:E.
  - split; [reflexivity|]. split; [reflexivity|].
    split.
    { intros st0' E'; inversion E'; subst st0'. cbn.
      repeat split. eapply map_set_keys; eauto. }
    split; [discriminate|].
    split; [intros other Hne; apply map_get_set_other; exact Hne|].
    split; [apply map_set_NoDup|].
    destruct (truthy (ttlDateTime c)); split; reflexivity.
  - split; [reflexivity|]. split; [reflexivity|].
    split; [discriminate|].
    split; [intros _; split; [reflexivity|apply map_set_new; exact E]|].
    split; [intros other Hne; apply map_get_set_other; exact Hne|].
    split; [apply map_set_NoDup|].
    destruct (truthy (ttlDateTime c)); split; reflexivity.
Qed.

(** [isRetryActive] as a lookup and one comparison. *)
Lemma isRetryActive_run (id : string) (w : World) :
  isRetryActive id w
  = match map_get id (campaignRetryStates w) with
    | None => (Returns false, w)
    | Some st =>
      if negb (enabled (retryConfig st)) then (Returns false, w)
      else match truthy (ttlDateTime (retryConfig st)) with
           | None => (Returns false, w)
           | Some ttl =>
             (Returns (negb (date_gt (Some (currentTime w)) (newDate ttl))), tick w)
           end
    end.
Proof.
  unfold isRetryActive, getRetryState, bind, getStates, ret.
  destruct (map_get id (campaignRetryStates w)) as [st|]; [|reflexivity].
  destruct (enabled (retryConfig st)); cbn [negb]; [|reflexivity].
  destruct (truthy (ttlDateTime (retryConfig st))); reflexivity.
Qed.

(** X7. [isRetryActive] returns a boolean and leaves the store as it is.
    The answer is [true] exactly when the campaign has a state whose retry is
    enabled and whose deadline is set and has not passed at the time of the
    call.  The stored flag [isExpired] plays no part in the answer, and a
    deadline that does not parse never passes. *)
Theorem isRetryActive_spec :
  forall (id : string) (w : World),
    exists (b : bool) (w' : World),
      isRetryActive id w = (Returns b, w') /\
      campaignRetryStates w' = campaignRetryStates w /\
      (b = true <->
       exists st ttl,
         map_get id (campaignRetryStates w) = Some st /\
         enabled (retryConfig st) = true /\
         truthy (ttlDateTime (retryConfig st)) = Some ttl /\
         ~ isAfter (currentTime w) ttl) /\
      (forall st flag,
          map_get id (campaignRetryStates w) = Some st ->
          fst (isRetryActive id
                 (mkWorld (clock w) (reads w) (console w)
                    (map_set id (with_isExpired flag st) (campaignRetryStates w))
                    (intervals w) (handles w) (zone w)))
          = Returns b) /\
      (forall st text,
          map_get id (campaignRetryStates w) = Some st ->
          enabled (retryConfig st) = true ->
          truthy (ttlDateTime (retryConfig st)) = Some (Unparsable text) ->
          b = true).
Proof.
  intros id w. rewrite isRetryActive_run.
  destruct (map_get id (campaignRetryStates w)) as [st|] eqn:E.
  2:{ exists false, w. split; [reflexivity|]. split; [reflexivity|].
      split; [split; [discriminate|intros (st & ttl & H & _); discriminate]|].
      split; intros; discriminate. }
  assert (Hflag : forall flag b',
             (if negb (enabled (retryConfig st)) then Returns false
              else match truthy (ttlDateTime (retryConfig st)) with
                   | None => Returns false
                   | Some ttl =>
                     Returns (negb (date_gt (Some (currentTime w)) (newDate ttl)))
                   end) = Returns b' ->
             fst (isRetryActive id
                    (mkWorld (clock w) (reads w) (console w)
                       (map_set id (with_isExpired flag st) (campaignRetryStates w))
                       (intervals w) (handles w) (zone w)))
             = Returns b').
  { intros flag b' Hb. rewrite isRetryActive_run. cbn [campaignRetryStates].
    rewrite map_get_set. cbn [with_isExpired retryConfig].
    rewrite <- Hb. unfold currentTime. cbn [clock reads].
    destruct (negb (enabled (retryConfig st))); [reflexivity|].
    destruct (truthy (ttlDateTime (retryConfig st))); reflexivity. }
  destruct (enabled (retryConfig st)) eqn:He; cbn [negb] in *.
  2:{ exists false, w. split; [reflexivity|]. split; [reflexivity|].
      split; [split; [discriminate|]|].
      - intros (st' & ttl & H & He' & _). congruence.
      - split; [intros st' flag E'; inversion E'; subst; apply Hflag; reflexivity|].
        intros st' text E' He'. congruence. }
  destruct (truthy (ttlDateTime (retryConfig st))) as [ttl|] eqn:Ht.
  2:{ exists false, w. split; [reflexivity|]. split; [reflexivity|].
      split; [split; [discriminate|]|].
      - intros (st' & ttl & H & _ & Ht' & _). congruence.
      - split; [intros st' flag E'; inversion E'; subst; apply Hflag; reflexivity|].
        intros st' text E' _ Ht'. congruence. }
  eexists; exists (tick w). split; [reflexivity|]. split; [reflexivity|].
  split; [|split].
  - rewrite negb_true_iff, date_gt_not_isAfter. split.
    + intros H. exists st, ttl. auto.
    + intros (st' & ttl' & E' & _ & Ht' & H). congruence.
  - intros st' flag E'; inversion E'; subst; apply Hflag; reflexivity.
  - intros st' text E' _ Ht'. inversion E'; subst st'.
    rewrite Ht in Ht'. inversion Ht'; subst ttl. reflexivity.
Qed.

End Configurations.

(* ===================================================================== *)
(** * Active campaigns and due campaigns *)
(* ===================================================================== *)

Section Activity.

Import CampaignService.

Lemma later_refl (w : World) : later w w.
Proof. split; auto. Qed.

Lemma later_trans (w1 w2 w3 : World) : later w1 w2 -> later w2 w3 -> later w1 w3.
Proof. intros [C1 R1] [C2 R2]. split; [congruence|lia]. Qed.

Lemma later_tick (w : World) : later w (tick w).
Proof. split; cbn; auto. Qed.

Lemma frozenAt_later (t : Z) (w w' : World) : frozenAt t w -> later w w' -> frozenAt t w'.
Proof.
  intros Hf [Hc Hr] n Hn. rewrite Hc. apply Hf. lia.
Qed.

Lemma setRetryConfig_later (id : string) (c : RetryTtlConfig) (w : World) :
  later w (snd (setRetryConfig id c w)).
Proof.
  rewrite setRetryConfig_run. cbv zeta. cbn [snd].
  destruct (truthy (ttlDateTime c)); split; cbn; auto.
Qed.

(** X8. A valid unified configuration, installed with [setRetryConfig]
    while no time passes, gives a campaign that is active: the stored state
    carries the configuration, is not marked expired, and [isRetryActive]
    answers [true]. *)
Theorem valid_unified_config_activates :
  forall (id : string) (scheduledAt retryTtl : DateString) (w : World) (t : Z)
         (u : RetryService.UnifiedTtlConfig),
    frozenAt t w ->
    fst (RetryService.createUnifiedTtlConfig id scheduledAt retryTtl w) = Returns u ->
    RetryService.unified_isValid u = true ->
    let w1 := snd (RetryService.createUnifiedTtlConfig id scheduledAt retryTtl w) in
    let w2 := snd (setRetryConfig id (RetryService.retryEngineConfig u) w1) in
    (exists st,
        map_get id (campaignRetryStates w2) = Some st /\
        retryConfig st = mkRetryTtlConfig true (Some retryTtl) (Some scheduledAt)
                           true true true /\
        isExpired st = false) /\
    fst (isRetryActive id w2) = Returns true.
Proof.
  intros id scheduledAt retryTtl w t u Hf Hu Hvalid.
  destruct (validateUnifiedTtl_window retryTtl scheduledAt w)
    as (v & Hrun & Hiff & _ & _).
  assert (Hc : RetryService.createUnifiedTtlConfig id scheduledAt retryTtl w
               = (Returns u, tick w) /\ isValid v = true /\
                 RetryService.retryEngineConfig u
                 = mkRetryTtlConfig true (Some retryTtl) (Some scheduledAt)
                     true true true).
  { revert Hu. unfold RetryService.createUnifiedTtlConfig, bind. rewrite Hrun.
    destruct (isValid v); cbn [negb fst ret]; intros Hu; inversion Hu; subst u;
      [auto|discriminate]. }
  destruct Hc as (Hc & Hv & Hcfg). rewrite Hc, Hcfg. cbn [snd].
  set (w1 := tick w).
  set (w2 := snd (setRetryConfig id _ w1)).
  destruct (proj1 Hiff Hv) as (tt' & s & -> & -> & Hb & Hnow).
  rewrite (frozenAt_currentTime t w Hf) in Hnow.
  assert (Hf1 : frozenAt t w1) by (apply frozenAt_tick; exact Hf).
  assert (Hf2 : frozenAt t w2).
  { eapply frozenAt_later; [exact Hf1|]. apply setRetryConfig_later. }
  assert (Hstore : exists st,
             map_get id (campaignRetryStates w2) = Some st /\
             retryConfig st = mkRetryTtlConfig true (Some (Instant tt'))
                                (Some (Instant s)) true true true /\
             isExpired st = false).
  { subst w2. rewrite setRetryConfig_run. cbv zeta. cbn [snd campaignRetryStates].
    rewrite map_get_set. eexists. split; [reflexivity|].
    assert (He : configExpired (currentTime w1)
                   (mkRetryTtlConfig true (Some (Instant tt')) (Some (Instant s))
                      true true true) = false).
    { unfold configExpired. cbn [ttlDateTime truthy newDate date_gt].
      rewrite (frozenAt_currentTime t w1 Hf1). apply Z.ltb_ge. lia. }
    rewrite He.
    destruct (map_get id (campaignRetryStates w1)); split; reflexivity. }
  split; [exact Hstore|].
  destruct Hstore as (st & Hget & Hst & _).
  rewrite isRetryActive_run, Hget, Hst. cbn [enabled negb ttlDateTime truthy fst newDate].
  rewrite (frozenAt_currentTime t w2 Hf2). cbn [date_gt].
  replace (tt' <? t) with false; [reflexivity|]. symmetry. apply Z.ltb_ge. lia.
Qed.

(** X9. A campaign without a deadline that is enabled, not marked
    expired and has its next attempt due: the scan returns it for retry,
    although [isRetryActive] answers [false] for it and
    [processRetryAttempt] answers 'Retry TTL has expired'.  (No time passes
    during the scan.) *)
Theorem due_without_deadline_is_not_active :
  forall (w : World) (t : Z) (id : string) (st : CampaignRetryState),
    frozenAt t w ->
    map_get id (campaignRetryStates w) = Some st ->
    enabled (retryConfig st) = true ->
    isExpired st = false ->
    truthy (ttlDateTime (retryConfig st)) = None ->
    nextAttemptDue t st = true ->
    exists due w',
      getCampaignsForRetry w = (Returns due, w') /\
      In (id, st) due /\
      map_get id (campaignRetryStates w') = Some st /\
      (forall w2, campaignRetryStates w2 = campaignRetryStates w' ->
                  isRetryActive id w2 = (Returns false, w2)) /\
      (forall errorCode w2,
          RetryService.processRetryAttempt id errorCode st w2
          = (Returns (mkRetryDecision false None TtlExpired), w2)).
Proof.
  intros w t id st Hf Hget He Hx Ht Hdue.
  destruct (getCampaignsForRetry_frozen t w Hf) as (w' & Hrun & Hstore).
  assert (Hel : eligible t (id, st) = true).
  { unfold eligible, ttlPassed. cbn [snd]. rewrite He, Hx, Ht, Hdue. reflexivity. }
  assert (Hin : In (id, st) (campaignRetryStates w)).
  { clear - Hget. induction (campaignRetryStates w) as [|[k v] m IH];
      cbn [map_get] in Hget; [discriminate|].
    destruct (String.eqb_spec k id) as [->|Hne].
    - inversion Hget; left; reflexivity.
    - right; auto. }
  assert (Hget' : map_get id (campaignRetryStates w') = Some st).
  { rewrite Hstore. clear - Hget Ht.
    induction (campaignRetryStates w) as [|[k v] m IH];
      cbn [map_get map] in *; [discriminate|].
    unfold markExpired at 1. unfold newlyExpired. cbn [fst snd].
    destruct (String.eqb k id) eqn:E.
    - inversion Hget; subst v. unfold ttlPassed. rewrite Ht.
      rewrite andb_false_r. cbn [map_get]. rewrite E. reflexivity.
    - destruct (_ && _); cbn [map_get]; rewrite E; auto. }
  exists (filter (eligible t) (campaignRetryStates w)), w'.
  split; [exact Hrun|]. split; [apply filter_In; auto|]. split; [exact Hget'|].
  split.
  - intros w2 Hw2. rewrite isRetryActive_run, Hw2, Hget', He, Ht. reflexivity.
  - intros errorCode w2. unfold RetryService.processRetryAttempt.
    rewrite He, Ht. reflexivity.
Qed.

End Activity.

(* ===================================================================== *)
(** * Statistics and the engine's status *)
(* ===================================================================== *)

Section Statistics.

Import CampaignService.

Lemma countStatus_partition (l : list RetryAttempt) :
  List.length l
  = (RetryService.countStatus completed l + RetryService.countStatus failed l
     + RetryService.countStatus pending l + RetryService.countStatus skipped l)%nat.
Proof.
  unfold RetryService.countStatus.
  induction l as [|a l IH]; [reflexivity|].
  cbn [filter List.length]. destruct (status a); cbn [RetryService.status_eqb List.length]; lia.
Qed.

Lemma getRetryStats_run (st : CampaignRetryState) (w : World) :
  let counted :=
    RetryService.mkRetryStats (List.length (attempts st))
      (RetryService.countStatus completed (attempts st))
      (RetryService.countStatus failed (attempts st))
      (RetryService.countStatus pending (attempts st)) (isExpired st) in
  RetryService.getRetryStats st w
  = match truthy (ttlDateTime (retryConfig st)) with
    | Some ttl =>
      if isExpired st then (Returns (counted None), w)
      else (Returns (counted (Some (RetryService.minusTime (newDate ttl)
                                      (Some (currentTime w))))), tick w)
    | None => (Returns (counted None), w)
    end.
Proof.
  unfold RetryService.getRetryStats.
  destruct (truthy (ttlDateTime (retryConfig st))); [|reflexivity].
  destruct (isExpired st); reflexivity.
Qed.

(** X10. [getRetryStats] returns and leaves the store as it is.  The
    total is the number of recorded attempts, and it is the sum of the
    completed, failed and pending counts and the number of skipped attempts;
    [isExpired] repeats the stored flag.  [timeToExpiry] is undefined exactly
    when no deadline is set or the stored flag is set; otherwise it is the
    deadline minus the time of the call, in milliseconds (negative when the
    deadline has passed but the flag is not yet set), and NaN when the
    deadline does not parse. *)
Theorem getRetryStats_spec :
  forall (st : CampaignRetryState) (w : World),
    exists (s : RetryService.RetryStats) (w' : World),
      RetryService.getRetryStats st w = (Returns s, w') /\
      campaignRetryStates w' = campaignRetryStates w /\
      RetryService.totalAttempts s = List.length (attempts st) /\
      RetryService.totalAttempts s
      = (RetryService.successfulAttempts s + RetryService.failedAttempts s
         + RetryService.pendingAttempts s
         + RetryService.countStatus skipped (attempts st))%nat /\
      RetryService.stats_isExpired s = isExpired st /\
      (RetryService.timeToExpiry s = None <->
       truthy (ttlDateTime (retryConfig st)) = None \/ isExpired st = true) /\
      (forall ttl, truthy (ttlDateTime (retryConfig st)) = Some (Instant ttl) ->
                   isExpired st = false ->
                   RetryService.timeToExpiry s = Some (Some (ttl - currentTime w))) /\
      (forall text, truthy (ttlDateTime (retryConfig st)) = Some (Unparsable text) ->
                    isExpired st = false ->
                    RetryService.timeToExpiry s = Some None).
Proof.
  intros st w. rewrite getRetryStats_run. cbv zeta.
  pose proof (countStatus_partition (attempts st)) as Hsum.
  destruct (truthy (ttlDateTime (retryConfig st))) as [ttl|];
    [destruct (isExpired st)|];
    eexists; eexists; (split; [reflexivity|]); cbn;
    (split; [reflexivity|]); (split; [reflexivity|]); (split; [exact Hsum|]);
    (split; [reflexivity|]).
  - split; [split; auto|]. split; intros; discriminate.
  - split; [split; [discriminate|intros [H|H]; discriminate]|].
    split; intros x Hx _; inversion Hx; reflexivity.
  - split; [split; auto|]. split; intros; discriminate.
Qed.

Lemma getRetryStats_counts (st : CampaignRetryState) (w : World) :
  exists s w1,
    RetryService.getRetryStats st w = (Returns s, w1) /\
    campaignRetryStates w1 = campaignRetryStates w /\
    intervals w1 = intervals w /\ console w1 = console w /\
    later w w1 /\
    RetryService.totalAttempts s = List.length (attempts st) /\
    RetryService.stats_isExpired s = isExpired st.
Proof.
  rewrite getRetryStats_run. cbv zeta.
  destruct (truthy (ttlDateTime (retryConfig st))); [destruct (isExpired st)|];
    eexists; eexists; (split; [reflexivity|]);
    (split; [reflexivity|]); (split; [reflexivity|]); (split; [reflexivity|]);
    (split; [first [apply later_refl | apply later_tick]|]);
    split; reflexivity.
Qed.

Lemma assign_own (key id : string) (s : RetryService.RetryStats) (acc : StatsObject) :
  id <> "__proto__" ->
  own (assign key s acc) id = if String.eqb id key then Some s else own acc id.
Proof.
  intros Hid. unfold assign.
  destruct (String.eqb_spec key "__proto__") as [->|Hk]; cbn [own]; [|reflexivity].
  destruct (String.eqb_spec id "__proto__"); [contradiction|reflexivity].
Qed.

Lemma assign_own_proto (key : string) (s : RetryService.RetryStats) (acc : StatsObject) :
  own (assign key s acc) "__proto__" = own acc "__proto__".
Proof.
  unfold assign.
  destruct (String.eqb_spec key "__proto__") as [->|Hk]; cbn [own]; [reflexivity|].
  destruct (String.eqb_spec "__proto__" key); [congruence|reflexivity].
Qed.

Lemma assign_prototypeOf (key : string) (s : RetryService.RetryStats) (acc : StatsObject) :
  prototypeOf (assign key s acc)
  = if String.eqb key "__proto__" then Some s else prototypeOf acc.
Proof. unfold assign. destruct (String.eqb key "__proto__"); reflexivity. Qed.

(** The [forEach] of [getRetryStatistics] from the object [acc] on. *)
Lemma forEachRetryStats_run (entries : RetryStates) (acc : StatsObject) (w : World) :
  exists stats w',
    forEachRetryStats entries acc w = (Returns stats, w') /\
    campaignRetryStates w' = campaignRetryStates w /\
    intervals w' = intervals w /\
    console w' = console w /\
    later w w' /\
    own stats "__proto__" = own acc "__proto__" /\
    (NoDup (map fst entries) ->
     (forall id, id <> "__proto__" ->
                 match map_get id entries with
                 | Some st => recordOf st (own stats id)
                 | None => own stats id = own acc id
                 end) /\
     match map_get "__proto__" entries with
     | Some st => recordOf st (prototypeOf stats)
     | None => prototypeOf stats = prototypeOf acc
     end).
Proof.
  revert acc w. induction entries as [|[k st] rest IH]; intros acc w.
  - exists acc, w. repeat split; auto using later_refl.
  - cbn [forEachRetryStats]. unfold bind at 1.
    destruct (getRetryStats_counts st w)
      as (s & w1 & E1 & Hs1 & Hi1 & Hc1 & Hl1 & Ht & Hx).
    rewrite E1.
    destruct (IH (assign k s acc) w1) as (stats & w' & E2 & Hs2 & Hi2 & Hc2 & Hl2 & Hp & Hm).
    rewrite E2. exists stats, w'. split; [reflexivity|].
    split; [congruence|]. split; [congruence|]. split; [congruence|].
    split; [eapply later_trans; eauto|].
    split; [rewrite Hp; apply assign_own_proto|].
    cbn [map fst]. intros Hnd. inversion Hnd as [|? ? Hnotin Hnd']; subst.
    destruct (Hm Hnd') as [Hown Hproto].
    apply map_get_None in Hnotin.
    split.
    + intros id Hid. specialize (Hown id Hid). cbn [map_get].
      destruct (String.eqb_spec k id) as [->|Hne].
      * rewrite Hnotin in Hown. rewrite Hown, assign_own by exact Hid.
        rewrite String.eqb_refl. exists s. auto.
      * destruct (map_get id rest); [exact Hown|].
        rewrite Hown, assign_own by exact Hid.
        destruct (String.eqb_spec id k); [congruence|reflexivity].
    + cbn [map_get]. destruct (String.eqb_spec k "__proto__") as [->|Hne].
      * rewrite Hnotin in Hproto. rewrite Hproto, assign_prototypeOf.
        cbn. exists s. auto.
      * destruct (map_get "__proto__" rest); [exact Hproto|].
        rewrite Hproto, assign_prototypeOf.
        destruct (String.eqb_spec k "__proto__"); [congruence|reflexivity].
Qed.

(** X11. [getStatus] is not a read-only query: while no time passes, it
    returns and leaves in the store the entries as a scan leaves them, with
    [isExpired] set on every enabled entry whose deadline has passed and that
    was not marked before.  [pendingRetries] is the number of all eligible
    entries (it is not limited by [maxConcurrentRetries]).  The statistics
    are an object read by key: with distinct keys in the store, for every
    key of the store other than '__proto__' it has a property of its own
    with the number of attempts and with the flag as the scan of this call
    has left it; it has no property of its own under a key that the store
    does not have, and none under '__proto__', where the record of such a
    campaign becomes the prototype of the object instead.  The running flag
    and the configuration are the engine's; timers and console are
    untouched. *)
Theorem getStatus_scans_the_store :
  forall (this : RetryEngine.Engine) (w : World) (t : Z),
    frozenAt t w ->
    NoDup (map fst (campaignRetryStates w)) ->
    exists (status : RetryEngine.EngineStatus) (w' : World),
      RetryEngine.getStatus this w = (Returns status, w') /\
      RetryEngine.status_isRunning status = RetryEngine.isRunning this /\
      RetryEngine.status_config status = RetryEngine.config this /\
      RetryEngine.pendingRetries status
      = List.length (filter (eligible t) (campaignRetryStates w)) /\
      campaignRetryStates w' = map (markExpired t) (campaignRetryStates w) /\
      (forall id st,
          id <> "__proto__" ->
          map_get id (campaignRetryStates w') = Some st ->
          recordOf st (own (RetryEngine.retryStatistics status) id)) /\
      (forall id,
          map_get id (campaignRetryStates w') = None ->
          own (RetryEngine.retryStatistics status) id = None) /\
      own (RetryEngine.retryStatistics status) "__proto__" = None /\
      (forall st,
          map_get "__proto__" (campaignRetryStates w') = Some st ->
          recordOf st (prototypeOf (RetryEngine.retryStatistics status))) /\
      intervals w' = intervals w /\
      console w' = console w.
Proof.
  intros this w t Hf Hnd.
  destruct (getCampaignsForRetry_frozen t w Hf) as (w1 & Hrun & Hstore).
  assert (Hi1 : intervals w1 = intervals w).
  { pose proof (getCampaignsForRetry_intervals w) as H. rewrite Hrun in H. exact H. }
  assert (Hnd1 : NoDup (map fst (campaignRetryStates w1))).
  { rewrite Hstore, map_map.
    replace (map (fun x => fst (markExpired t x)) (campaignRetryStates w))
      with (map fst (campaignRetryStates w)); [exact Hnd|].
    apply map_ext. intros e. unfold markExpired.
    destruct (newlyExpired t e); reflexivity. }
  unfold RetryEngine.getStatus. unfold bind at 1. rewrite Hrun.
  unfold bind at 1. unfold getRetryStatistics, bind at 1, getStates.
  destruct (forEachRetryStats_run (campaignRetryStates w1) emptyObject w1)
    as (stats & w' & E & Hs & Hi & Hc & _ & Hp & Hm).
  destruct (Hm Hnd1) as [Hown Hproto].
  rewrite E. eexists; eexists. split; [reflexivity|].
  cbn [RetryEngine.status_isRunning RetryEngine.status_config
       RetryEngine.pendingRetries RetryEngine.retryStatistics snd].
  split; [reflexivity|]. split; [reflexivity|]. split; [reflexivity|].
  split; [congruence|].
  rewrite Hs.
  split.
  { intros id st Hid Hget. specialize (Hown id Hid). rewrite Hget in Hown. exact Hown. }
  split.
  { intros id Hget. destruct (String.eqb_spec id "__proto__") as [->|Hid].
    - rewrite Hp. reflexivity.
    - specialize (Hown id Hid). rewrite Hget in Hown. rewrite Hown. reflexivity. }
  split; [rewrite Hp; reflexivity|].
  split.
  { intros st Hget. rewrite Hget in Hproto. exact Hproto. }
  split; [congruence|].
  rewrite Hc. pose proof (getCampaignsForRetry_console w) as H.
  rewrite Hrun in H. exact H.
Qed.

End Statistics.

(* ===================================================================== *)
(** * What the engine and the services keep *)
(* ===================================================================== *)

Section Invariants.

Import CampaignService RetryEngine.

Lemma continues_refl e : continues e e.
Proof. repeat split. exists []. rewrite app_nil_r. reflexivity. Qed.

Lemma continues_trans e1 e2 e3 : continues e1 e2 -> continues e2 e3 -> continues e1 e3.
Proof.
  intros (K1 & C1 & R1 & m1 & A1) (K2 & C2 & R2 & m2 & A2).
  repeat split; try congruence.
  exists (m1 ++ m2). rewrite A2, A1, app_assoc. reflexivity.
Qed.

Lemma grows_refl s : grows s s.
Proof. induction s; constructor; auto using continues_refl. Qed.

Lemma grows_trans s1 s2 s3 : grows s1 s2 -> grows s2 s3 -> grows s1 s3.
Proof.
  unfold grows. intros H12. revert s3.
  induction H12 as [|e1 e2 s1 s2 He _ IH]; intros s3 H23; inversion H23; subst;
    constructor; [eapply continues_trans; eauto|apply IH; assumption].
Qed.

Lemma grows_keys s s' : grows s s' -> map fst s' = map fst s.
Proof.
  induction 1 as [|e e' s s' (K & _) _ IH]; cbn [map]; [reflexivity|]. congruence.
Qed.

Lemma grows_map_get s s' id st :
  grows s s' -> map_get id s = Some st ->
  exists st', map_get id s' = Some st' /\ continues (id, st) (id, st').
Proof.
  induction 1 as [|[k v] [k' v'] s s' Hc _ IH]; cbn [map_get]; [discriminate|].
  destruct Hc as (K & C & R & A). cbn [fst snd] in *. subst k'.
  destruct (String.eqb k id); [|exact IH].
  intros E; inversion E; subst v. exists v'. repeat split; auto.
Qed.

Lemma grows_wellKeyed s s' : grows s s' -> wellKeyed s -> wellKeyed s'.
Proof.
  intros Hg [Hnd Hk]. split.
  - rewrite (grows_keys _ _ Hg). exact Hnd.
  - clear Hnd. induction Hg as [|e e' s s' (K & C & _) _ IH]; constructor;
      inversion Hk; subst; [congruence|auto].
Qed.

(** Replacing the state of a key by a continuation. *)
Lemma map_set_grows id st v s :
  map_get id s = Some st -> continues (id, st) (id, v) -> grows s (map_set id v s).
Proof.
  induction s as [|[k v0] s IH]; cbn [map_get map_set]; [discriminate|].
  destruct (String.eqb_spec k id) as [->|Hne].
  - intros E Hc; inversion E; subst v0. constructor; [exact Hc|apply grows_refl].
  - intros E Hc. constructor; [apply continues_refl|apply IH; assumption].
Qed.

Lemma marked_continues e e' : marked e e' -> continues e e'.
Proof. intros [->| ->]; [apply continues_refl|]. repeat split. exists []. cbn. rewrite app_nil_r. reflexivity. Qed.

(** The scan leaves every entry as it was or marks it expired. *)
Lemma forEachRetryState_marked (now : Date) (entries : RetryStates) (w : World) :
  exists due after w',
    forEachRetryState now entries w = (Returns (due, after), w') /\
    Forall2 marked entries after /\
    (forall e, In e due ->
               In e entries /\
               exists next, truthy (nextAttemptAt (snd e)) = Some next).
Proof.
  revert w. induction entries as [|[id st] rest IH]; intros w.
  - exists [], [], w. split; [reflexivity|]. split; [constructor|intros e []].
  - cbn [forEachRetryState]. unfold bind at 1.
    assert (Hv : exists pushed after1 w1,
               visitRetryState now id st w = (Returns (pushed, after1), w1) /\
               marked (id, st) (id, after1) /\
               (forall e, pushed = Some e ->
                          e = (id, st) /\
                          exists next, truthy (nextAttemptAt st) = Some next)).
    { rewrite visitRetryState_run. cbv zeta.
      destruct (negb (enabled (retryConfig st)) || isExpired st).
      - eexists; eexists; eexists. split; [reflexivity|].
        split; [left; reflexivity|discriminate].
      - assert (Hp : forall e,
                   match truthy (nextAttemptAt st) with
                   | Some next =>
                     if date_ge now (newDate next) then Some (id, st) else None
                   | None => None
                   end = Some e ->
                   e = (id, st) /\ exists next, truthy (nextAttemptAt st) = Some next).
        { intros e. destruct (truthy (nextAttemptAt st)) as [next|]; [|discriminate].
          destruct (date_ge now (newDate next)); [|discriminate].
          intros E; inversion E. eauto. }
        destruct (truthy (ttlDateTime (retryConfig st))) as [ttl|].
        + destruct (date_gt (Some (currentTime w)) (newDate ttl)).
          * eexists; eexists; eexists. split; [reflexivity|].
            split; [right; reflexivity|discriminate].
          * eexists; eexists; eexists. split; [reflexivity|].
            split; [left; reflexivity|exact Hp].
        + eexists; eexists; eexists. split; [reflexivity|].
          split; [left; reflexivity|exact Hp]. }
    destruct Hv as (pushed & after1 & w1 & E1 & Hm1 & Hp1). rewrite E1.
    unfold bind at 1.
    destruct (IH w1) as (due & after & w' & E2 & Hm & Hd). rewrite E2.
    cbn [ret fst snd]. eexists; eexists; eexists. split; [reflexivity|].
    split; [constructor; assumption|].
    intros e Hin. destruct pushed as [e0|].
    + destruct Hin as [<-|Hin].
      * destruct (Hp1 e0 eq_refl) as [-> Hn]. split; [left; reflexivity|exact Hn].
      * destruct (Hd e Hin) as [Hin' Hn]. split; [right; exact Hin'|exact Hn].
    + destruct (Hd e Hin) as [Hin' Hn]. split; [right; exact Hin'|exact Hn].
Qed.

Lemma getCampaignsForRetry_marked (w : World) :
  exists due w',
    getCampaignsForRetry w = (Returns due, w') /\
    Forall2 marked (campaignRetryStates w) (campaignRetryStates w') /\
    (forall e, In e due ->
               In e (campaignRetryStates w) /\
               exists next, truthy (nextAttemptAt (snd e)) = Some next).
Proof.
  rewrite getCampaignsForRetry_unfold.
  destruct (forEachRetryState_marked (Some (currentTime w)) (campaignRetryStates w)
              (tick w)) as (due & after & w' & E & Hm & Hd).
  rewrite E. exists due. eexists. split; [reflexivity|]. split; [exact Hm|exact Hd].
Qed.

Lemma getCampaignsForRetry_grows : relates grows getCampaignsForRetry.
Proof.
  intros w. destruct (getCampaignsForRetry_marked w) as (due & w' & E & Hm & _).
  rewrite E. cbn [snd]. unfold grows.
  induction Hm; constructor; auto using marked_continues.
Qed.

Lemma updateRetryAttempt_grows id a : relates grows (updateRetryAttempt id a).
Proof.
  intros w. destruct (map_get id (campaignRetryStates w)) as [st|] eqn:E.
  - destruct (updateRetryAttempt_stored id a w st E) as (u & w0 & w'' & Hrun & Hup & Hs).
    rewrite Hup. cbn [snd]. rewrite Hs.
    apply (map_set_grows id st); [exact E|].
    rewrite updateRetryState_run in Hrun. inversion Hrun; subst u.
    repeat split. cbn. eauto.
  - rewrite updateRetryAttempt_unfold, E. apply grows_refl.
Qed.

Lemma assignNextAttemptAt_grows id next : relates grows (assignNextAttemptAt id next).
Proof.
  intros w. unfold assignNextAttemptAt, getRetryState, bind, getStates. cbn [ret].
  destruct (map_get id (campaignRetryStates w)) as [st|] eqn:E.
  - cbn [putStates snd campaignRetryStates].
    apply (map_set_grows id st); [exact E|].
    repeat split. exists []. cbn. rewrite app_nil_r. reflexivity.
  - apply grows_refl.
Qed.

Lemma setInterval_states : preserves campaignRetryStates setInterval.
Proof. intros w; reflexivity. Qed.
Lemma clearInterval_states h : preserves campaignRetryStates (clearInterval h).
Proof. intros w; reflexivity. Qed.
#[local] Hint Resolve setInterval_states clearInterval_states : frame.

Lemma start_states this : preserves campaignRetryStates (start this).
Proof. unfold start. frame. Qed.
Lemma stop_states this : preserves campaignRetryStates (stop this).
Proof. unfold stop. frame. Qed.

Ltac grow :=
  repeat first
    [ apply getCampaignsForRetry_grows
    | apply updateRetryAttempt_grows
    | apply assignNextAttemptAt_grows
    | solve [apply (relates_preserves grows grows_refl); frame]
    | apply (relates_bind grows grows_trans); [|intros ?]
    | apply (relates_try_catch grows grows_trans); [|intros ?]
    | progress cbv zeta
    | match goal with
      | |- relates _ (if ?c then _ else _) => destruct c
      | |- relates _ (match ?x with _ => _ end) => destruct x
      end ].

Lemma forEach_call_states this batch :
  preserves campaignRetryStates (forEach (executeCampaignRetry_call this) batch).
Proof. apply forEach_preserves. intros a. unfold executeCampaignRetry_call. frame. Qed.
#[local] Hint Resolve forEach_call_states : frame.

Lemma processRetries_call_grows this : relates grows (processRetries_call this).
Proof. unfold processRetries_call. grow. Qed.

Lemma executeCampaignRetry_resume_grows this id st r :
  relates grows (executeCampaignRetry_resume this id st r).
Proof. unfold executeCampaignRetry_resume. grow. Qed.

Lemma step_grows (e : Event) (s : Scheduler) :
  grows (campaignRetryStates (world s)) (campaignRetryStates (world (step e s))).
Proof.
  destruct e as [| | |h|r]; cbn [step].
  - pose proof (start_states (engine s) (world s)) as H.
    destruct (start (engine s) (world s)) as [[this|err] w']; cbn [world snd] in *;
      rewrite H; apply grows_refl.
  - pose proof (stop_states (engine s) (world s)) as H.
    destruct (stop (engine s) (world s)) as [[this|err] w']; cbn [world snd] in *;
      rewrite H; apply grows_refl.
  - destruct (isRunning (engine s)); [|apply grows_refl].
    unfold beginTick. pose proof (processRetries_call_grows (engine s) (world s)) as H.
    destruct (processRetries_call (engine s) (world s)) as [[[|b bs]|err] w'];
      exact H.
  - destruct (existsb (Nat.eqb h) (intervals (world s))); [|apply grows_refl].
    unfold beginTick. pose proof (processRetries_call_grows (engine s) (world s)) as H.
    destruct (processRetries_call (engine s) (world s)) as [[[|b bs]|err] w'];
      exact H.
  - destruct (inProgress s) as [|[|[id st] remaining] older]; try apply grows_refl.
    cbn [world]. apply executeCampaignRetry_resume_grows.
Qed.

Lemma run_grows (es : list Event) (s : Scheduler) :
  grows (campaignRetryStates (world s)) (campaignRetryStates (world (run es s))).
Proof.
  revert s. induction es as [|e es IH]; intros s; cbn [run]; [apply grows_refl|].
  eapply grows_trans; [apply step_grows|apply IH].
Qed.

(** X12. Whatever events the engine goes through (start, stop, trigger,
    timer fires, executions that resolve, in any order and number), the
    store keeps its keys in their order, and every campaign keeps its id and
    its retry configuration; the attempts recorded before are still there, in
    the same order, followed by the new ones.  The engine never adds or
    removes a campaign and never edits a configuration or a recorded
    attempt. *)
Theorem engine_keeps_campaigns_and_configurations :
  forall (es : list Event) (s : Scheduler),
    let s' := run es s in
    map fst (campaignRetryStates (world s')) = map fst (campaignRetryStates (world s)) /\
    (forall id st,
        map_get id (campaignRetryStates (world s)) = Some st ->
        exists st' more,
          map_get id (campaignRetryStates (world s')) = Some st' /\
          campaignId st' = campaignId st /\
          retryConfig st' = retryConfig st /\
          attempts st' = attempts st ++ more) /\
    (forall id,
        map_get id (campaignRetryStates (world s)) = None ->
        map_get id (campaignRetryStates (world s')) = None).
Proof.
  intros es s s'. pose proof (run_grows es s) as Hg. fold s' in Hg.
  split; [apply grows_keys; exact Hg|]. split.
  - intros id st Hget.
    destruct (grows_map_get _ _ _ _ Hg Hget) as (st' & Hget' & _ & C & R & more & A).
    exists st', more. auto.
  - intros id Hnone. apply map_get_None. apply map_get_None in Hnone.
    rewrite (grows_keys _ _ Hg). exact Hnone.
Qed.

End Invariants.

(* ===================================================================== *)
(** * Calls from outside and engine events together *)
(* ===================================================================== *)

Section Reachable.

Import CampaignService RetryEngine.

Lemma Forall_map_set (P : string * CampaignRetryState -> Prop) (k : string)
    (v : CampaignRetryState) (m : RetryStates) :
  Forall P m -> P (k, v) -> Forall P (map_set k v m).
Proof.
  intros Hm Hv. induction Hm as [|[k' v'] m Hp Hm IH]; cbn [map_set].
  - constructor; [exact Hv|constructor].
  - destruct (String.eqb_spec k' k) as [->|Hne]; constructor; auto.
Qed.

Lemma Forall_map_get (P : string * CampaignRetryState -> Prop) (k : string)
    (v : CampaignRetryState) (m : RetryStates) :
  Forall P m -> map_get k m = Some v -> P (k, v).
Proof.
  intros Hm Hget. apply map_get_In_pair in Hget.
  rewrite Forall_forall in Hm. apply Hm. exact Hget.
Qed.

Lemma isRetryActive_states id : preserves campaignRetryStates (isRetryActive id).
Proof.
  intros w. rewrite isRetryActive_run.
  destruct (map_get id (campaignRetryStates w)) as [st|]; [|reflexivity].
  destruct (negb (enabled (retryConfig st))); [reflexivity|].
  destruct (truthy (ttlDateTime (retryConfig st))); reflexivity.
Qed.

Lemma getRetryStatistics_states : preserves campaignRetryStates getRetryStatistics.
Proof.
  intros w. unfold getRetryStatistics, bind, getStates.
  destruct (forEachRetryStats_run (campaignRetryStates w) emptyObject w)
    as (l & w' & E & Hs & _).
  rewrite E. exact Hs.
Qed.
#[local] Hint Resolve isRetryActive_states getRetryStatistics_states : frame.

Lemma getStatus_marked (this : Engine) (w : World) :
  Forall2 marked (campaignRetryStates w)
    (campaignRetryStates (snd (getStatus this w))).
Proof.
  unfold getStatus. unfold bind at 1.
  destruct (getCampaignsForRetry_marked w) as (due & w1 & E & Hm & _). rewrite E.
  match goal with
  | |- context [bind ?m ?k w1] =>
    assert (H : preserves campaignRetryStates (bind m k)) by frame
  end.
  rewrite H. exact Hm.
Qed.

Lemma marked_grows s s' : Forall2 marked s s' -> grows s s'.
Proof. unfold grows. induction 1; constructor; auto using marked_continues. Qed.

Lemma setRetryConfig_wellKeyed id c w :
  wellKeyed (campaignRetryStates w) ->
  wellKeyed (campaignRetryStates (snd (setRetryConfig id c w))).
Proof.
  intros [Hnd Hk]. rewrite setRetryConfig_run. cbv zeta. cbn [snd campaignRetryStates].
  split; [apply map_set_NoDup; exact Hnd|].
  apply Forall_map_set; [exact Hk|].
  destruct (map_get id (campaignRetryStates w)) as [st0|] eqn:E; [|reflexivity].
  apply (Forall_map_get _ _ _ _ Hk E).
Qed.

Lemma perform_wellKeyed (a : Action) (s : Scheduler) :
  wellKeyed (campaignRetryStates (world s)) ->
  wellKeyed (campaignRetryStates (world (perform a s))).
Proof.
  intros Hw. destruct a as [id c|id att|id| | | |e]; cbn [perform call world].
  - apply setRetryConfig_wellKeyed; exact Hw.
  - eapply grows_wellKeyed; [apply updateRetryAttempt_grows|exact Hw].
  - rewrite isRetryActive_states. exact Hw.
  - eapply grows_wellKeyed; [apply getCampaignsForRetry_grows|exact Hw].
  - rewrite getRetryStatistics_states. exact Hw.
  - eapply grows_wellKeyed; [apply marked_grows, getStatus_marked|exact Hw].
  - eapply grows_wellKeyed; [apply step_grows|exact Hw].
Qed.

(** X13. The store stays well keyed: through any sequence of calls of
    [setRetryConfig], [updateRetryAttempt], [isRetryActive],
    [getCampaignsForRetry], [getRetryStatistics] and [getStatus] and of events
    of the engine, the keys of the store stay distinct and every state stays
    stored under the id of its own campaign.  The empty store of the module is
    well keyed, so every store that these calls can produce is. *)
Theorem store_stays_well_keyed :
  forall (actions : list Action) (s : Scheduler),
    wellKeyed (campaignRetryStates (world s)) ->
    wellKeyed (campaignRetryStates (world (performAll actions s))).
Proof.
  induction actions as [|a rest IH]; intros s Hw; cbn [performAll]; [exact Hw|].
  apply IH. apply perform_wellKeyed. exact Hw.
Qed.

Lemma marked_unscheduled s s' : Forall2 marked s s' -> unscheduled s -> unscheduled s'.
Proof.
  unfold unscheduled. induction 1 as [|e e' s s' Hm _ IH]; intros Hu; [constructor|].
  inversion Hu; subst. constructor; [|auto].
  destruct Hm as [->| ->]; auto.
Qed.

(** With no next attempt in the store the scan finds nothing. *)
Lemma unscheduled_nothing_due (w : World) :
  unscheduled (campaignRetryStates w) ->
  exists w', getCampaignsForRetry w = (Returns [], w') /\
             unscheduled (campaignRetryStates w').
Proof.
  intros Hu. destruct (getCampaignsForRetry_marked w) as (due & w' & E & Hm & Hd).
  exists w'. split; [|eapply marked_unscheduled; eauto].
  rewrite E. destruct due as [|e due]; [reflexivity|].
  destruct (Hd e (or_introl eq_refl)) as (Hin & next & Hn).
  unfold unscheduled in Hu. rewrite Forall_forall in Hu.
  rewrite (Hu e Hin) in Hn. discriminate.
Qed.

Lemma beginTick_unscheduled (s : Scheduler) :
  unscheduled (campaignRetryStates (world s)) ->
  inProgress (beginTick s) = inProgress s /\
  unscheduled (campaignRetryStates (world (beginTick s))).
Proof.
  intros Hu. destruct (unscheduled_nothing_due (world s) Hu) as (w1 & E & Hu1).
  destruct (beginTick_run s w1 [] E) as (w' & Hb & Hs & _).
  rewrite Hb. cbn [inProgress world]. unfold batchOf. rewrite slice0_nil.
  cbn [startedTick]. rewrite app_nil_r, Hs. auto.
Qed.

Lemma perform_unscheduled (a : Action) (s : Scheduler) :
  unscheduled (campaignRetryStates (world s)) ->
  inProgress s = [] ->
  unscheduled (campaignRetryStates (world (perform a s))) /\
  inProgress (perform a s) = [].
Proof.
  intros Hu Hp. destruct a as [id c|id att|id| | | |e]; cbn [perform call world inProgress].
  - split; [|exact Hp]. rewrite setRetryConfig_run. cbv zeta.
    cbn [snd campaignRetryStates]. apply Forall_map_set; [exact Hu|].
    destruct (map_get id (campaignRetryStates (world s))) as [st0|] eqn:E;
      [|reflexivity].
    apply (Forall_map_get _ _ _ _ Hu E).
  - split; [|exact Hp].
    destruct (map_get id (campaignRetryStates (world s))) as [st|] eqn:E.
    + destruct (updateRetryAttempt_stored id att (world s) st E)
        as (u & w0 & w'' & Hrun & Hup & Hs).
      rewrite Hup. cbn [snd]. rewrite Hs. apply Forall_map_set; [exact Hu|].
      rewrite updateRetryState_run in Hrun. inversion Hrun; subst u. cbn.
      apply (Forall_map_get _ _ _ _ Hu E).
    + rewrite updateRetryAttempt_unfold, E. exact Hu.
  - split; [|exact Hp]. rewrite isRetryActive_states. exact Hu.
  - split; [|exact Hp].
    destruct (unscheduled_nothing_due (world s) Hu) as (w1 & E & Hu1).
    rewrite E. exact Hu1.
  - split; [|exact Hp]. rewrite getRetryStatistics_states. exact Hu.
  - split; [|exact Hp]. eapply marked_unscheduled; [apply getStatus_marked|exact Hu].
  - destruct e as [| | |h|r]; cbn [step].
    + pose proof (start_states (engine s) (world s)) as H.
      destruct (start (engine s) (world s)) as [[this|err] w'];
        cbn [world snd inProgress] in *; rewrite H; auto.
    + pose proof (stop_states (engine s) (world s)) as H.
      destruct (stop (engine s) (world s)) as [[this|err] w'];
        cbn [world snd inProgress] in *; rewrite H; auto.
    + destruct (isRunning (engine s)); [|auto].
      destruct (beginTick_unscheduled s Hu) as [H1 H2]. split; congruence.
    + destruct (existsb (Nat.eqb h) (intervals (world s))); [|auto].
      destruct (beginTick_unscheduled s Hu) as [H1 H2]. split; congruence.
    + rewrite Hp. auto.
Qed.

(** X14. Nothing becomes due by itself: from a store in which no state
    has a next attempt (the empty store of the module, for one) and with no
    execution in progress, no sequence of calls of [setRetryConfig],
    [updateRetryAttempt], [isRetryActive], [getCampaignsForRetry],
    [getRetryStatistics] and [getStatus] and of events of the engine (start,
    stop, trigger, timer fires) gives any state a next attempt.  The scan
    for due campaigns then returns the empty list, the engine starts no
    execution, and an execution event finds nothing to resume: the only
    assignment to [nextAttemptAt] is in [executeCampaignRetry], which runs
    for due campaigns only. *)
Theorem nothing_becomes_due :
  forall (actions : list Action) (s : Scheduler),
    unscheduled (campaignRetryStates (world s)) ->
    inProgress s = [] ->
    let s' := performAll actions s in
    unscheduled (campaignRetryStates (world s')) /\
    inProgress s' = [] /\
    fst (getCampaignsForRetry (world s')) = Returns [] /\
    (forall h, inProgress (step (IntervalFires h) s') = []) /\
    inProgress (step CallTrigger s') = [] /\
    (forall r, step (ExecutionResolves r) s' = s').
Proof.
  induction actions as [|a rest IH]; intros s Hu Hp; cbn [performAll].
  - split; [exact Hu|]. split; [exact Hp|].
    split.
    { destruct (unscheduled_nothing_due (world s) Hu) as (w1 & E & _).
      rewrite E. reflexivity. }
    split; [|split].
    + intros h. apply (perform_unscheduled (EngineEvent (IntervalFires h)) s Hu Hp).
    + apply (perform_unscheduled (EngineEvent CallTrigger) s Hu Hp).
    + intros r. cbn [step]. rewrite Hp. reflexivity.
  - destruct (perform_unscheduled a s Hu Hp) as [Hu' Hp'].
    apply IH; assumption.
Qed.

End Reachable.

(* ===================================================================== *)
(** * One execution, from its result to the store *)
(* ===================================================================== *)

Section Execution.

Import CampaignService RetryEngine.

Lemma try_catch_returns {A} (m : M A) (h : JsError -> M A) (a : A) (w w' : World) :
  m w = (Returns a, w') -> try_catch m h w = (Returns a, w').
Proof. intros E. unfold try_catch. rewrite E. reflexivity. Qed.

Lemma try_catch_throws {A} (m : M A) (h : JsError -> M A) (e : JsError) (w w' : World) :
  m w = (Throws e, w') -> try_catch m h w = h e w'.
Proof. intros E. unfold try_catch. rewrite E. reflexivity. Qed.

Lemma log_then_ret {A} (this : Engine) (m : EngineMessage) (a : A) (w : World) :
  exists w', (log this m ;;; ret a) w = (Returns a, w') /\
             campaignRetryStates w' = campaignRetryStates w.
Proof.
  unfold bind. pose proof (log_states this m w) as Hs.
  destruct (log_run this m w) as [w' E]. rewrite E in *. exists w'. auto.
Qed.

(** [executeCampaignRetry] after the execution has resolved, path by path:
    the result and the store. *)
Lemma executeCampaignRetry_resume_run (this : Engine) (id : string)
    (st : CampaignRetryState) (r : Execution) (w : World) :
  let n := Z.of_nat (List.length (attempts st)) + 1 in
  let w2 := afterRecording id st r w in
  exists w',
    executeCampaignRetry_resume this id st r w
    = (Returns
         (if ex_success r then mkResult id true None (ExecutedOnAttempt n) None
          else match truthyCode (ex_errorCode r) with
               | None => mkResult id false None UnknownError None
               | Some code =>
                 match fst (RetryService.processRetryAttempt id code st w2) with
                 | Returns d =>
                   match (if shouldRetry d then truthy (decidedNextAttemptAt d)
                          else None) with
                   | Some next =>
                     mkResult id false (Some code) (Decided (reason d)) (Some next)
                   | None =>
                     mkResult id false (Some code) (RetryExhausted (reason d)) None
                   end
                 | Throws e => mkResult id false None (ExecutionError e) None
                 end
               end), w') /\
    campaignRetryStates w'
    = match (if ex_success r then None
             else match truthyCode (ex_errorCode r) with
                  | None => None
                  | Some code =>
                    match fst (RetryService.processRetryAttempt id code st w2) with
                    | Returns d =>
                      if shouldRetry d then truthy (decidedNextAttemptAt d) else None
                    | Throws _ => None
                    end
                  end) with
      | Some next =>
        match map_get id (campaignRetryStates w2) with
        | Some updated =>
          map_set id (with_nextAttemptAt (Some next) updated) (campaignRetryStates w2)
        | None => campaignRetryStates w2
        end
      | None => campaignRetryStates w2
      end.
Proof.
  intros n w2. unfold executeCampaignRetry_resume. cbv zeta.
  erewrite try_catch_bind_returns by reflexivity.
  erewrite try_catch_bind_returns by reflexivity.
  erewrite try_catch_bind_returns by reflexivity.
  erewrite try_catch_bind_returns by reflexivity.
  cbn [tick currentTime clock reads].
  destruct (updateRetryAttempt_recordsAttempt id (recordedAttempt st r w) (tick (tick w)))
    as (w2' & E2 & _).
  assert (Hw2 : w2 = w2') by (subst w2; unfold afterRecording; rewrite E2; reflexivity).
  unfold recordedAttempt, currentTime in E2. cbn [tick clock reads] in E2.
  erewrite try_catch_bind_returns by exact E2.
  rewrite Hw2. clear Hw2 w2 E2.
  destruct (ex_success r).
  - destruct (log_then_ret this (MsgExecuted id n)
                (mkResult id true None (ExecutedOnAttempt n) None) w2') as (w' & E & Hs).
    exists w'. split; [|exact Hs]. apply try_catch_returns. exact E.
  - destruct (truthyCode (ex_errorCode r)) as [code|].
    2:{ exists w2'. split; reflexivity. }
    pose proof (processRetryAttempt_states id code st w2') as Hps.
    destruct (RetryService.processRetryAttempt id code st w2') as [[d|e] w3] eqn:Ep;
      cbn [fst snd] in *.
    + destruct (if shouldRetry d then truthy (decidedNextAttemptAt d) else None)
        as [next|] eqn:En.
      * unfold assignNextAttemptAt, getRetryState.
        destruct (log_then_ret this (MsgScheduled id next)
                    (mkResult id false (Some code) (Decided (reason d)) (Some next))
                    (snd (assignNextAttemptAt id next w3))) as (w' & E & Hs).
        exists w'. split.
        -- apply try_catch_returns. unfold bind at 1. rewrite Ep. rewrite En.
           unfold bind at 1.
           assert (Ha : assignNextAttemptAt id next w3
                        = (Returns tt, snd (assignNextAttemptAt id next w3))).
           { unfold assignNextAttemptAt, getRetryState, bind, getStates. cbn [ret].
             destruct (map_get id (campaignRetryStates w3)); reflexivity. }
           fold (getRetryState id). fold (assignNextAttemptAt id next).
           rewrite Ha. exact E.
        -- rewrite Hs. unfold assignNextAttemptAt, getRetryState, bind, getStates.
           cbn [ret]. rewrite Hps.
           destruct (map_get id (campaignRetryStates w2')); cbn; rewrite ?Hps; reflexivity.
      * destruct (log_then_ret this (MsgExhausted id (reason d))
                    (mkResult id false (Some code) (RetryExhausted (reason d)) None) w3)
          as (w' & E & Hs).
        exists w'. split; [|congruence].
        apply try_catch_returns. unfold bind at 1. rewrite Ep, En. exact E.
    + destruct (log_then_ret this (MsgExecutionError id e)
                  (mkResult id false None (ExecutionError e) None) w3)
        as (w' & E & Hs).
      exists w'. split; [|congruence].
      erewrite try_catch_throws; [exact E|]. unfold bind at 1. rewrite Ep. reflexivity.
Qed.

(** The result names the next attempt exactly when the store got one. *)
Lemma executeCampaignRetry_resume_next (this : Engine) (id : string)
    (st : CampaignRetryState) (r : Execution) (w : World) :
  exists res w',
    executeCampaignRetry_resume this id st r w = (Returns res, w') /\
    res_nextRetryAt res = rescheduled id st r w /\
    campaignRetryStates w'
    = match rescheduled id st r w with
      | Some next =>
        match map_get id (campaignRetryStates (afterRecording id st r w)) with
        | Some updated =>
          map_set id (with_nextAttemptAt (Some next) updated)
            (campaignRetryStates (afterRecording id st r w))
        | None => campaignRetryStates (afterRecording id st r w)
        end
      | None => campaignRetryStates (afterRecording id st r w)
      end.
Proof.
  destruct (executeCampaignRetry_resume_run this id st r w) as (w' & E & Hs).
  eexists; exists w'. split; [exact E|]. split; [|exact Hs].
  unfold rescheduled.
  destruct (ex_success r); [reflexivity|].
  destruct (truthyCode (ex_errorCode r)) as [code|]; [|reflexivity].
  destruct (fst (RetryService.processRetryAttempt id code st (afterRecording id st r w)))
    as [d|e]; [|reflexivity].
  destruct (if shouldRetry d then truthy (decidedNextAttemptAt d) else None);
    reflexivity.
Qed.

(** The state stored for the campaign once the attempt is recorded. *)
Lemma afterRecording_stored (id : string) (st st0 : CampaignRetryState)
    (r : Execution) (w : World) :
  map_get id (campaignRetryStates w) = Some st0 ->
  map_get id (campaignRetryStates (afterRecording id st r w))
  = Some (mkCampaignRetryState (campaignId st0) (retryConfig st0)
            (attempts st0 ++ [recordedAttempt st r w])
            (Some (Instant (currentTime (tick w)))) (nextAttemptAt st0)
            (ttlPassed (currentTime (tick (tick w))) st0)) /\
  (forall other, other <> id ->
                 map_get other (campaignRetryStates (afterRecording id st r w))
                 = map_get other (campaignRetryStates w)) /\
  later w (afterRecording id st r w).
Proof.
  intros Hget. unfold afterRecording.
  assert (Hget2 : map_get id (campaignRetryStates (tick (tick w))) = Some st0)
    by exact Hget.
  rewrite updateRetryAttempt_unfold, Hget2.
  pose proof (updateRetryState_run st0 (recordedAttempt st r w) (tick (tick w))) as Hu.
  cbv zeta in Hu. cbn [recordedAttempt executedAt truthy] in Hu. rewrite Hu.
  cbn [snd campaignRetryStates tick].
  split; [rewrite map_get_set; reflexivity|].
  split.
  - intros other Hne. rewrite map_get_set_other by exact Hne.
    destruct (truthy (ttlDateTime (retryConfig st0))); reflexivity.
  - destruct (truthy (ttlDateTime (retryConfig st0))); split; cbn; auto.
Qed.

(** X15. [executeCampaignRetry] never rejects: whatever the execution
    resolves to and whatever the state, the code after the execution returns
    a result for the campaign.  A successful execution gives
    [success = true] with the attempt number (recorded attempts plus one);
    a failed one gives [success = false]: with 'unknown error' when it
    carries no error code; otherwise with the decision of
    [processRetryAttempt] (for the state of the due list, in the world after
    the attempt is recorded), as 'scheduled' with [nextRetryAt] when the
    decision is to retry, as 'Retry exhausted' when it is not; and when
    [processRetryAttempt] throws, the exception is caught and reported as
    'Retry execution error', without the error code.  So the branch of
    [processRetries] for a rejected promise is never taken. *)
Theorem executeCampaignRetry_never_rejects :
  forall (this : Engine) (id : string) (st : CampaignRetryState) (r : Execution)
         (w : World),
    exists (res : RetryExecutionResult) (w' : World),
      executeCampaignRetry_resume this id st r w = (Returns res, w') /\
      res_campaignId res = id /\
      res_success res = ex_success r /\
      (ex_success r = true ->
       res = mkResult id true None
               (ExecutedOnAttempt (Z.of_nat (List.length (attempts st)) + 1)) None) /\
      (ex_success r = false -> truthyCode (ex_errorCode r) = None ->
       res = mkResult id false None UnknownError None) /\
      (forall code,
          ex_success r = false -> truthyCode (ex_errorCode r) = Some code ->
          let decision :=
            fst (RetryService.processRetryAttempt id code st
                   (afterRecording id st r w)) in
          (forall e, decision = Throws e ->
                     res = mkResult id false None (ExecutionError e) None) /\
          (forall d, decision = Returns d -> shouldRetry d = true ->
                     res = mkResult id false (Some code) (Decided (reason d))
                             (decidedNextAttemptAt d) /\
                     decidedNextAttemptAt d <> None) /\
          (forall d, decision = Returns d -> shouldRetry d = false ->
                     res = mkResult id false (Some code) (RetryExhausted (reason d))
                             None)).
Proof.
  intros this id st r w.
  destruct (executeCampaignRetry_resume_run this id st r w) as (w' & E & _).
  eexists; exists w'. split; [exact E|].
  destruct (ex_success r).
  { repeat split; intros; discriminate. }
  destruct (truthyCode (ex_errorCode r)) as [code|].
  2:{ repeat split; intros; discriminate. }
  destruct (fst (RetryService.processRetryAttempt id code st (afterRecording id st r w)))
    as [d|e] eqn:Ed.
  - destruct (processRetryAttempt_cases _ _ _ _ _ Ed)
      as [(Hs & Hn & _) | (ttl & p & h & next & _ & _ & _ & _ & _ & _ & _ & Hd)].
    + rewrite Hs. split; [reflexivity|]. split; [reflexivity|].
      split; [discriminate|]. split; [discriminate|].
      intros code' _ Hc. inversion Hc; subst code'. cbv zeta. rewrite Ed.
      split; [discriminate|]. split.
      * intros d' Hd'. inversion Hd'; subst d'. congruence.
      * intros d' Hd' _. inversion Hd'; subst d'. reflexivity.
    + subst d. cbn [shouldRetry decidedNextAttemptAt truthy reason].
      split; [reflexivity|]. split; [reflexivity|].
      split; [discriminate|]. split; [discriminate|].
      intros code' _ Hc. inversion Hc; subst code'. cbv zeta. rewrite Ed.
      split; [discriminate|]. split.
      * intros d' Hd' _. inversion Hd'; subst d'. cbn. split; [reflexivity|discriminate].
      * intros d' Hd'. inversion Hd'; subst d'. discriminate.
  - split; [reflexivity|]. split; [reflexivity|].
    split; [discriminate|]. split; [discriminate|].
    intros code' _ Hc. inversion Hc; subst code'. cbv zeta. rewrite Ed.
    split; [|split; discriminate].
    intros e' He'. inversion He'; reflexivity.
Qed.

(** X16. An execution that does not reschedule leaves the campaign due.
    When the result of [executeCampaignRetry] carries no [nextRetryAt] (a
    success, retries exhausted, no deadline, an exception, an unknown
    error), the state stored for the campaign has one attempt more and the
    [nextAttemptAt] and configuration it had.  So a campaign with retry
    enabled whose next attempt was due is eligible again at every later scan
    before its deadline: exhausting the intervals of the policy does not end
    the retries. *)
Theorem unrescheduled_campaign_stays_due :
  forall (this : Engine) (id : string) (st st0 : CampaignRetryState)
         (r : Execution) (w : World) (res : RetryExecutionResult) (t2 : Z),
    map_get id (campaignRetryStates w) = Some st0 ->
    fst (executeCampaignRetry_resume this id st r w) = Returns res ->
    res_nextRetryAt res = None ->
    exists st',
      map_get id (campaignRetryStates (snd (executeCampaignRetry_resume this id st r w)))
      = Some st' /\
      attempts st' = attempts st0 ++ [recordedAttempt st r w] /\
      nextAttemptAt st' = nextAttemptAt st0 /\
      retryConfig st' = retryConfig st0 /\
      (enabled (retryConfig st0) = true ->
       nextAttemptDue t2 st0 = true ->
       ttlPassed t2 st0 = false ->
       currentTime (tick (tick w)) <= t2 ->
       eligible t2 (id, st') = true).
Proof.
  intros this id st st0 r w res t2 Hget Hres Hnone.
  destruct (executeCampaignRetry_resume_next this id st r w)
    as (res' & w' & E & Hnext & Hs).
  rewrite E in *. cbn [fst snd] in *. inversion Hres; subst res'.
  rewrite Hnone in Hnext. rewrite <- Hnext in Hs. rewrite Hs.
  destruct (afterRecording_stored id st st0 r w Hget) as (Hst & _ & _).
  rewrite Hst. eexists. split; [reflexivity|].
  cbn [nextAttemptAt retryConfig attempts].
  split; [reflexivity|]. split; [reflexivity|]. split; [reflexivity|].
  intros Hen Hdue Httl Hlater.
  unfold eligible. cbn [snd retryConfig isExpired].
  rewrite Hen. cbn [andb].
  assert (Hnot : ttlPassed (currentTime (tick (tick w))) st0 = false).
  { revert Httl. unfold ttlPassed.
    destruct (truthy (ttlDateTime (retryConfig st0))) as [ttl|]; [|reflexivity].
    destruct (newDate ttl) as [x|]; cbn [date_gt]; [|reflexivity].
    rewrite !Z.ltb_ge. lia. }
  rewrite Hnot. cbn [negb andb].
  unfold ttlPassed in *. cbn [retryConfig]. rewrite Httl. cbn [negb andb].
  unfold nextAttemptDue in *. cbn [nextAttemptAt]. exact Hdue.
Qed.

Lemma afterRecording_zone (id : string) (st : CampaignRetryState)
    (r : Execution) (w : World) :
  zone (afterRecording id st r w) = zone w.
Proof.
  unfold afterRecording.
  assert (H : preserves zone (updateRetryAttempt id (recordedAttempt st r w))).
  { unfold updateRetryAttempt, RetryService.updateRetryState. frame. }
  rewrite H. reflexivity.
Qed.

(** X17. A retry is scheduled from the state taken by the scan, not from
    the attempt just made.  While no time passes ([t] is the time of the
    execution), for a failed execution with an error code that has a policy,
    on a due-list state [st] with retry enabled, the deadline ahead, a last
    attempt at [last] and an interval [h] at the position of its number of
    attempts, where [last] with [h] added to the hours of its local time is
    the valid date [next], not after the deadline: the result is 'scheduled'
    and the state stored for the campaign gets [lastAttemptAt = t] but
    [nextAttemptAt = next]: the interval counts from the attempt before the
    one just made.  Where the offset of the zone does not change, [next] is
    [last + h] hours.  When [next] is not after [t], the campaign is eligible
    again at once. *)
Theorem retry_is_scheduled_from_the_scanned_state :
  forall (this : Engine) (id code : string) (st st0 : CampaignRetryState)
         (w : World) (t last h next : Z) (ttl : DateString) (p : RetryPolicy),
    frozenAt t w ->
    map_get id (campaignRetryStates w) = Some st0 ->
    enabled (retryConfig st) = true ->
    truthy (ttlDateTime (retryConfig st)) = Some ttl ->
    ~ isAfter t ttl ->
    DEFAULT_RETRY_POLICIES code = Some p ->
    nth_error (retryIntervals p) (List.length (attempts st)) = Some h ->
    lastAttemptAt st = Some (Instant last) ->
    plusHours (zone w) (Some last) (Some h) = Some next ->
    ~ isAfter next ttl ->
    let nextAt := Instant next in
    let run := executeCampaignRetry_resume this id st (failedWith code) w in
    let st' :=
      mkCampaignRetryState (campaignId st0) (retryConfig st0)
        (attempts st0 ++ [recordedAttempt st (failedWith code) w])
        (Some (Instant t)) (Some nextAt) (ttlPassed t st0) in
    fst run
    = Returns (mkResult id false (Some code)
                 (Decided (RetryScheduled (Some nextAt))) (Some nextAt)) /\
    map_get id (campaignRetryStates (snd run)) = Some st' /\
    (fixedOffset (zone w) -> next = last + h * msPerHour) /\
    (retryConfig st0 = retryConfig st -> next <= t ->
     eligible t (id, st') = true).
Proof.
  intros this id code st st0 w t last h next ttl p
         Hf Hget He Ht Hnow Hp Hn Hlast Hplus Hnext.
  cbv zeta.
  assert (Hcode : truthyCode (Some code) = Some code).
  { destruct code; [discriminate Hp|reflexivity]. }
  destruct (afterRecording_stored id st st0 (failedWith code) w Hget)
    as (Hst & _ & Hlater).
  pose proof (afterRecording_zone id st (failedWith code) w) as Hzone.
  set (w2 := afterRecording id st (failedWith code) w) in *.
  assert (Hf2 : frozenAt t w2) by (eapply frozenAt_later; eauto).
  assert (Hd : fst (RetryService.processRetryAttempt id code st w2)
               = Returns (mkRetryDecision true (Some (Instant next))
                            (RetryScheduled (Some (Instant next))))).
  { apply date_gt_not_isAfter in Hnow. apply date_gt_not_isAfter in Hnext.
    apply indexPolicies_Policy in Hp.
    rewrite (processRetryAttempt_run id code st w2 ttl); auto.
    - cbv zeta. rewrite Hp, Hlast. cbn [truthy newDate].
      rewrite (Hf2 (S (reads w2))) by lia. rewrite Hnow, Hn, Hzone, Hplus, Hnext.
      reflexivity.
    - rewrite (frozenAt_currentTime t w2 Hf2). exact Hnow.
    - congruence. }
  assert (Hres : rescheduled id st (failedWith code) w = Some (Instant next)).
  { unfold rescheduled. cbn [failedWith ex_success ex_errorCode].
    rewrite Hcode. fold (failedWith code). fold w2. rewrite Hd. reflexivity. }
  destruct (executeCampaignRetry_resume_run this id st (failedWith code) w)
    as (w' & E & _).
  destruct (executeCampaignRetry_resume_next this id st (failedWith code) w)
    as (res' & w'' & E' & _ & Hs).
  rewrite E in E'. inversion E'; subst w'' res'. clear E'.
  rewrite E. cbn [fst snd]. cbn [failedWith ex_success ex_errorCode] in *.
  rewrite Hcode. fold (failedWith code). fold w2. rewrite Hd.
  cbn [shouldRetry decidedNextAttemptAt truthy reason].
  split; [reflexivity|].
  rewrite Hs, Hres. fold w2. rewrite Hst. rewrite map_get_set.
  rewrite (frozenAt_currentTime t (tick w)) by (apply frozenAt_tick; exact Hf).
  rewrite (frozenAt_currentTime t (tick (tick w)))
    by (apply frozenAt_tick, frozenAt_tick; exact Hf).
  split; [reflexivity|].
  split; [intros Hz; eapply plusHours_fixed_Some; eauto|].
  intros Hc Hle. apply date_gt_not_isAfter in Hnow.
  unfold eligible, ttlPassed. cbn [snd retryConfig isExpired].
  rewrite Hc, He, Ht, Hnow. cbn [andb negb].
  unfold nextAttemptDue. cbn [nextAttemptAt truthy newDate date_ge].
  apply Z.leb_le. exact Hle.
Qed.

End Execution.

(* ===================================================================== *)
(** * The simulated execution *)
(* ===================================================================== *)

Section Simulation.

Import CampaignService RetryEngine.

Lemma Qlt_bool_iff (x y : Q) : Qlt_bool x y = true <-> (x < y)%Q.
Proof.
  unfold Qlt_bool. rewrite negb_true_iff. split.
  - intros H. apply Qnot_le_lt. intros Hle. apply Qle_bool_iff in Hle. congruence.
  - intros H. destruct (Qle_bool y x) eqn:E; [|reflexivity].
    apply Qle_bool_iff in E. exfalso. exact (Qlt_not_le _ _ H E).
Qed.

(** X18. The simulated execution succeeds exactly when the number drawn
    is below 0.3, and then carries no error code; every failure carries one
    of the three error codes that have a retry policy.  Hence, for an
    execution that the simulation produces, [executeCampaignRetry] never
    reports 'Campaign execution failed with unknown error' and never
    'No retry policy found': those two branches are not reached from the
    simulation. *)
Theorem simulated_failures_have_policies :
  forall (campaignId : string) (random : Q),
    let ex := fst (simulateCampaignExecution campaignId random) in
    (ex_success ex = true <-> (random < double_0_3)%Q) /\
    (ex_success ex = true -> ex_errorCode ex = None) /\
    (ex_success ex = false ->
     exists code p,
       ex_errorCode ex = Some code /\ truthyCode (ex_errorCode ex) = Some code /\
       DEFAULT_RETRY_POLICIES code = Some p) /\
    (forall (this : Engine) (id : string) (st : CampaignRetryState) (w : World)
            (res : RetryExecutionResult),
        fst (executeCampaignRetry_resume this id st ex w) = Returns res ->
        res_message res <> UnknownError /\
        (forall c, res_message res <> RetryExhausted (NoPolicyFound c)) /\
        (forall c, res_message res <> Decided (NoPolicyFound c))).
Proof.
  intros campaignId random ex.
  assert (Hex : (ex_success ex = true /\ ex_errorCode ex = None) \/
                (ex_success ex = false /\
                 exists code p, ex_errorCode ex = Some code /\
                                truthyCode (ex_errorCode ex) = Some code /\
                                DEFAULT_RETRY_POLICIES code = Some p)).
  { subst ex. unfold simulateCampaignExecution.
    destruct (Qlt_bool random double_0_3); [left; split; reflexivity|].
    destruct (Qlt_bool random double_0_5);
      [right; split; [reflexivity|]; eexists; eexists; repeat split; reflexivity|].
    destruct (Qlt_bool random double_0_7);
      right; (split; [reflexivity|]); eexists; eexists; repeat split; reflexivity. }
  split; [|split; [|split]].
  - subst ex. unfold simulateCampaignExecution. rewrite <- Qlt_bool_iff.
    destruct (Qlt_bool random double_0_3); [split; reflexivity|].
    destruct (Qlt_bool random double_0_5); [split; discriminate|].
    destruct (Qlt_bool random double_0_7); split; discriminate.
  - intros H. destruct Hex as [[_ H1]|[H1 _]]; congruence.
  - intros H. destruct Hex as [[H1 _]|[_ H1]]; [congruence|exact H1].
  - intros this id st w res.
    destruct (executeCampaignRetry_resume_run this id st ex w) as (w' & E & _).
    rewrite E. cbn [fst]. intros R; inversion R; clear R.
    destruct Hex as [[H1 _]|(H1 & code & p & _ & Hc & Hp)]; rewrite H1.
    + cbn. repeat split; discriminate.
    + rewrite Hc.
      destruct (fst (RetryService.processRetryAttempt id code st
                       (afterRecording id st ex w))) as [d|e] eqn:Ed.
      * destruct (processRetryAttempt_cases _ _ _ _ _ Ed)
          as [(Hs & Hn & Hr) | (ttl & p' & h & next & _ & _ & _ & _ & _ & _ & _ & Hd)].
        -- rewrite Hs. cbn [res_message].
           split; [discriminate|]. split; [|discriminate].
           intros c Hm. inversion Hm as [Hm'].
           apply indexPolicies_Policy in Hp.
           destruct Hr as [H|[H|[[_ H]|[H _]]]]; congruence.
        -- subst d. cbn. repeat split; discriminate.
      * cbn. repeat split; discriminate.
Qed.

End Simulation.

(* ===================================================================== *)
(** * Stopping the engine *)
(* ===================================================================== *)

Section Stopping.

Import CampaignService RetryEngine.

Lemma stop_run (s : Scheduler) :
  oneTimer s ->
  exists w',
    stop (engine s) (world s)
    = (Returns (mkEngine (config (engine s)) false None), w') /\
    intervals w' = [] /\
    campaignRetryStates w' = campaignRetryStates (world s).
Proof.
  intros [Hi Hn]. pose proof (stop_states (engine s) (world s)) as Hs.
  unfold stop in *. destruct (engine s) as [c running timer]. cbn [isRunning] in *.
  cbn [RetryEngine.config retryInterval] in *.
  destruct running; cbn [negb] in *.
  - unfold bind at 1. unfold bind at 1 in Hs.
    pose proof (log_intervals (mkEngine c false timer) MsgStopping (world s)) as Hl.
    destruct (log_run (mkEngine c false timer) MsgStopping (world s)) as [w1 E].
    rewrite E in *. cbn [snd] in Hl.
    destruct timer as [h|].
    + unfold bind, clearInterval in *. cbn [ret snd fst] in *.
      eexists. split; [reflexivity|]. cbn [intervals campaignRetryStates].
      split; [|exact Hs]. rewrite Hl, Hi. cbn [filter]. rewrite Nat.eqb_refl. reflexivity.
    + cbn [ret snd] in *. exists w1. split; [reflexivity|]. split; congruence.
  - rewrite (Hn eq_refl) in *. unfold bind in *.
    pose proof (log_intervals (mkEngine c false None) MsgNotRunning (world s)) as Hl.
    destruct (log_run (mkEngine c false None) MsgNotRunning (world s)) as [w1 E].
    rewrite E in *. cbn [ret snd] in *. exists w1. split; [reflexivity|].
    split; congruence.
Qed.

(** X19. [stop] ends the ticks but not the executions in flight.  For an
    engine whose interval timer is its only timer: after [stop] the engine
    does not run and no timer is live, the store and the calls in progress
    are as before; a timer fire or a manual trigger then changes nothing
    ([triggerRetryProcessing] throws 'Retry engine is not running').  But an
    execution started before still resolves after the stop, and its attempt
    is recorded in the store. *)
Theorem stop_ends_ticks_not_executions :
  forall s : Scheduler,
    oneTimer s ->
    let stopped := step CallStop s in
    isRunning (engine stopped) = false /\
    intervals (world stopped) = [] /\
    inProgress stopped = inProgress s /\
    campaignRetryStates (world stopped) = campaignRetryStates (world s) /\
    (forall h, step (IntervalFires h) stopped = stopped) /\
    step CallTrigger stopped = stopped /\
    triggerRetryProcessing_call (engine stopped) (world stopped)
    = (Throws (Error "Retry engine is not running"), world stopped) /\
    (forall id st remaining older r,
        inProgress s = ((id, st) :: remaining) :: older ->
        let resumed := step (ExecutionResolves r) stopped in
        inProgress resumed = settle remaining older /\
        recordsAttempt id (campaignRetryStates (world s))
          (campaignRetryStates (world resumed))).
Proof.
  intros s Hone. destruct (stop_run s Hone) as (w' & E & Hi & Hs).
  cbv zeta. cbn [step]. rewrite E. cbn [engine world inProgress isRunning].
  split; [reflexivity|]. split; [exact Hi|]. split; [reflexivity|].
  split; [exact Hs|]. split; [|split; [|split]].
  - intros h. rewrite Hi. reflexivity.
  - reflexivity.
  - reflexivity.
  - intros id st remaining older r Hp. rewrite Hp. cbn [inProgress world].
    split; [reflexivity|]. rewrite <- Hs. apply executeCampaignRetry_resume_store.
Qed.

End Stopping.

(* ===================================================================== *)
(** * The campaign list *)
(* ===================================================================== *)

Section Campaigns.

Import CampaignService.

Lemma prefix_spec (p s : string) :
  String.prefix p s = true <-> exists rest, s = (p ++ rest)%string.
Proof.
  revert s. induction p as [|a p IH]; intros s.
  - split; [intros _; exists s; reflexivity|intros _; destruct s; reflexivity].
  - destruct s as [|b s]; cbn [String.prefix String.append].
    + split; [discriminate|intros [rest E]; discriminate].
    + destruct (Ascii.ascii_dec a b) as [->|Hne].
      * rewrite IH. split; intros [rest E]; exists rest; congruence.
      * split; [discriminate|intros [rest E]; congruence].
Qed.

(** [includes] finds the substrings. *)
Lemma includes_spec (s sub : string) :
  includes s sub = true <-> exists a b, s = (a ++ sub ++ b)%string.
Proof.
  induction s as [|c s IH]; cbn [includes].
  - destruct (String.prefix sub "") eqn:E.
    + split; [intros _|reflexivity].
      apply prefix_spec in E. destruct E as [rest E]. exists "", rest. exact E.
    + split; [discriminate|]. intros (a & b & H).
      destruct a; [|discriminate]. cbn in H.
      assert (Hp : String.prefix sub "" = true) by (apply prefix_spec; eauto).
      congruence.
  - destruct (String.prefix sub (String c s)) eqn:E.
    + split; [intros _|reflexivity].
      apply prefix_spec in E. destruct E as [rest E]. exists "", rest. exact E.
    + rewrite IH. split.
      * intros (a & b & H). exists (String c a), b. cbn. congruence.
      * intros (a & b & H). destruct a as [|c' a].
        -- cbn in H. assert (Hp : String.prefix sub (String c s) = true)
             by (apply prefix_spec; eauto). congruence.
        -- cbn in H. inversion H. eauto.
Qed.

Lemma countCampaigns_partition (campaigns : list Campaign.t) :
  List.length campaigns
  = (countCampaigns DRAFT campaigns + countCampaigns SENT campaigns
     + countCampaigns SCHEDULED campaigns + countCampaigns SUSPENDED campaigns
     + countCampaigns RUNNING campaigns + countCampaigns FAILED campaigns)%nat.
Proof.
  unfold countCampaigns. induction campaigns as [|c cs IH]; [reflexivity|].
  cbn [filter List.length].
  destruct (Campaign.status c); cbn [campaignStatus_eqb List.length]; lia.
Qed.

Lemma filter_twice {A : Type} (f g : A -> bool) (l : list A) :
  filter f (filter g l) = filter (fun x => g x && f x) l.
Proof.
  induction l as [|x l IH]; [reflexivity|]. cbn [filter].
  destruct (g x); cbn [filter andb]; [destruct (f x)|]; congruence.
Qed.

Lemma campaignStatus_eqb_eq (a b : CampaignStatus) :
  campaignStatus_eqb a b = true <-> a = b.
Proof. destruct a, b; cbn; split; congruence. Qed.

(** The search of [filterCampaigns], alone. *)
Lemma filterCampaigns_all (toLowerCase : string -> string)
    (campaigns : list Campaign.t) (searchQuery : string) :
  filterCampaigns toLowerCase campaigns searchQuery "all"
  = filter (fun c => includes (toLowerCase (Campaign.name c)) (toLowerCase searchQuery)
                     || includes (Campaign.id c) searchQuery) campaigns.
Proof.
  unfold filterCampaigns. cbn [String.eqb Ascii.eqb Bool.eqb negb].
  destruct (String.eqb_spec searchQuery "") as [->|Hne]; [|reflexivity].
  symmetry. apply forallb_filter_id. apply forallb_forall. intros c _.
  destruct (Campaign.id c); cbn; apply orb_true_r.
Qed.

(** The tab of [filterCampaigns], over the search. *)
Lemma filterCampaigns_tab (toLowerCase : string -> string)
    (campaigns : list Campaign.t) (searchQuery activeTab : string) :
  filterCampaigns toLowerCase campaigns searchQuery activeTab
  = filter (fun c =>
              if String.eqb activeTab "drafts" then campaignStatus_eqb (Campaign.status c) DRAFT
              else if String.eqb activeTab "sent" then campaignStatus_eqb (Campaign.status c) SENT
              else if String.eqb activeTab "scheduled"
                   then campaignStatus_eqb (Campaign.status c) SCHEDULED
              else if String.eqb activeTab "suspended"
                   then campaignStatus_eqb (Campaign.status c) SUSPENDED
              else if String.eqb activeTab "running"
                   then campaignStatus_eqb (Campaign.status c) RUNNING
              else if String.eqb activeTab "failed"
                   then campaignStatus_eqb (Campaign.status c) FAILED
              else true)
      (filterCampaigns toLowerCase campaigns searchQuery "all").
Proof.
  assert (Hid : forall l : list Campaign.t, filter (fun _ => true) l = l).
  { intros l. apply forallb_filter_id. apply forallb_forall. reflexivity. }
  unfold filterCampaigns at 1.
  change (filterCampaigns toLowerCase campaigns searchQuery "all")
    with (if String.eqb searchQuery "" then campaigns
          else filter (fun campaign =>
                         includes (toLowerCase (Campaign.name campaign))
                                  (toLowerCase searchQuery)
                         || includes (Campaign.id campaign) searchQuery) campaigns).
  destruct (String.eqb_spec activeTab "all") as [->|Hall]; cbn [negb].
  { cbn [String.eqb Ascii.eqb Bool.eqb]. rewrite Hid. reflexivity. }
  destruct (String.eqb activeTab "drafts"); [reflexivity|].
  destruct (String.eqb activeTab "sent"); [reflexivity|].
  destruct (String.eqb activeTab "scheduled"); [reflexivity|].
  destruct (String.eqb activeTab "suspended"); [reflexivity|].
  destruct (String.eqb activeTab "running"); [reflexivity|].
  destruct (String.eqb activeTab "failed"); [reflexivity|].
  rewrite Hid. reflexivity.
Qed.

(** X20. [filterCampaigns] keeps, in their order, the campaigns that
    match the search and the tab.  A campaign matches the search when the
    lower-cased query occurs in its lower-cased name or the query, as typed,
    occurs in its id (the empty query matches every campaign).  The tabs
    'drafts', 'sent', 'scheduled', 'suspended', 'running' and 'failed' each
    select one status; 'all' and any other tab name select every status.
    Filtering a second time with the same query and tab changes nothing. *)
Theorem filterCampaigns_spec :
  forall (toLowerCase : string -> string) (campaigns : list Campaign.t)
         (searchQuery activeTab : string),
    let result := filterCampaigns toLowerCase campaigns searchQuery activeTab in
    (forall c,
        In c result <->
        In c campaigns /\
        ((exists a b, toLowerCase (Campaign.name c)
                      = (a ++ toLowerCase searchQuery ++ b)%string) \/
         (exists a b, Campaign.id c = (a ++ searchQuery ++ b)%string)) /\
        (activeTab = "drafts" -> Campaign.status c = DRAFT) /\
        (activeTab = "sent" -> Campaign.status c = SENT) /\
        (activeTab = "scheduled" -> Campaign.status c = SCHEDULED) /\
        (activeTab = "suspended" -> Campaign.status c = SUSPENDED) /\
        (activeTab = "running" -> Campaign.status c = RUNNING) /\
        (activeTab = "failed" -> Campaign.status c = FAILED)) /\
    (exists keep, result = filter keep campaigns) /\
    filterCampaigns toLowerCase result searchQuery activeTab = result.
Proof.
  intros toLowerCase campaigns searchQuery activeTab result. subst result.
  split; [|split].
  - intros c. rewrite filterCampaigns_tab, filter_In, filterCampaigns_all, filter_In.
    rewrite orb_true_iff, !includes_spec.
    destruct (String.eqb_spec activeTab "drafts") as [->|H1];
      [rewrite campaignStatus_eqb_eq; intuition discriminate|].
    destruct (String.eqb_spec activeTab "sent") as [->|H2];
      [rewrite campaignStatus_eqb_eq; intuition discriminate|].
    destruct (String.eqb_spec activeTab "scheduled") as [->|H3];
      [rewrite campaignStatus_eqb_eq; intuition discriminate|].
    destruct (String.eqb_spec activeTab "suspended") as [->|H4];
      [rewrite campaignStatus_eqb_eq; intuition discriminate|].
    destruct (String.eqb_spec activeTab "running") as [->|H5];
      [rewrite campaignStatus_eqb_eq; intuition discriminate|].
    destruct (String.eqb_spec activeTab "failed") as [->|H6];
      [rewrite campaignStatus_eqb_eq; intuition discriminate|].
    intuition congruence.
  - rewrite filterCampaigns_tab, filterCampaigns_all.
    eexists. rewrite filter_twice. reflexivity.
  - rewrite (filterCampaigns_tab toLowerCase (filterCampaigns _ _ _ _)).
    rewrite (filterCampaigns_all toLowerCase (filterCampaigns _ _ _ _)).
    rewrite (filterCampaigns_tab toLowerCase campaigns).
    rewrite (filterCampaigns_all toLowerCase campaigns).
    rewrite !filter_twice. apply filter_ext. intros c.
    destruct (includes _ _ || includes _ _); cbn [andb];
      [|rewrite ?andb_false_r; reflexivity].
    match goal with
    | |- context [if ?c then _ else _] => destruct (if c then _ else _)
    end; reflexivity.
Qed.

(** X21. The counts of [getCampaignStats] are the sizes of the tabs:
    [all] is the number of campaigns and the sum of the six status counts,
    and, without a search query, each count is the length of the list that
    [filterCampaigns] gives for the tab of that name. *)
Theorem getCampaignStats_counts_the_tabs :
  forall (toLowerCase : string -> string) (campaigns : list Campaign.t),
    let stats := getCampaignStats campaigns in
    let tab := fun name => List.length (filterCampaigns toLowerCase campaigns "" name) in
    CampaignStats.all stats = List.length campaigns /\
    CampaignStats.all stats
    = (CampaignStats.drafts stats + CampaignStats.sent stats
       + CampaignStats.scheduled stats + CampaignStats.suspended stats
       + CampaignStats.running stats + CampaignStats.failed stats)%nat /\
    tab "all" = CampaignStats.all stats /\
    tab "drafts" = CampaignStats.drafts stats /\
    tab "sent" = CampaignStats.sent stats /\
    tab "scheduled" = CampaignStats.scheduled stats /\
    tab "suspended" = CampaignStats.suspended stats /\
    tab "running" = CampaignStats.running stats /\
    tab "failed" = CampaignStats.failed stats.
Proof.
  intros toLowerCase campaigns. cbv zeta.
  split; [reflexivity|]. split; [apply countCampaigns_partition|].
  repeat split; reflexivity.
Qed.

(** X22. [getCampaigns] returns the five base campaigns, with a new
    campaign in front when [publishedCampaignId] is a non-empty string: its
    id is the published id, its status SENT, its [sentOn] the time of the
    call.  The other options ([searchQuery], [activeTab], [sortBy],
    [sortOrder]) have no effect on the result: the list is neither filtered
    nor sorted.  The published id is not compared with the ids of the base
    campaigns, so publishing an id that is in the list gives a list with that
    id twice.  The retry store is not touched. *)
Theorem getCampaigns_spec :
  forall (options : CampaignListOptions) (w : World),
    exists (campaigns : list Campaign.t) (w' : World),
      getCampaigns options w = (Returns campaigns, w') /\
      campaignRetryStates w' = campaignRetryStates w /\
      (truthyString (publishedCampaignId options) = None ->
       campaigns = baseCampaigns /\ w' = w) /\
      (forall id, truthyString (publishedCampaignId options) = Some id ->
                  exists c, campaigns = c :: baseCampaigns /\
                            Campaign.id c = id /\
                            Campaign.status c = SENT /\
                            Campaign.sentOn c = Some (SentOnLocale (Some (currentTime w))) /\
                            (In id (map Campaign.id baseCampaigns) ->
                             ~ NoDup (map Campaign.id campaigns))) /\
      (forall query tab by_ order,
          getCampaigns (mkOptions (publishedCampaignId options) query tab by_ order) w
          = getCampaigns options w) /\
      CampaignStats.drafts (getCampaignStats campaigns) = 1%nat /\
      CampaignStats.sent (getCampaignStats campaigns)
      = (List.length campaigns - 1)%nat.
Proof.
  intros [published query tab by_ order] w. unfold getCampaigns.
  cbn [publishedCampaignId].
  destruct (truthyString published) as [id|] eqn:E.
  - eexists; eexists. split; [reflexivity|]. split; [reflexivity|].
    split; [discriminate|]. split; [|split; [reflexivity|split; reflexivity]].
    intros id' Hid; inversion Hid; subst id'.
    eexists. split; [reflexivity|]. cbn [Campaign.id Campaign.status Campaign.sentOn].
    split; [reflexivity|]. split; [reflexivity|]. split; [reflexivity|].
    intros Hin Hnd. cbn [map] in Hnd. inversion Hnd; subst. contradiction.
  - eexists; eexists. split; [reflexivity|]. split; [reflexivity|].
    split; [split; reflexivity|]. split; [discriminate|].
    split; [reflexivity|split; reflexivity].
Qed.

End Campaigns.

(* ===================================================================== *)
(** * The log of a tick *)
(* ===================================================================== *)

Section TickLog.

Import CampaignService RetryEngine.

Lemma advances_ret {A} (a : A) : advances (ret a).
Proof. intros w. apply later_refl. Qed.

Lemma advances_bind {A B} (m : M A) (k : A -> M B) :
  advances m -> (forall a, advances (k a)) -> advances (bind m k).
Proof.
  intros Hm Hk w. unfold bind. specialize (Hm w).
  destruct (m w) as [[a|e] w']; cbn [snd] in *; [|exact Hm].
  eapply later_trans; [exact Hm|apply Hk].
Qed.

Lemma advances_newDateNow : advances newDateNow.
Proof. intros w. apply later_tick. Qed.

Lemma advances_isRetryTtlExpired ttl : advances (RetryService.isRetryTtlExpired ttl).
Proof. intros w. apply later_tick. Qed.

Lemma advances_forEachRetryState now entries :
  advances (forEachRetryState now entries).
Proof.
  induction entries as [|[id st] rest IH]; cbn [forEachRetryState].
  - apply advances_ret.
  - apply advances_bind; [|intros v; apply advances_bind;
                            [exact IH|intros r; apply advances_ret]].
    intros w. rewrite visitRetryState_run. cbv zeta.
    destruct (negb (enabled (retryConfig st)) || isExpired st); [apply later_refl|].
    destruct (truthy (ttlDateTime (retryConfig st))) as [ttl|]; [|apply later_refl].
    destruct (date_gt (Some (currentTime w)) (newDate ttl)); apply later_tick.
Qed.

Lemma advances_getCampaignsForRetry : advances getCampaignsForRetry.
Proof.
  unfold getCampaignsForRetry.
  apply advances_bind; [apply advances_newDateNow|intros now].
  apply advances_bind; [intros w; apply later_refl|intros states].
  apply advances_bind; [apply advances_forEachRetryState|intros r].
  apply advances_bind; [intros w; split; reflexivity|intros _; apply advances_ret].
Qed.

(** A line of the log, while no time passes. *)
Lemma log_frozen (this : Engine) (m : EngineMessage) (w : World) (t : Z) :
  frozenAt t w ->
  exists w',
    log this m w = (Returns tt, w') /\
    console w' = console w ++ (if enableLogging (config this)
                               then [EngineLine (Instant t) m] else []) /\
    frozenAt t w'.
Proof.
  intros Hf. unfold log. destruct (enableLogging (config this)).
  - unfold bind, newDateNow, toISOString, ret, console_log. cbn.
    rewrite (frozenAt_currentTime t w Hf). eexists. split; [reflexivity|].
    split; [reflexivity|]. intros n Hn. cbn in *. apply Hf. lia.
  - exists w. split; [reflexivity|]. split; [rewrite app_nil_r; reflexivity|exact Hf].
Qed.

Lemma forEach_call_frozen (this : Engine) (batch : list (string * CampaignRetryState))
    (w : World) (t : Z) :
  frozenAt t w ->
  exists w',
    forEach (executeCampaignRetry_call this) batch w = (Returns tt, w') /\
    console w'
    = console w ++ (if enableLogging (config this)
                    then map (fun e => EngineLine (Instant t) (MsgExecuting (fst e))) batch
                    else []).
Proof.
  revert w. induction batch as [|e batch IH]; intros w Hf; cbn [forEach map].
  - exists w. split; [reflexivity|].
    destruct (enableLogging (config this)); rewrite app_nil_r; reflexivity.
  - unfold bind at 1. unfold executeCampaignRetry_call at 1.
    destruct (log_frozen this (MsgExecuting (fst e)) w t Hf) as (w1 & E1 & Hc1 & Hf1).
    rewrite E1. destruct (IH w1 Hf1) as (w' & E & Hc). exists w'.
    split; [exact E|]. rewrite Hc, Hc1.
    destruct (enableLogging (config this)); rewrite <- app_assoc; reflexivity.
Qed.

(** X23. The log of a tick, while no time passes: a call of
    [processRetries] returns without an error; with logging enabled and at
    least one campaign due it writes 'Processing N campaigns for retry',
    where N is the number of all due campaigns (not the size of the batch
    that is executed), followed by one line 'Executing retry for campaign'
    for each campaign of the batch, in the order of the store; otherwise it
    writes nothing.  'Error in retry processing' is not written. *)
Theorem tick_log :
  forall (this : Engine) (w : World) (t : Z),
    frozenAt t w ->
    let due := filter (eligible t) (campaignRetryStates w) in
    let batch := batchOf this due in
    exists w',
      processRetries_call this w = (Returns batch, w') /\
      console w'
      = console w
        ++ (if enableLogging (config this) && negb (List.length due =? 0)%nat
            then EngineLine (Instant t) (MsgProcessing (List.length due))
                 :: map (fun e => EngineLine (Instant t) (MsgExecuting (fst e))) batch
            else []).
Proof.
  intros this w t Hf due batch.
  destruct (getCampaignsForRetry_frozen t w Hf) as (w1 & Hrun & _).
  fold due in Hrun.
  assert (Hc1 : console w1 = console w).
  { pose proof (getCampaignsForRetry_console w) as H. rewrite Hrun in H. exact H. }
  assert (Hf1 : frozenAt t w1).
  { eapply frozenAt_later; [exact Hf|].
    pose proof (advances_getCampaignsForRetry w) as H. rewrite Hrun in H. exact H. }
  unfold processRetries_call.
  erewrite try_catch_bind_returns by exact Hrun.
  fold (batchOf this due). fold batch.
  destruct (List.length due =? 0)%nat eqn:Hlen.
  - apply Nat.eqb_eq in Hlen. destruct due as [|e due'] eqn:Hdue; [|discriminate].
    exists w1. split.
    + subst batch. unfold batchOf. rewrite slice0_nil. reflexivity.
    + rewrite Hc1, andb_false_r, app_nil_r. reflexivity.
  - destruct (log_frozen this (MsgProcessing (List.length due)) w1 t Hf1)
      as (w2 & E2 & Hc2 & Hf2).
    destruct (forEach_call_frozen this batch w2 t Hf2) as (w3 & E3 & Hc3).
    exists w3. split.
    + apply try_catch_returns. unfold bind. rewrite E2, E3. reflexivity.
    + rewrite Hc3, Hc2, Hc1, andb_true_r.
      destruct (enableLogging (config this)); rewrite <- app_assoc; reflexivity.
Qed.

End TickLog.

(* ===================================================================== *)
(** * Concrete runs *)
(* ===================================================================== *)

Section Runs.

Import CampaignService RetryEngine.

Ltac decide_Z := vm_compute; first [reflexivity | discriminate].
Ltac not_after :=
  let d := fresh "d" in let E := fresh "E" in let H := fresh "H" in
  intros (d & E & H); inversion E; subst; vm_compute in H; discriminate.

(** The scenario of the specification: '131049', first retry, last attempt
    at T = 0 and deadline at T + 100 h, gives T + 12 h; a candidate that
    falls exactly on the deadline is retryable; a fourth retry is not. *)
Lemma calculateNextRetryAttempt_runs :
  fst (RetryService.calculateNextRetryAttempt "131049" (ofNat 0) (Instant 0)
         (Instant (hours 100)) (worldAt 0 []))
  = Returns (mkNextAttempt (Some (Instant (0 + 12 * msPerHour))) true) /\
  fst (RetryService.calculateNextRetryAttempt "130472" (ofNat 2) (Instant (hours 48))
         (Instant (hours 72)) (worldAt (hours 48) []))
  = Returns (mkNextAttempt (Some (Instant (hours 72))) true) /\
  fst (RetryService.calculateNextRetryAttempt "131049" (ofNat 3) (Instant 0)
         (Instant (hours 100)) (worldAt 0 []))
  = Returns (mkNextAttempt None false).
Proof.
  destruct (calculateNextRetryAttempt_decides "131049" (ofNat 0) (Instant 0)
              (Instant (hours 100)) (worldAt 0 []))
    as (_ & _ & _ & _ & Hfirst & _).
  destruct (calculateNextRetryAttempt_decides "130472" (ofNat 2) (Instant (hours 48))
              (Instant (hours 72)) (worldAt (hours 48) []))
    as (_ & _ & _ & Hboundary & _).
  destruct (calculateNextRetryAttempt_decides "131049" (ofNat 3) (Instant 0)
              (Instant (hours 100)) (worldAt 0 []))
    as (_ & _ & Hexhausted & _).
  split; [|split].
  - apply (Hfirst 0); try reflexivity;
      [apply fixedZone_fixedOffset | decide_Z | not_after | not_after].
  - apply (Hboundary (hours 48)
             (mkRetryPolicy "130472" "Experiment group" [24; 24; 24] false)
             2%nat 24 (hours 72));
      try reflexivity; not_after.
  - apply (Hexhausted
             (mkRetryPolicy "131049" "Frequency cap / healthy ecosystem" [12; 24; 48] false));
      reflexivity.
Defined.

(** A scan at 2 hours over [scannedStates]: the one due entry is returned,
    and the entry whose deadline has passed is marked expired. *)
Lemma getCampaignsForRetry_runs :
  fst (getCampaignsForRetry (worldAt (hours 2) scannedStates))
  = Returns [dueCampaign "due"] /\
  map (fun e => (fst e, isExpired (snd e)))
      (campaignRetryStates (snd (getCampaignsForRetry (worldAt (hours 2) scannedStates))))
  = [("off", false); ("old", true); ("late", true); ("due", false); ("soon", false)].
Proof.
  destruct (getCampaignsForRetry_spec (worldAt (hours 2) scannedStates))
    as (due & w' & E & _ & _ & Hexact).
  destruct (Hexact (hours 2) (fun n _ => eq_refl)) as [Hdue Hstore].
  rewrite E. cbn [fst snd]. rewrite Hdue, Hstore. split; reflexivity.
Defined.

(** Ten days after the scheduled time: too far for the engine's validator,
    fine for the service's.  Twelve hours after: the other way round. *)
Lemma validators_disagree_runs :
  (exists e es,
      fst (validateRetryConfig (Instant (hours 240)) (Instant 0) (worldAt 0 []))
      = Returns (mkValidation false (e :: es))) /\
  fst (RetryService.validateUnifiedTtl (Instant (hours 240)) (Instant 0) (worldAt 0 []))
  = Returns (mkValidation true []) /\
  fst (validateRetryConfig (Instant (hours 12)) (Instant 0) (worldAt 0 []))
  = Returns (mkValidation true []) /\
  (exists e es,
      fst (RetryService.validateUnifiedTtl (Instant (hours 12)) (Instant 0) (worldAt 0 []))
      = Returns (mkValidation false (e :: es))).
Proof.
  assert (Hz : fixedOffset (zone (worldAt 0 []))) by apply fixedZone_fixedOffset.
  assert (H0 : inRange 0) by decide_Z.
  assert (H28 : inRange (0 + 28 * msPerDay)) by decide_Z.
  assert (H10 : currentTime (worldAt 0 []) < hours 240) by decide_Z.
  assert (H12 : currentTime (worldAt 0 []) < hours 12) by decide_Z.
  destruct (validators_disagree_in_a_fixed_zone 0 (hours 240) (worldAt 0 [])
              (worldAt 0 []) Hz Hz H0 H28 H10 H10)
    as (_ & _ & _ & _ & _ & Hbetween & _).
  destruct (validators_disagree_in_a_fixed_zone 0 (hours 12) (worldAt 0 [])
              (worldAt 0 []) Hz Hz H0 H28 H12 H12)
    as (_ & _ & _ & _ & _ & _ & Hshort).
  destruct Hbetween as [Ha Hb]; [split; decide_Z|].
  destruct Hshort as [Hc Hd]; [split; decide_Z|].
  auto.
Defined.

(** The second fire of the timer, while the execution started by the first
    one has not resolved, leaves two calls of [processRetries] in progress;
    repeated calls of [start] leave one timer. *)
Lemma timer_fire_runs :
  List.length
    (inProgress (step (IntervalFires 0) (run [CallStart; IntervalFires 0] overlapStart)))
  = 2%nat /\
  (List.length
     (intervals (world (run [CallStart; CallStart; CallStop; CallStart; CallStart]
                          (mkScheduler (newEngine defaultConfig) [] (worldAt 0 [])))))
   <= 1)%nat.
Proof.
  split.
  - destruct (proj1 timer_fire_starts_tick_regardless
                (run [CallStart; IntervalFires 0] overlapStart) 0%nat
                (or_introl eq_refl))
      as (due & w1 & w' & lines & E & Hstep & _).
    rewrite Hstep. cbn [inProgress].
    assert (Hdue : Returns due = Returns [dueCampaign "c1"]).
    { change (Returns due) with (fst (Returns due, w1)). rewrite <- E.
      vm_compute. reflexivity. }
    inversion Hdue. vm_compute. reflexivity.
  - apply (proj2 timer_fire_starts_tick_regardless). reflexivity.
Defined.

(** Five campaigns due, [maxConcurrentRetries = 2]: the first two are
    executed in the tick; the other three are stored unchanged and are due at
    the next scan, an hour later. *)
Lemma five_due_two_processed :
  let started := step (IntervalFires 0) fiveDue in
  let finished :=
    run (map ExecutionResolves [succeeded; failedWith "131049"]) started in
  inProgress started = [[dueCampaign "c1"; dueCampaign "c2"]] /\
  inProgress finished = [] /\
  map_get "c3" (campaignRetryStates (world finished)) = Some (snd (dueCampaign "c3")) /\
  map_get "c4" (campaignRetryStates (world finished)) = Some (snd (dueCampaign "c4")) /\
  map_get "c5" (campaignRetryStates (world finished)) = Some (snd (dueCampaign "c5")) /\
  exists due2 w3,
    getCampaignsForRetry (worldAt (hours 2) (campaignRetryStates (world finished)))
    = (Returns due2, w3) /\
    In (dueCampaign "c3") due2.
Proof.
  assert (Htimer : In 0%nat (intervals (world fiveDue))) by (left; reflexivity).
  assert (Hmax : 0 <= maxConcurrentRetries (config (engine fiveDue)))
    by (vm_compute; discriminate).
  assert (Hkeys : NoDup (map fst (campaignRetryStates (world fiveDue)))).
  { repeat constructor; simpl; intuition discriminate. }
  assert (Hscan : getCampaignsForRetry (world fiveDue)
                  = (Returns (map dueCampaign ["c1"; "c2"; "c3"; "c4"; "c5"]),
                     snd (getCampaignsForRetry (world fiveDue))))
    by (vm_compute; reflexivity).
  assert (Hlen : List.length [succeeded; failedWith "131049"]
                 = Nat.min (List.length (map dueCampaign ["c1"; "c2"; "c3"; "c4"; "c5"]))
                           (Z.to_nat (maxConcurrentRetries (config (engine fiveDue)))))
    by (vm_compute; reflexivity).
  destruct (processRetries_batch fiveDue 0%nat
              (map dueCampaign ["c1"; "c2"; "c3"; "c4"; "c5"])
              (snd (getCampaignsForRetry (world fiveDue)))
              [succeeded; failedWith "131049"]
              Htimer Hmax Hkeys Hscan Hlen)
    as (Hstarted & Hidle).
  destruct (Hidle eq_refl) as (Hfinished & _ & _ & Hwaiting & Hnext).
  clear Hidle Hscan Hlen.
  cbv zeta. split; [exact Hstarted|]. split; [exact Hfinished|].
  split; [apply Hwaiting; simpl; auto|].
  split; [apply Hwaiting; simpl; auto|].
  split; [apply Hwaiting; simpl; auto|].
  clear Hstarted Hfinished Hwaiting Hkeys Hmax Htimer.
  revert Hnext.
  match goal with
  | |- context [worldAt _ ?sts] => generalize sts
  end.
  intros stored Hnext.
  refine (Hnext (worldAt (hours 2) stored) (hours 2) eq_refl (fun n _ => eq_refl) _
            "c3" (snd (dueCampaign "c3")) _ _).
  - vm_compute. discriminate.
  - simpl; auto.
  - reflexivity.
Defined.

(** A failed attempt without [executedAt], recorded at 1 hour: it is
    appended, and [lastAttemptAt] is the time of the call. *)
Lemma updateRetryAttempt_runs :
  map_get "c1"
    (campaignRetryStates
       (snd (updateRetryAttempt "c1" attemptWithoutExecutedAt
               (worldAt (hours 1) [dueCampaign "c1"]))))
  = Some (mkCampaignRetryState "c1" (windowUntil (Instant (hours 100)))
            [attemptWithoutExecutedAt] (Some (Instant (hours 1)))
            (Some (Instant 0)) false).
Proof.
  destruct (updateRetryState_spec (snd (dueCampaign "c1")) attemptWithoutExecutedAt
              (worldAt (hours 1) [dueCampaign "c1"]))
    as (updated & w' & Hrun & _ & _ & _ & _ & _ & _ & _ & _ & Hstore).
  destruct (Hstore "c1" eq_refl) as (w'' & E & _ & Hget & _).
  rewrite E. cbn [snd]. rewrite Hget. f_equal.
  vm_compute in Hrun. inversion Hrun. reflexivity.
Defined.

(** A delivery that failed with 'Template paused' is rescheduled 24 hours
    after the last attempt: the template check does not block it. *)
Lemma template_paused_runs :
  exists d,
    fst (RetryService.processRetryAttempt "c1" "132015" pausedTemplateState
           (worldAt (hours 1) []))
    = Returns d /\
    shouldRetry d = true /\
    reason d <> TemplatePaused.
Proof.
  eexists. split; [reflexivity|]. split; [reflexivity|].
  apply (proj2 template_paused_unreachable "c1" "132015" pausedTemplateState
           (worldAt (hours 1) [])).
  reflexivity.
Defined.

(** Recording an attempt for a campaign that is not in the store. *)
Lemma updateRetryAttempt_absent_runs :
  updateRetryAttempt "c9" attemptWithoutExecutedAt (worldAt (hours 1) [dueCampaign "c1"])
  = (Returns tt, worldAt (hours 1) [dueCampaign "c1"]).
Proof.
  apply updateRetryAttempt_absent. reflexivity.
Defined.

(** Retry switched off, and an error code without a policy. *)
Lemma processRetryAttempt_decisions_runs :
  fst (RetryService.processRetryAttempt "off" "131049"
         (mkCampaignRetryState "off"
            (mkRetryTtlConfig false (Some (Instant (hours 100))) None true true true)
            [] None None false)
         (worldAt 0 []))
  = Returns (mkRetryDecision false None RetryDisabled) /\
  fst (RetryService.processRetryAttempt "c1" "999999" pausedTemplateState (worldAt 0 []))
  = Returns (mkRetryDecision false None (NoPolicyFound "999999")).
Proof.
  split.
  - apply (processRetryAttempt_decisions "off" "131049"). reflexivity.
  - eapply (processRetryAttempt_decisions "c1" "999999" pausedTemplateState
              (worldAt 0 [])); try reflexivity.
    not_after.
Defined.


(** ** Runs of the further properties *)

Lemma worldAt_frozen (t : Z) (states : RetryStates) : frozenAt t (worldAt t states).
Proof. intros n _. reflexivity. Defined.

(** '130472', second retry, last attempt at 0: the retry is at 24 hours,
    the interval at position 1 of the policy. *)
Lemma calculateNextRetryAttempt_retries_within_policy_runs :
  exists (last : Z) (p : RetryPolicy) (h next : Z),
    DEFAULT_RETRY_POLICIES "130472" = Some p /\
    nth_error (retryIntervals p) 1 = Some h /\
    In h [12; 24; 48] /\
    Some (Instant (hours 24)) = Some (Instant next) /\
    next = last + h * msPerHour.
Proof.
  assert (E : fst (RetryService.calculateNextRetryAttempt "130472" (ofNat 1) (Instant 0)
                     (Instant (hours 100)) (worldAt 0 []))
              = Returns (mkNextAttempt (Some (Instant (hours 24))) true))
    by (vm_compute; reflexivity).
  destruct (calculateNextRetryAttempt_retries_within_policy _ _ _ _ _ _ E) as [_ H].
  destruct (H eq_refl)
    as (last & p & i & h & next & _ & Hp & Hi & Hn & _ & Hh & _ & Hnext & _ & _ & Hfix).
  rewrite asIndex_ofNat in Hi. inversion Hi; subst i.
  exists last, p, h, next. repeat split; auto.
  apply Hfix. apply fixedZone_fixedOffset.
Defined.

(** The campaign whose template was paused, one hour after its last
    attempt at 0: the retry is scheduled for 24 hours, inside the window. *)
Lemma processRetryAttempt_schedules_within_window_runs :
  exists (ttl : DateString) (next : Z),
    truthy (ttlDateTime (retryConfig pausedTemplateState)) = Some ttl /\
    Some (Instant (hours 24)) = Some (Instant next) /\
    ~ isAfter next ttl /\
    next = 0 + 24 * msPerHour.
Proof.
  assert (E : fst (RetryService.processRetryAttempt "c1" "132015" pausedTemplateState
                     (worldAt (hours 1) []))
              = Returns (mkRetryDecision true (Some (Instant (hours 24)))
                           (RetryScheduled (Some (Instant (hours 24))))))
    by (vm_compute; reflexivity).
  destruct (processRetryAttempt_schedules_within_window _ _ _ _ _ E) as (_ & _ & H).
  destruct (H eq_refl)
    as (ttl & p & h & next & _ & Ht & _ & Hp & Hn & _ & _ & Hd & _ & Hin & Hlast & _).
  exists ttl, next. split; [exact Ht|]. split; [exact Hd|]. split; [exact Hin|].
  destruct (Hlast 0 eq_refl) as [_ Hfix].
  rewrite (Hfix (fixedZone_fixedOffset 0)).
  inversion Hp; subst p. inversion Hn. reflexivity.
Defined.

(** A deadline 48 hours after the scheduled time, configured at 1 hour:
    the campaign is active. *)
Lemma valid_unified_config_activates_runs :
  fst (isRetryActive "c1"
         (snd (setRetryConfig "c1"
                 (mkRetryTtlConfig true (Some (Instant (hours 48))) (Some (Instant 0))
                    true true true)
                 (snd (RetryService.createUnifiedTtlConfig "c1" (Instant 0)
                         (Instant (hours 48)) (worldAt (hours 1) []))))))
  = Returns true.
Proof.
  pose proof (valid_unified_config_activates "c1" (Instant 0) (Instant (hours 48))
                (worldAt (hours 1) []) (hours 1)
                (RetryService.mkUnifiedTtlConfig
                   (mkRetryTtlConfig true (Some (Instant (hours 48))) (Some (Instant 0))
                      true true true)
                   (Instant (hours 48)) true [])
                (worldAt_frozen _ _) eq_refl eq_refl) as H.
  cbv zeta in H. destruct H as [_ H]. exact H.
Defined.

(** The campaign without a deadline is returned by the scan at 1 hour,
    and is not active. *)
Lemma due_without_deadline_is_not_active_runs :
  exists due w',
    getCampaignsForRetry (worldAt (hours 1) [withoutDeadline]) = (Returns due, w') /\
    In withoutDeadline due /\
    isRetryActive "nd" w' = (Returns false, w').
Proof.
  destruct (due_without_deadline_is_not_active (worldAt (hours 1) [withoutDeadline])
              (hours 1) "nd" (snd withoutDeadline) (worldAt_frozen _ _)
              eq_refl eq_refl eq_refl eq_refl eq_refl)
    as (due & w' & E & Hin & _ & Hact & _).
  exists due, w'. split; [exact E|]. split; [exact Hin|]. apply Hact. reflexivity.
Defined.

(** Five campaigns are due and the engine executes two at a time: the
    status shows five pending retries. *)
Lemma getStatus_scans_the_store_runs :
  exists status w',
    getStatus (engine fiveDue) (world fiveDue) = (Returns status, w') /\
    pendingRetries status = 5%nat.
Proof.
  assert (Hf : frozenAt (hours 1) (world fiveDue)) by (intros n _; reflexivity).
  assert (Hkeys : NoDup (map fst (campaignRetryStates (world fiveDue)))).
  { repeat constructor; simpl; intuition discriminate. }
  destruct (getStatus_scans_the_store (engine fiveDue) (world fiveDue) (hours 1)
              Hf Hkeys)
    as (status & w' & E & _ & _ & Hp & _).
  exists status, w'. split; [exact E|]. rewrite Hp. vm_compute. reflexivity.
Defined.

(** The sample sequence from the empty store leaves a well-keyed store. *)
Lemma store_stays_well_keyed_runs :
  wellKeyed (campaignRetryStates (world (performAll sampleActions freshScheduler))).
Proof.
  apply store_stays_well_keyed. split; constructor.
Defined.

(** After the sample sequence nothing is due and nothing is in progress,
    although the campaign is configured, the engine runs and an attempt is
    recorded. *)
Lemma nothing_becomes_due_runs :
  fst (getCampaignsForRetry (world (performAll sampleActions freshScheduler)))
  = Returns [] /\
  inProgress (performAll sampleActions freshScheduler) = [].
Proof.
  assert (Hu : unscheduled (campaignRetryStates (world freshScheduler)))
    by constructor.
  pose proof (nothing_becomes_due sampleActions freshScheduler Hu eq_refl) as H.
  cbv zeta in H. destruct H as (_ & Hp & Hdue & _). split; assumption.
Defined.

(** The campaign that has used its three intervals fails a fourth time at
    50 hours with '131049': the retries are exhausted, and at 51 hours the
    campaign is eligible again. *)
Lemma unrescheduled_campaign_stays_due_runs :
  exists st',
    map_get "c1"
      (campaignRetryStates
         (snd (executeCampaignRetry_resume (engine fiveDue) "c1" (snd exhaustedCampaign)
                 (failedWith "131049") (worldAt (hours 50) [exhaustedCampaign]))))
    = Some st' /\
    List.length (attempts st') = 4%nat /\
    eligible (hours 51) ("c1", st') = true.
Proof.
  assert (E : fst (executeCampaignRetry_resume (engine fiveDue) "c1"
                     (snd exhaustedCampaign) (failedWith "131049")
                     (worldAt (hours 50) [exhaustedCampaign]))
              = Returns (mkResult "c1" false (Some "131049")
                           (RetryExhausted NoMoreAttempts) None))
    by (vm_compute; reflexivity).
  destruct (unrescheduled_campaign_stays_due (engine fiveDue) "c1"
              (snd exhaustedCampaign) (snd exhaustedCampaign) (failedWith "131049")
              (worldAt (hours 50) [exhaustedCampaign]) _ (hours 51) eq_refl E eq_refl)
    as (st' & Hget & Ha & _ & _ & Hdue).
  exists st'. split; [exact Hget|]. split; [rewrite Ha; reflexivity|].
  apply Hdue; try reflexivity. vm_compute. discriminate.
Defined.

(** The campaign that failed once at 0 is retried at 30 hours and fails
    with '131049': the next attempt is set to 24 hours, counted from the
    attempt at 0, and the campaign is eligible again at once. *)
Lemma retry_is_scheduled_from_the_scanned_state_runs :
  exists st',
    map_get "c1"
      (campaignRetryStates
         (snd (executeCampaignRetry_resume (engine fiveDue) "c1" (snd onceFailed)
                 (failedWith "131049") (worldAt (hours 30) [onceFailed]))))
    = Some st' /\
    lastAttemptAt st' = Some (Instant (hours 30)) /\
    nextAttemptAt st' = Some (Instant (0 + 24 * msPerHour)) /\
    eligible (hours 30) ("c1", st') = true.
Proof.
  assert (Hnow : ~ isAfter (hours 30) (Instant (hours 100))) by not_after.
  assert (Hnext : ~ isAfter (0 + 24 * msPerHour) (Instant (hours 100))) by not_after.
  pose proof (retry_is_scheduled_from_the_scanned_state (engine fiveDue) "c1" "131049"
                (snd onceFailed) (snd onceFailed) (worldAt (hours 30) [onceFailed])
                (hours 30) 0 24 (0 + 24 * msPerHour) (Instant (hours 100)) _
                (worldAt_frozen _ _) eq_refl eq_refl eq_refl Hnow policy_131049
                eq_refl eq_refl eq_refl Hnext) as H.
  cbv zeta in H. destruct H as (_ & Hget & _ & Hdue).
  eexists. split; [exact Hget|]. cbn [lastAttemptAt nextAttemptAt].
  split; [reflexivity|]. split; [reflexivity|].
  apply Hdue; [reflexivity|]. vm_compute. discriminate.
Defined.

(** The engine with five campaigns due is stopped while the first two
    executions are in flight: no timer is left, and the execution of "c1"
    still records its attempt. *)
Lemma stop_ends_ticks_not_executions_runs :
  isRunning (engine (step CallStop (step (IntervalFires 0) fiveDue))) = false /\
  intervals (world (step CallStop (step (IntervalFires 0) fiveDue))) = [] /\
  recordsAttempt "c1"
    (campaignRetryStates (world (step (IntervalFires 0) fiveDue)))
    (campaignRetryStates
       (world (step (ExecutionResolves succeeded)
                 (step CallStop (step (IntervalFires 0) fiveDue))))).
Proof.
  assert (Hone : oneTimer (step (IntervalFires 0) fiveDue)).
  { apply step_oneTimer. split; [reflexivity|discriminate]. }
  assert (Hp : inProgress (step (IntervalFires 0) fiveDue)
               = (("c1", snd (dueCampaign "c1")) :: [dueCampaign "c2"]) :: [])
    by (vm_compute; reflexivity).
  pose proof (stop_ends_ticks_not_executions (step (IntervalFires 0) fiveDue) Hone)
    as H.
  cbv zeta in H. destruct H as (Hrun & Hint & _ & _ & _ & _ & _ & Hres).
  split; [exact Hrun|]. split; [exact Hint|].
  exact (proj2 (Hres "c1" (snd (dueCampaign "c1")) [dueCampaign "c2"] [] succeeded Hp)).
Defined.

(** Five campaigns due, two executed at a time: the log says 'Processing
    5 campaigns for retry' and then names the two campaigns of the batch. *)
Lemma tick_log_runs :
  console (snd (processRetries_call (engine fiveDue) (world fiveDue)))
  = [ EngineLine (Instant (hours 1)) (MsgProcessing 5);
      EngineLine (Instant (hours 1)) (MsgExecuting "c1");
      EngineLine (Instant (hours 1)) (MsgExecuting "c2") ].
Proof.
  assert (Hf : frozenAt (hours 1) (world fiveDue)) by (intros n _; reflexivity).
  destruct (tick_log (engine fiveDue) (world fiveDue) (hours 1) Hf) as (w' & E & Hc).
  rewrite E. cbn [snd]. rewrite Hc. vm_compute. reflexivity.
Defined.

End Runs.
